(** * drop_columns.py: the batched table rebuild, embedded and verified

    The development follows [scripts/drop_columns.py].  The script talks to
    SQLite through Python's [sqlite3] module; the part of the engine the
    script relies on (catalog, row storage, transactions) is modelled here
    as a small state-and-exception monad over a finite map of tables.

    Conventions of the model:
    - a stored value is NULL, an INTEGER, a REAL or a TEXT (the BLOB storage
      class is left out); a REAL is the rational number it stands for, and
      is compared with integers exactly, as SQLite and Python do;
    - Python's floating-point arithmetic is outside the model: the loop
      computes on floats only when MIN of the batching column is a REAL,
      and a run that gets there ends with the result [Unmodelled];
    - column and table names are plain identifiers, compared exactly as
      Python's [in] compares them, and text is compared bytewise (the
      default BINARY collation);
    - the engine reads a column definition back as the script wrote it,
      piece by piece (name, type, NOT NULL, DEFAULT value, PRIMARY KEY);
    - the engine stores rows as given; a rejection of a statement by the
      engine for a reason the model does not compute (a constraint, a lock,
      a full disk) is given by an oracle over the sequence of engine calls;
    - a Python [int] is an unbounded integer, an SQLite INTEGER has 64 bits:
      binding a larger [int] to a statement raises [OverflowError];
    - the [while] loop takes fuel, and running out of fuel is a result of
      its own, so that termination is a statement about the loop;
    - of the clock the model keeps [total_time], the seconds between its
      readings at lines 133 and 194: line 196 divides by it, and the
      division raises [ZeroDivisionError] when the two readings agree;
      the timing figures of the progress line, computed at lines 165-168
      under guards, are left out;
    - besides the tables of the user the file holds the tables SQLite
      keeps itself, [sqlite_sequence] and [sqlite_stat1] to [sqlite_stat4],
      whose rows name other tables: DROP TABLE deletes the statistics rows
      of the dropped table and, when its key was declared AUTOINCREMENT,
      its row in [sqlite_sequence], and ALTER TABLE RENAME renames the row
      in [sqlite_sequence].  Indexes, triggers and views are left out, and
      names that begin with [sqlite_] are reserved: a CREATE TABLE or an
      ALTER TABLE the engine rejects on their account is a rejection of
      the oracle's;
    - the columns file is a text of ASCII characters, and the files
      [main] sees are a finite map from paths to databases and texts. *)

From Stdlib Require Import ZArith Ascii String.
From Stdlib Require QArith Qround.
From stdpp Require Import gmap strings list.

Local Open Scope Z_scope.

(** ** Values and tables *)

Abbreviation real := QArith_base.Q.

#[global] Instance real_eq_dec : EqDecision real.
Proof. solve_decision. Defined.

(** A value as [sqlite3] hands it to Python: [None], an [int], a [float]
    or a [str]. *)
Inductive value :=
| VNull
| VInt (n : Z)
| VReal (q : real)
| VText (s : string).

#[global] Instance value_eq_dec : EqDecision value.
Proof. solve_decision. Defined.

(** One row of [PRAGMA table_info(t)]:
    [(cid, name, type, notnull, dflt_value, pk)], indices 0 to 5.
    [pk] is 0 for a column outside the primary key and otherwise the
    1-based position of the column inside the primary key. *)
Record info_row := InfoRow {
  col_cid : Z;
  col_name : string;
  col_type : string;
  col_notnull : Z;
  col_dflt : option string;
  col_pk : Z
}.

#[global] Instance info_row_eq_dec : EqDecision info_row.
Proof. solve_decision. Defined.

(** A table: its catalog, its rows, and whether its key was declared
    AUTOINCREMENT, which the schema records and [PRAGMA table_info] does
    not show. *)
Record table := Table {
  t_info : list info_row;
  t_rows : list (list value);
  t_autoincrement : bool
}.

(** The database file: table name to table. *)
Abbreviation db := (gmap string table).

(** ** The Python side of [drop_unused_columns] *)

(** Line 79: [[col for col in columns_to_keep if col in current_columns]]. *)
Definition valid_columns (columns_to_keep current_columns : list string) : list string :=
  filter (λ col, col ∈ current_columns) columns_to_keep.

(** Line 83: [[col for col in current_columns if col not in columns_to_keep]]. *)
Definition columns_to_drop (columns_to_keep current_columns : list string) : list string :=
  filter (λ col, col ∉ columns_to_keep) current_columns.

(** [str.strip()] on the ASCII range: Python's whitespace is 0x09-0x0D,
    0x1C-0x1F and 0x20. *)
Definition py_isspace (a : ascii) : bool :=
  let n := nat_of_ascii a in
  (Nat.leb 9 n && Nat.leb n 13) || (Nat.leb 28 n && Nat.leb n 32).

Fixpoint lstrip (s : string) : string :=
  match s with
  | EmptyString => EmptyString
  | String a s' => if py_isspace a then lstrip s' else s
  end.

Fixpoint rstrip (s : string) : string :=
  match s with
  | EmptyString => EmptyString
  | String a s' =>
      match rstrip s' with
      | EmptyString => if py_isspace a then EmptyString else String a EmptyString
      | r => String a r
      end
  end.

Definition strip (s : string) : string := rstrip (lstrip s).

(** Lines 104-108: the five pieces of one column definition. *)
Record column_def := ColumnDef {
  cd_col_name : string;
  cd_col_type : string;
  cd_not_null : string;
  cd_default_val : string;
  cd_is_pk : string
}.

Definition column_def_of (row : info_row) : column_def :=
  {| cd_col_name := col_name row;
     cd_col_type := col_type row;
     cd_not_null := if bool_decide (col_notnull row = 1) then "NOT NULL" else EmptyString;
     cd_default_val :=
       match col_dflt row with
       | Some d => "DEFAULT " +:+ d
       | None => EmptyString
       end;
     cd_is_pk := if bool_decide (col_pk row = 1) then "PRIMARY KEY" else EmptyString |}.

(** Line 109: the f-string and its [strip()]. *)
Definition render (d : column_def) : string :=
  strip (cd_col_name d +:+ " " +:+ cd_col_type d +:+ " " +:+ cd_not_null d +:+ " "
         +:+ cd_default_val d +:+ " " +:+ cd_is_pk d).

(** Line 99: [{row[1]: row for row in cursor.fetchall()}]; a later row
    with the same name replaces an earlier one. *)
Definition table_info_dict (rows : list info_row) : gmap string info_row :=
  foldl (λ m row, <[col_name row := row]> m) ∅ rows.

(** Lines 96-109: the loop that fills [column_defs]. *)
Definition column_defs (table_info : gmap string info_row) (valid : list string)
  : list column_def :=
  omap (λ col, column_def_of <$> table_info !! col) valid.

(** Line 113: [[row[1] for row in cursor.fetchall() if row[5] > 0]]. *)
Definition primary_key_cols (rows : list info_row) : list string :=
  col_name <$> filter (λ row, 0 < col_pk row) rows.

(** Line 122: the text of the CREATE TABLE statement. *)
Fixpoint join (sep : string) (l : list string) : string :=
  match l with
  | [] => EmptyString
  | [x] => x
  | x :: l' => x +:+ sep +:+ join sep l'
  end.

Definition new_table_name (table_name : string) : string := table_name +:+ "_new".

Definition create_stmt (new_table : string) (defs : list column_def) : string :=
  "CREATE TABLE " +:+ new_table +:+ " (" +:+ join ", " (render <$> defs) +:+ ")".

(** Exceptions the script can meet. [DatabaseError] stands for any
    [sqlite3.Error] raised by the engine. *)
Inductive exn :=
| DatabaseError
| TypeError
| IndexError
| OverflowError
| ZeroDivisionError.

#[global] Instance exn_eq_dec : EqDecision exn.
Proof. solve_decision. Defined.

(** The result of running a piece of the script. [Timeout] is the model's
    way of saying that the fuel given to the [while] loop ran out, and
    [Unmodelled] that the run reached floating-point arithmetic. *)
Inductive outcome (A : Type) :=
| Ret (a : A)
| Raise (e : exn)
| Timeout
| Unmodelled.
Arguments Ret {A} a.
Arguments Raise {A} e.
Arguments Timeout {A}.
Arguments Unmodelled {A}.

(** Line 127:
    [primary_key_cols[0] if primary_key_cols and primary_key_cols[0] in valid_columns
     else valid_columns[0]]. *)
Definition index0 (l : list string) : outcome string :=
  match l with
  | x :: _ => Ret x
  | [] => Raise IndexError
  end.

Definition batch_column (pk_cols valid : list string) : outcome string :=
  match pk_cols with
  | p :: _ => if bool_decide (p ∈ valid) then Ret p else index0 valid
  | [] => index0 valid
  end.

(** ** The engine *)

(** Statements as the script issues them, kept in the trace of the
    connection in the order of the calls. *)
Inductive stmt :=
| SPragmaForeignKeys (on : bool)
| SSelectTable (t : string)
| SPragmaTableInfo (t : string)
| SSelectCount (t : string)
| SCreateTable (t : string) (defs : list column_def)
| SSelectMinMax (c t : string)
| SBegin
| SInsertSelect (new_t : string) (cols : list string) (t c : string) (lo hi : Z)
| SDropTable (t : string)
| SRenameTable (old_t new_t : string)
| SCommit.

(** Lines of standard output the properties speak about. [Dropped] is
    the line of line 195; [Summary] is the line of line 196, which ends
    the report of a completed run, here with both counts. *)
Inductive line :=
| BackupAbort
| TableMissing
| NoColumnsToDrop
| Progress (processed_rows total_rows : Z)
| Dropped (dropped : nat)
| Summary (dropped : nat) (processed_rows : Z)
| ErrorOccurred (e : exn).

(** The connection: the database as committed on disk, the working copy of
    the open transaction if there is one, the engine calls made so far and
    what has been printed. *)
Record conn := Conn {
  committed : db;
  pending : option db;
  trace : list stmt;
  stdout : list line
}.

(** [sqlite3.connect(db_path)]. *)
Definition connect (file : db) : conn :=
  {| committed := file; pending := None; trace := []; stdout := [] |}.

(** What a statement on the connection sees. *)
Definition visible (s : conn) : db := default (committed s) (pending s).

(** The catalog row SQLite keeps for a column declared by [d] at
    position [i]. *)
Definition declared (i : nat) (d : column_def) : info_row :=
  {| col_cid := Z.of_nat i;
     col_name := cd_col_name d;
     col_type := cd_col_type d;
     col_notnull := if bool_decide (cd_not_null d = "NOT NULL") then 1 else 0;
     col_dflt :=
       if bool_decide (cd_default_val d = EmptyString) then None
       else Some (String.substring 8 (Nat.sub (String.length (cd_default_val d)) 8) (cd_default_val d));
     col_pk := if bool_decide (cd_is_pk d = "PRIMARY KEY") then 1 else 0 |}.

Definition catalog (defs : list column_def) : list info_row := imap declared defs.

Definition column_names (T : table) : list string := col_name <$> t_info T.

Definition column_index (T : table) (c : string) : option nat :=
  fst <$> list_find (λ r, col_name r = c) (t_info T).

Definition cell (i : nat) (row : list value) : value := default VNull (row !! i).

Definition project (idxs : list nat) (row : list value) : list value :=
  (λ i, cell i row) <$> idxs.

(** SQLite's order of values: INTEGER and REAL compare as numbers and sort
    before a TEXT; NULL is skipped by MIN and MAX. Python compares an [int]
    and a [float] in the same way. *)
Definition sql_leb (a b : value) : bool :=
  match a, b with
  | VNull, _ => true
  | _, VNull => false
  | VInt x, VInt y => x <=? y
  | VInt x, VReal q => QArith_base.Qle_bool (QArith_base.inject_Z x) q
  | VReal p, VInt y => QArith_base.Qle_bool p (QArith_base.inject_Z y)
  | VReal p, VReal q => QArith_base.Qle_bool p q
  | (VInt _ | VReal _), VText _ => true
  | VText _, (VInt _ | VReal _) => false
  | VText x, VText y => String.leb x y
  end.

Definition min_step (v acc : value) : value :=
  match v with
  | VNull => acc
  | _ => match acc with
         | VNull => v
         | _ => if sql_leb v acc then v else acc
         end
  end.

Definition max_step (v acc : value) : value :=
  match v with
  | VNull => acc
  | _ => match acc with
         | VNull => v
         | _ => if sql_leb acc v then v else acc
         end
  end.

Definition sql_min (vs : list value) : value := foldr min_step VNull vs.

Definition sql_max (vs : list value) : value := foldr max_step VNull vs.

(** [c >= ? AND c <= ?] with two integers bound: NULL compares to NULL,
    which is not true, and a TEXT is above every integer. *)
Definition in_range (lo hi : Z) (v : value) : bool :=
  match v with
  | VInt n => (lo <=? n) && (n <=? hi)
  | VReal q => QArith_base.Qle_bool (QArith_base.inject_Z lo) q
               && QArith_base.Qle_bool q (QArith_base.inject_Z hi)
  | _ => false
  end.

(** [SELECT cols FROM T WHERE c >= lo AND c <= hi]. *)
Definition select_range (T : table) (cols : list string) (c : string) (lo hi : Z)
  : option (list (list value)) :=
  idxs ← mapM (column_index T) cols;
  i ← column_index T c;
  Some (project idxs <$> filter (λ row, in_range lo hi (cell i row)) (t_rows T)).

(** A Python [int] binds to an SQLite INTEGER only inside 64 bits. *)
Definition int64 (n : Z) : bool := (- 2 ^ 63 <=? n) && (n <? 2 ^ 63).

(** Dividing by a [float] raises [ZeroDivisionError] when it is zero. *)
Definition is_zero (x : real) : bool :=
  QArith_base.Qeq_bool x (QArith_base.inject_Z 0).

(** The statistics tables ANALYZE writes; their column [tbl] names the
    table a row is about.  [sqlite_sequence] has the columns [name] and
    [seq], one row for a table with an AUTOINCREMENT key. *)
Definition stat_tables : list string :=
  ["sqlite_stat1"; "sqlite_stat2"; "sqlite_stat3"; "sqlite_stat4"].

(** [DELETE FROM S WHERE col = name]. *)
Definition delete_named (col name : string) (S : table) : table :=
  match column_index S col with
  | Some j =>
      {| t_info := t_info S;
         t_rows := filter (λ row, cell j row ≠ VText name) (t_rows S);
         t_autoincrement := t_autoincrement S |}
  | None => S
  end.

(** [UPDATE S SET col = new_name WHERE col = old_name]. *)
Definition rename_named (col old_name new_name : string) (S : table) : table :=
  match column_index S col with
  | Some j =>
      {| t_info := t_info S;
         t_rows :=
           (λ row, if bool_decide (cell j row = VText old_name)
                   then <[j := VText new_name]> row else row) <$> t_rows S;
         t_autoincrement := t_autoincrement S |}
  | None => S
  end.

(** What DROP TABLE [name] does to the table stored under [k]: SQLite
    deletes the rows of the statistics tables that name the dropped table
    and, when the dropped table had an AUTOINCREMENT key, its row in
    [sqlite_sequence]. *)
Definition forget_in (autoincrement : bool) (name k : string) (S : table) : table :=
  if bool_decide (k = "sqlite_sequence") then
    if autoincrement then delete_named "name" name S else S
  else if bool_decide (k ∈ stat_tables) then delete_named "tbl" name S
  else S.

Definition forget (autoincrement : bool) (name : string) (d : db) : db :=
  map_imap (λ k S, Some (forget_in autoincrement name k S)) d.

(** What ALTER TABLE [old_name] RENAME TO [new_name] does to the table
    stored under [k]: the row of [sqlite_sequence] follows the name. *)
Definition rename_in (old_name new_name k : string) (S : table) : table :=
  if bool_decide (k = "sqlite_sequence") then rename_named "name" old_name new_name S
  else S.

Definition renamed (old_name new_name : string) (d : db) : db :=
  map_imap (λ k S, Some (rename_in old_name new_name k S)) d.

(** ** The script as a state-and-exception computation *)

Section Script.

(** [oracle n] tells whether the engine rejects the [n]-th call made on the
    connection (counted from 0) for a reason outside the model. *)
Variable oracle : nat → bool.

(** Whether [shutil.copy2] succeeds when a backup is asked for. *)
Variable copy_ok : bool.

(** Line 194: the seconds between the readings of the clock at line 133
    and at line 194. *)
Variable total_time : real.

Definition M (A : Type) : Type := conn → outcome A * conn.

Definition ret {A} (a : A) : M A := λ s, (Ret a, s).
Definition raise {A} (e : exn) : M A := λ s, (Raise e, s).
Definition timeout {A} : M A := λ s, (Timeout, s).
Definition unmodelled {A} : M A := λ s, (Unmodelled, s).
Definition lift {A} (o : outcome A) : M A := λ s, (o, s).

Definition bind {A B} (m : M A) (k : A → M B) : M B := λ s,
  match m s with
  | (Ret a, s') => k a s'
  | (Raise e, s') => (Raise e, s')
  | (Timeout, s') => (Timeout, s')
  | (Unmodelled, s') => (Unmodelled, s')
  end.

(** [try: m except Exception as e: h e]. *)
Definition try_except {A} (m : M A) (h : exn → M A) : M A := λ s,
  match m s with
  | (Raise e, s') => h e s'
  | r => r
  end.

Notation "x <- m ;; k" := (bind m (λ x, k))
  (at level 100, m at next level, right associativity).
Notation "m ;;; k" := (bind m (λ _, k))
  (at level 100, right associativity).

Definition print (l : line) : M unit := λ s,
  (Ret tt, {| committed := committed s; pending := pending s;
              trace := trace s; stdout := stdout s ++ [l] |}).

(** Every call into the engine is recorded, and may be rejected. *)
Definition engine_call (q : stmt) : M unit := λ s,
  let s' := {| committed := committed s; pending := pending s;
               trace := trace s ++ [q]; stdout := stdout s |} in
  if oracle (length (trace s)) then (Raise DatabaseError, s') else (Ret tt, s').

Definition get_db : M db := λ s, (Ret (visible s), s).

(** A schema statement writes into the open transaction, or straight to
    the file when none is open (autocommit). *)
Definition put_db (d : db) : M unit := λ s,
  (Ret tt,
   match pending s with
   | Some _ => {| committed := committed s; pending := Some d;
                  trace := trace s; stdout := stdout s |}
   | None => {| committed := d; pending := None;
                trace := trace s; stdout := stdout s |}
   end).

(** An INSERT always runs inside a transaction: [sqlite3] opens one before
    the statement when none is open. *)
Definition put_db_dml (d : db) : M unit := λ s,
  (Ret tt, {| committed := committed s; pending := Some d;
              trace := trace s; stdout := stdout s |}).

(** [conn.execute("BEGIN TRANSACTION")]. *)
Definition begin_transaction : M unit :=
  engine_call SBegin ;;;
  λ s, match pending s with
       | Some _ => (Raise DatabaseError, s)
       | None => (Ret tt, {| committed := committed s; pending := Some (committed s);
                             trace := trace s; stdout := stdout s |})
       end.

(** [conn.commit()]. *)
Definition commit : M unit :=
  engine_call SCommit ;;;
  λ s, (Ret tt, {| committed := visible s; pending := None;
                   trace := trace s; stdout := stdout s |}).

(** [conn.rollback()], and what [conn.close()] does to an open transaction. *)
Definition rollback : M unit := λ s,
  (Ret tt, {| committed := committed s; pending := None;
              trace := trace s; stdout := stdout s |}).

Definition close : M unit := rollback.

(** Line 65 and line 206. *)
Definition pragma_foreign_keys (on : bool) : M unit :=
  engine_call (SPragmaForeignKeys on).

(** Lines 68-69: is there a row in [sqlite_master] for the table? *)
Definition table_exists (table_name : string) : M bool :=
  engine_call (SSelectTable table_name) ;;;
  d <- get_db ;;
  ret (bool_decide (is_Some (d !! table_name))).

(** [PRAGMA table_info(t)]; no rows for a table that does not exist. *)
Definition pragma_table_info (table_name : string) : M (list info_row) :=
  engine_call (SPragmaTableInfo table_name) ;;;
  d <- get_db ;;
  ret (match d !! table_name with Some T => t_info T | None => [] end).

(** Lines 22-25. *)
Definition get_current_columns (table_name : string) : M (list string) :=
  rows <- pragma_table_info table_name ;;
  ret (col_name <$> rows).

(** Lines 38-41. *)
Definition count_rows (table_name : string) : M Z :=
  engine_call (SSelectCount table_name) ;;;
  d <- get_db ;;
  match d !! table_name with
  | Some T => ret (Z.of_nat (length (t_rows T)))
  | None => raise DatabaseError
  end.

(** Lines 27-36, without the file name and the message. *)
Definition create_backup : M bool := ret copy_ok.

(** [CREATE TABLE new_table (defs)]: rejected when the name is taken, when
    there is no column, and when two columns share a name. No definition
    the script writes says AUTOINCREMENT. *)
Definition create_table (new_table : string) (defs : list column_def) : M unit :=
  engine_call (SCreateTable new_table defs) ;;;
  d <- get_db ;;
  if bool_decide (is_Some (d !! new_table)) then raise DatabaseError
  else if bool_decide (defs = []) then raise DatabaseError
  else if bool_decide (NoDup (cd_col_name <$> defs)) then
    put_db (<[new_table := {| t_info := catalog defs; t_rows := []; t_autoincrement := false |}]> d)
  else raise DatabaseError.

(** [SELECT MIN(c), MAX(c) FROM t]. *)
Definition select_min_max (c table_name : string) : M (value * value) :=
  engine_call (SSelectMinMax c table_name) ;;;
  d <- get_db ;;
  match d !! table_name with
  | Some T =>
      match column_index T c with
      | Some i =>
          let vs := cell i <$> t_rows T in
          ret (sql_min vs, sql_max vs)
      | None => raise DatabaseError
      end
  | None => raise DatabaseError
  end.

(** Lines 150-155: [INSERT INTO new_table SELECT cols FROM t WHERE c >= ? AND c <= ?]
    with [(lo, hi)] bound; the result is [cursor.rowcount]. *)
Definition insert_select (new_table : string) (cols : list string)
    (table_name c : string) (lo hi : Z) : M Z :=
  if negb (int64 lo && int64 hi) then raise OverflowError else
  engine_call (SInsertSelect new_table cols table_name c lo hi) ;;;
  d <- get_db ;;
  match d !! table_name, d !! new_table with
  | Some T, Some N =>
      match select_range T cols c lo hi with
      | Some rows =>
          if bool_decide (length cols = length (t_info N)) then
            put_db_dml
              (<[new_table := {| t_info := t_info N; t_rows := t_rows N ++ rows;
                                 t_autoincrement := t_autoincrement N |}]> d) ;;;
            ret (Z.of_nat (length rows))
          else raise DatabaseError
      | None => raise DatabaseError
      end
  | _, _ => raise DatabaseError
  end.

(** [DROP TABLE t]: the table goes, and with it the rows SQLite keeps
    about it in its own tables. *)
Definition drop_table (table_name : string) : M unit :=
  engine_call (SDropTable table_name) ;;;
  d <- get_db ;;
  match d !! table_name with
  | Some T => put_db (forget (t_autoincrement T) table_name (delete table_name d))
  | None => raise DatabaseError
  end.

(** [ALTER TABLE new_table RENAME TO t]: the table moves to its new name,
    and so does its row in [sqlite_sequence]. *)
Definition rename_table (new_table table_name : string) : M unit :=
  engine_call (SRenameTable new_table table_name) ;;;
  d <- get_db ;;
  match d !! new_table, d !! table_name with
  | Some N, None =>
      put_db (<[table_name := N]> (delete new_table (renamed new_table table_name d)))
  | _, _ => raise DatabaseError
  end.

(** Lines 143-173, the [while] loop. [current_min] and [max_id] are Python
    values: comparing a number with a [str] raises at line 143, and adding
    an [int] to a [str] raises at line 144. With an [int] in [current_min]
    the bounds stay integers; with a [float] there line 144 is
    floating-point arithmetic. [fuel] bounds the number of iterations. *)
Fixpoint batch_loop (fuel : nat) (new_table table_name batch_col : string)
    (valid : list string) (batch_size total_rows : Z)
    (current_min max_id : value) (processed_rows : Z) : M Z :=
  match current_min, max_id with
  | VInt lo, (VInt _ | VReal _) =>
      if sql_leb current_min max_id then
        match fuel with
        | O => timeout
        | S fuel' =>
            let current_max := lo + batch_size - 1 in
            begin_transaction ;;;
            rowcount <- insert_select new_table valid table_name batch_col lo current_max ;;
            let batch_rows := if 0 <=? rowcount then rowcount else 0 in
            let processed_rows := processed_rows + batch_rows in
            commit ;;;
            print (Progress processed_rows total_rows) ;;;
            batch_loop fuel' new_table table_name batch_col valid batch_size total_rows
              (VInt (current_max + 1)) max_id processed_rows
        end
      else ret processed_rows
  | VReal _, (VInt _ | VReal _) =>
      if sql_leb current_min max_id then unmodelled else ret processed_rows
  | VText a, VText b => if String.leb a b then raise TypeError else ret processed_rows
  | _, _ => raise TypeError
  end.

(** Lines 117-191: the shadow table, the copy and the swap. The result is
    [processed_rows]. *)
Definition rebuild (fuel : nat) (table_name : string) (valid : list string)
    (defs : list column_def) (pk_cols : list string)
    (batch_size total_rows : Z) : M Z :=
  let new_table := new_table_name table_name in
  create_table new_table defs ;;;
  batch_col <- lift (batch_column pk_cols valid) ;;
  bounds <- select_min_max batch_col table_name ;;
  processed_rows <-
    (match bounds with
     | (VNull, _) | (_, VNull) => ret 0
     | (min_id, max_id) =>
         batch_loop fuel new_table table_name batch_col valid batch_size total_rows
           min_id max_id 0
     end) ;;
  begin_transaction ;;;
  drop_table table_name ;;;
  rename_table new_table table_name ;;;
  commit ;;;
  ret processed_rows.

(** Lines 194-196: the two closing lines. The second one divides
    [processed_rows] by [total_time]. *)
Definition report (dropped : nat) (processed_rows : Z) : M unit :=
  print (Dropped dropped) ;;;
  if is_zero total_time then raise ZeroDivisionError
  else print (Summary dropped processed_rows).

(** Lines 117-196, the body of the [try]. *)
Definition migrate (fuel : nat) (table_name : string) (valid : list string)
    (defs : list column_def) (pk_cols : list string)
    (batch_size total_rows : Z) (dropped : nat) : M unit :=
  processed_rows <- rebuild fuel table_name valid defs pk_cols batch_size total_rows ;;
  report dropped processed_rows.

(** Lines 198-203, the [except] clause: roll back, report, return [False]. *)
Definition on_error (e : exn) : M bool :=
  rollback ;;; print (ErrorOccurred e) ;;; close ;;; ret false.

(** Lines 116-203, the [try] statement; [true] when the body fell through. *)
Definition try_migrate (fuel : nat) (table_name : string) (valid : list string)
    (defs : list column_def) (pk_cols : list string)
    (batch_size total_rows : Z) (dropped : nat) : M bool :=
  try_except
    (migrate fuel table_name valid defs pk_cols batch_size total_rows dropped ;;; ret true)
    on_error.

(** Lines 43-208. The result is the returned boolean. *)
Definition drop_unused_columns (table_name : string) (columns_to_keep : list string)
    (batch_size : Z) (create_backup_file : bool) (fuel : nat) : M bool :=
  backed_up <- (if create_backup_file then create_backup else ret true) ;;
  if negb backed_up then print BackupAbort ;;; ret false else
  pragma_foreign_keys false ;;;
  found <- table_exists table_name ;;
  if negb found then print TableMissing ;;; close ;;; ret false else
  current_columns <- get_current_columns table_name ;;
  let valid := valid_columns columns_to_keep current_columns in
  let to_drop := columns_to_drop columns_to_keep current_columns in
  if bool_decide (to_drop = []) then print NoColumnsToDrop ;;; close ;;; ret true else
  total_rows <- count_rows table_name ;;
  rows <- pragma_table_info table_name ;;
  let defs := column_defs (table_info_dict rows) valid in
  rows' <- pragma_table_info table_name ;;
  let pk_cols := primary_key_cols rows' in
  done <- try_migrate fuel table_name valid defs pk_cols batch_size total_rows
            (length to_drop) ;;
  if negb done then ret false else
  pragma_foreign_keys true ;;;
  close ;;;
  ret true.

(** Running the script on a database file. *)
Definition run (file : db) (table_name : string) (columns_to_keep : list string)
    (batch_size : Z) (create_backup_file : bool) (fuel : nat) : outcome bool * conn :=
  drop_unused_columns table_name columns_to_keep batch_size create_backup_file fuel
    (connect file).

End Script.

(** ** Reference definitions the properties are stated with *)

(** The batching column as the specification words it: the first
    primary-key column that is in the keep set, and the first column of the
    keep set when there is none. *)
Definition spec_batch_column (pk_cols valid : list string) : outcome string :=
  match filter (λ p, p ∈ valid) pk_cols with
  | p :: _ => Ret p
  | [] => index0 valid
  end.

(** The value ranges of [n] consecutive batches of width [batch_size]
    starting at [lo]. *)
Fixpoint batches (batch_size : Z) (n : nat) (lo : Z) : list (Z * Z) :=
  match n with
  | O => []
  | S n' => (lo, lo + batch_size - 1) :: batches batch_size n' (lo + batch_size)
  end.

(** The rows one batch selects, and the rows [n] batches select in turn. *)
Definition batch_select (T : table) (idxs : list nat) (i : nat) (lo hi : Z)
  : list (list value) :=
  project idxs <$> filter (λ row, in_range lo hi (cell i row)) (t_rows T).

Definition copied (T : table) (idxs : list nat) (i : nat) (batch_size : Z)
    (n : nat) (lo : Z) : list (list value) :=
  batches batch_size n lo ≫= λ b, batch_select T idxs i b.1 b.2.

(** The statements [n] iterations of the loop issue. *)
Definition loop_stmts (new_table : string) (cols : list string) (table_name c : string)
    (batch_size : Z) (n : nat) (lo : Z) : list stmt :=
  batches batch_size n lo ≫= λ b,
    [SBegin; SInsertSelect new_table cols table_name c b.1 b.2; SCommit].

(** Some batch with a lower bound up to [mx] has a bound outside 64 bits. *)
Definition overflows (batch_size lo mx : Z) : Prop :=
  ∃ j : nat, lo + Z.of_nat j * batch_size ≤ mx ∧
    ¬ (int64 (lo + Z.of_nat j * batch_size)
       ∧ int64 (lo + Z.of_nat j * batch_size + batch_size - 1)).

(** The catalog of the shadow table built for [T] and a keep-list. *)
Definition shadow_defs (T : table) (columns_to_keep : list string) : list column_def :=
  column_defs (table_info_dict (t_info T)) (valid_columns columns_to_keep (column_names T)).

(** The last integer that is not above a numeric MAX. *)
Definition upper_bound (max_id : value) : option Z :=
  match max_id with
  | VInt mx => Some mx
  | VReal q => Some (Qround.Qfloor q)
  | _ => None
  end.

(** The batching column of [T] holds no REAL. *)
Definition no_real (T : table) (i : nat) : Prop :=
  ∀ row q, row ∈ t_rows T → cell i row ≠ VReal q.

(** What a completed copy leaves in the shadow table: nothing when the
    batching column holds no value, and otherwise the rows of the [n]
    batches it takes to pass MAX, starting at MIN. *)
Definition copy_result (T : table) (idxs : list nat) (i : nat) (batch_size : Z)
    (rows : list (list value)) : Prop :=
  let vs := cell i <$> t_rows T in
  (sql_min vs = VNull ∧ rows = [])
  ∨ ∃ mn mx n,
      sql_min vs = VInt mn ∧ upper_bound (sql_max vs) = Some mx
      ∧ rows = copied T idxs i batch_size n mn
      ∧ mx < mn + Z.of_nat n * batch_size
      ∧ ∀ k, (k < n)%nat → mn + Z.of_nat k * batch_size ≤ mx.

(** What an interrupted copy leaves in the shadow table: the rows of the
    batches committed before the interruption. *)
Definition copy_prefix (T : table) (idxs : list nat) (i : nat) (batch_size : Z)
    (rows : list (list value)) : Prop :=
  let vs := cell i <$> t_rows T in
  rows = []
  ∨ ∃ mn mx n,
      sql_min vs = VInt mn ∧ upper_bound (sql_max vs) = Some mx
      ∧ rows = copied T idxs i batch_size n mn
      ∧ ∀ k, (k < n)%nat → mn + Z.of_nat k * batch_size ≤ mx.

(** The reasons for which the body of the [try] can raise. *)
Definition migrate_fault (oracle : nat → bool) (d0 : db) (T : table)
    (table_name : string) (valid pk_cols : list string) (batch_size : Z) : Prop :=
  (∃ k, oracle k = true)
  ∨ is_Some (d0 !! new_table_name table_name)
  ∨ valid = []
  ∨ ¬ NoDup valid
  ∨ ∃ c i, batch_column pk_cols valid = Ret c ∧ column_index T c = Some i
      ∧ let vs := cell i <$> t_rows T in
        (∃ x, sql_max vs = VText x)
        ∨ ∃ mn mx, sql_min vs = VInt mn ∧ upper_bound (sql_max vs) = Some mx
            ∧ overflows batch_size mn mx.

(** The tables of the user: every name but the five of the engine. *)
Definition plain (k : string) : Prop := k ≠ "sqlite_sequence" ∧ k ∉ stat_tables.

(** The file [d0] after the final transaction has put the table [N] in
    the place of the table [table_name]: the other tables are as before,
    but for the rows SQLite kept about the dropped table and about the
    shadow table. *)
Definition after_swap (d0 : db) (table_name : string) (N : table) : db :=
  let autoincrement :=
    match d0 !! table_name with
    | Some T => t_autoincrement T
    | None => false
    end in
  <[table_name := N]>
    (renamed (new_table_name table_name) table_name
       (forget autoincrement table_name (delete table_name d0))).

(** The state after a completed migration of [T] out of the file [d0]:
    the table has the shadow table's catalog and the copied rows, and the
    summary has been printed. *)
Definition migrated (d0 : db) (T : table) (table_name : string) (keep : list string)
    (batch_size : Z) (dropped : nat) (s' : conn) : Prop :=
  let valid := valid_columns keep (column_names T) in
  let defs := shadow_defs T keep in
  ∃ c i idxs rows,
    batch_column (primary_key_cols (t_info T)) valid = Ret c
    ∧ column_index T c = Some i
    ∧ mapM (column_index T) valid = Some idxs
    ∧ d0 !! new_table_name table_name = None
    ∧ NoDup valid
    ∧ pending s' = None
    ∧ committed s' = after_swap d0 table_name {| t_info := catalog defs; t_rows := rows;
                                                 t_autoincrement := false |}
    ∧ copy_result T idxs i batch_size rows
    ∧ last (stdout s') = Some (Summary dropped (Z.of_nat (length rows))).

(** The state after the final commit, with [rows] in the table, whatever
    is printed afterwards. *)
Definition swapped (d0 : db) (T : table) (table_name : string) (keep : list string)
    (batch_size : Z) (rows : list (list value)) (s' : conn) : Prop :=
  let valid := valid_columns keep (column_names T) in
  let defs := shadow_defs T keep in
  ∃ c i idxs,
    batch_column (primary_key_cols (t_info T)) valid = Ret c
    ∧ column_index T c = Some i
    ∧ mapM (column_index T) valid = Some idxs
    ∧ d0 !! new_table_name table_name = None
    ∧ NoDup valid
    ∧ pending s' = None
    ∧ committed s' = after_swap d0 table_name {| t_info := catalog defs; t_rows := rows;
                                                 t_autoincrement := false |}
    ∧ copy_result T idxs i batch_size rows.

(** The file after an interrupted migration: untouched, or the original
    tables plus the shadow table with the rows of the committed batches. *)
Definition contained (d0 : db) (T : table) (table_name : string) (keep : list string)
    (batch_size : Z) (d' : db) : Prop :=
  let valid := valid_columns keep (column_names T) in
  let defs := shadow_defs T keep in
  d' = d0
  ∨ ∃ c i idxs rows,
      batch_column (primary_key_cols (t_info T)) valid = Ret c
      ∧ column_index T c = Some i
      ∧ mapM (column_index T) valid = Some idxs
      ∧ d0 !! new_table_name table_name = None
      ∧ d' = <[new_table_name table_name := {| t_info := catalog defs; t_rows := rows;
                                               t_autoincrement := false |}]> d0
      ∧ copy_prefix T idxs i batch_size rows.



(** The run ends the model's way: the loop needs more iterations than the
    fuel allows, or MIN is a REAL and the loop computes on floats. *)
Definition beyond_model (T : table) (keep : list string) (batch_size : Z) (fuel : nat)
  : Prop :=
  ∃ c i,
    batch_column (primary_key_cols (t_info T)) (valid_columns keep (column_names T)) = Ret c
    ∧ column_index T c = Some i
    ∧ let vs := cell i <$> t_rows T in
      (∃ q, sql_min vs = VReal q)
      ∨ ∃ mn mx, sql_min vs = VInt mn ∧ upper_bound (sql_max vs) = Some mx
          ∧ mn + Z.of_nat fuel * batch_size ≤ mx.

(** Two database files hold the same content: the same tables, each with
    the same catalog and the same rows up to their order of storage. *)
Definition same_content (d1 d2 : db) : Prop :=
  ∀ k, match d1 !! k, d2 !! k with
       | Some T1, Some T2 => t_info T1 = t_info T2 ∧ t_rows T1 ≡ₚ t_rows T2
       | None, None => True
       | _, _ => False
       end.

(** ** The columns file *)

Definition LF : ascii := "010"%char.
Definition CR : ascii := "013"%char.

(** A file opened in text mode: [\r\n] and a lone [\r] are read as [\n]. *)
Fixpoint universal_newlines (s : string) : string :=
  match s with
  | EmptyString => EmptyString
  | String a s' =>
      if Ascii.eqb a CR then
        String LF
          match s' with
          | String b s'' =>
              if Ascii.eqb b LF then universal_newlines s'' else universal_newlines s'
          | EmptyString => EmptyString
          end
      else String a (universal_newlines s')
  end.

(** [for line in f]: the lines of the text, each with the [\n] that ends
    it; the last line has none when the text does not end with one. *)
Fixpoint readlines (s : string) : list string :=
  match s with
  | EmptyString => []
  | String a s' =>
      if Ascii.eqb a LF then String LF EmptyString :: readlines s'
      else match readlines s' with
           | [] => [String a EmptyString]
           | l :: ls => String a l :: ls
           end
  end.

(** Lines 16-20: [[line.strip() for line in f if line.strip()]], on the
    text of the file (ASCII, as [strip] above). *)
Definition read_columns_to_keep (text : string) : list string :=
  strip <$> filter (λ line, strip line ≠ EmptyString) (readlines (universal_newlines text)).

(** A name that can stand on a line of its own: not empty, no whitespace
    around it, no line break inside. *)
Fixpoint newline_free (s : string) : bool :=
  match s with
  | EmptyString => true
  | String a s' => negb (Ascii.eqb a LF) && negb (Ascii.eqb a CR) && newline_free s'
  end.

Definition column_name_ok (n : string) : Prop :=
  n ≠ EmptyString ∧ strip n = n ∧ newline_free n = true.

(** ** The command line *)

(** [args] as [argparse] leaves it; [--columns-file] is [None] when it is
    not given. *)
Record namespace := Namespace {
  arg_db_path : string;
  arg_table_name : string;
  arg_batch_size : Z;
  arg_backup : bool;
  arg_columns_file : option string
}.

(** What a path holds: a database or a text. A path that holds nothing is
    not a file. *)
Inductive content :=
| Database (d : db)
| Text (s : string).

(** Line 29: the path of the backup; [stamp] is the time of the call,
    formatted. *)
Definition backup_path (db_path stamp : string) : string :=
  db_path +:+ ".backup-" +:+ stamp.

(** Lines 229-234: an empty [--columns-file] counts as not given. *)
Definition columns_file (default_columns_file : string) (args : namespace) : string :=
  match arg_columns_file args with
  | Some p => if bool_decide (p = EmptyString) then default_columns_file else p
  | None => default_columns_file
  end.

(** Lines 210-253. The result is the exit status of the process, with the
    files it leaves; [Raise] is an uncaught exception. The backup is
    written before the database is opened (lines 55-58). A database opened
    as text, or a text opened as a database, is outside the model. The
    messages of [main] itself are left out. *)
Definition main (oracle : nat → bool) (copy_ok : bool) (total_time : real)
    (default_columns_file stamp : string) (fuel : nat)
    (args : namespace) (files : gmap string content)
  : outcome Z * gmap string content :=
  match files !! arg_db_path args with
  | None => (Ret 1, files)
  | Some database =>
      match files !! columns_file default_columns_file args with
      | None => (Ret 1, files)
      | Some columns =>
          match database, columns with
          | Database file, Text text =>
              let columns_to_keep := read_columns_to_keep text in
              let r := run oracle copy_ok total_time file (arg_table_name args) columns_to_keep
                         (arg_batch_size args) (arg_backup args) fuel in
              let files1 :=
                if arg_backup args && copy_ok
                then <[backup_path (arg_db_path args) stamp := Database file]> files
                else files in
              let files2 := <[arg_db_path args := Database (committed r.2)]> files1 in
              (match r.1 with
               | Ret success => Ret (if success then 0 else 1)
               | Raise e => Raise e
               | Timeout => Timeout
               | Unmodelled => Unmodelled
               end, files2)
          | _, _ => (Unmodelled, files)
          end
      end
  end.

(** ** The script call by call *)

(** The statements the script issues before the [try] (lines 65-113). *)
Definition prelude (table_name : string) : list stmt :=
  [SPragmaForeignKeys false; SSelectTable table_name; SPragmaTableInfo table_name;
   SSelectCount table_name; SPragmaTableInfo table_name; SPragmaTableInfo table_name].

(** What lines 198-208 make of the way the body of the [try] ended. *)
Definition finish (oracle : nat → bool) (r : outcome unit * conn) : outcome bool * conn :=
  match r with
  | (Ret _, s) => bind (pragma_foreign_keys oracle true) (λ _, bind close (λ _, ret true)) s
  | (Raise e, s) => on_error e s
  | (Timeout, s) => (Timeout, s)
  | (Unmodelled, s) => (Unmodelled, s)
  end.

(** The script up to the [try], one engine call after the other; [body]
    stands for the [try] statement and what follows it. *)
Definition before_try (oracle : nat → bool) (copy_ok : bool) (file : db)
    (table_name : string) (columns_to_keep : list string) (create_backup_file : bool)
    (body : table → conn → outcome bool * conn) : outcome bool * conn :=
  let at_call n out := Conn file None (take n (prelude table_name)) out in
  if create_backup_file && negb copy_ok then (Ret false, at_call 0%nat [BackupAbort]) else
  if oracle 0%nat then (Raise DatabaseError, at_call 1%nat []) else
  if oracle 1%nat then (Raise DatabaseError, at_call 2%nat []) else
  match file !! table_name with
  | None => (Ret false, at_call 2%nat [TableMissing])
  | Some T =>
      if oracle 2%nat then (Raise DatabaseError, at_call 3%nat []) else
      if bool_decide (columns_to_drop columns_to_keep (column_names T) = []) then
        (Ret true, at_call 3%nat [NoColumnsToDrop])
      else
      if oracle 3%nat then (Raise DatabaseError, at_call 4%nat []) else
      if oracle 4%nat then (Raise DatabaseError, at_call 5%nat []) else
      if oracle 5%nat then (Raise DatabaseError, at_call 6%nat []) else
      body T (at_call 6%nat [])
  end.

(** A property of the connection that a computation keeps, however it
    ends. *)
Definition preserves {A} (I : conn → Prop) (m : M A) : Prop := ∀ s, I s → I (m s).2.

(** Table [k] is as in [file], on disk and in the open transaction. *)
Definition untouched (file : db) (k : string) (s : conn) : Prop :=
  committed s !! k = file !! k ∧ ∀ d, pending s = Some d → d !! k = file !! k.

(** ** Example data *)

(** An engine that rejects nothing, and one that rejects its [n]-th call. *)
Definition quiet : nat → bool := λ _, false.
Definition failing_at (n : nat) : nat → bool := λ k, bool_decide (k = n).

(** A clock that has advanced by a second at line 194, and one that has
    not moved. *)
Definition one_second : real := QArith_base.inject_Z 1.
Definition no_time : real := QArith_base.inject_Z 0.

(** The scenario of the specification, with four rows. *)
Definition affiliates : table :=
  {| t_info :=
       [InfoRow 0 "id" "INTEGER" 1 None 1;
        InfoRow 1 "surname" "TEXT" 1 None 0;
        InfoRow 2 "firstname" "TEXT" 0 None 0;
        InfoRow 3 "notes" "TEXT" 0 (Some "'none'") 0;
        InfoRow 4 "scratch" "INTEGER" 0 None 0];
     t_rows :=
       [[VInt 1; VText "Okoro"; VText "Ada"; VText "first"; VNull];
        [VInt 9; VText "Bello"; VText "Musa"; VText "none"; VInt 3];
        [VInt 4; VText "Eze"; VNull; VText "none"; VInt 0];
        [VInt 5; VText "Ojo"; VText "Tola"; VText "none"; VNull]]; t_autoincrement := false |}.

Definition registry : db := {[ "affiliates" := affiliates ]}.

(** A table without a primary key whose first kept column holds a NULL. *)
Definition ledger : table :=
  {| t_info :=
       [InfoRow 0 "ref" "INTEGER" 0 None 0;
        InfoRow 1 "amount" "INTEGER" 0 None 0;
        InfoRow 2 "memo" "TEXT" 0 None 0];
     t_rows :=
       [[VInt 3; VInt 100; VText "a"];
        [VNull; VInt 250; VText "b"];
        [VInt 1; VInt 75; VNull]]; t_autoincrement := false |}.

Definition books : db := {[ "ledger" := ledger ]}.

(** A table without a primary key whose first kept column holds the REAL
    1.5 between the integers 1 and 3. *)
Definition readings : table :=
  {| t_info :=
       [InfoRow 0 "level" "NUMERIC" 0 None 0;
        InfoRow 1 "site" "TEXT" 0 None 0;
        InfoRow 2 "note" "TEXT" 0 None 0];
     t_rows :=
       [[VInt 1; VText "north"; VNull];
        [VReal (QArith_base.Qmake 3 2); VText "east"; VNull];
        [VInt 3; VText "south"; VText "dry"]]; t_autoincrement := false |}.

Definition station : db := {[ "readings" := readings ]}.

(** A table with the primary key [(a, b)] and a further column [c]. *)
Definition composite_info : list info_row :=
  [InfoRow 0 "a" "INTEGER" 1 None 1;
   InfoRow 1 "b" "INTEGER" 1 None 2;
   InfoRow 2 "c" "TEXT" 0 None 0].

(** Such a table with two rows, the only table of its file. *)
Definition composite : table :=
  {| t_info := composite_info;
     t_rows := [[VInt 1; VInt 10; VText "x"]; [VInt 2; VInt 20; VText "y"]];
     t_autoincrement := false |}.

Definition junction : db := {[ "composite" := composite ]}.

(** A table whose columns are all kept, asked for in another order. *)
Definition pair : table :=
  {| t_info :=
       [InfoRow 0 "a" "INTEGER" 0 None 0;
        InfoRow 1 "b" "TEXT" 0 None 0];
     t_rows := [[VInt 1; VText "x"]]; t_autoincrement := false |}.

Definition pairs : db := {[ "pair" := pair ]}.

(** A file in which an earlier run has left its shadow table. *)
Definition interrupted : db := <["affiliates_new" := pair]> registry.

(** A table whose key holds the largest 64-bit integer. *)
Definition tally : table :=
  {| t_info :=
       [InfoRow 0 "id" "INTEGER" 1 None 1;
        InfoRow 1 "hits" "INTEGER" 0 None 0;
        InfoRow 2 "scratch" "TEXT" 0 None 0];
     t_rows :=
       [[VInt 9223372036854775806; VInt 4; VNull];
        [VInt 9223372036854775807; VInt 7; VNull]]; t_autoincrement := false |}.

Definition counters : db := {[ "tally" := tally ]}.

(** The scenario's database as SQLite keeps it when [id] is declared
    AUTOINCREMENT and ANALYZE has been run: beside the table, a table
    [members] and the engine's rows about both. *)
Definition numbered (T : table) : table :=
  {| t_info := t_info T; t_rows := t_rows T; t_autoincrement := true |}.

Definition sequenced : db :=
  {[ "affiliates" := numbered affiliates;
     "members" := numbered pair;
     "sqlite_sequence" :=
       {| t_info := [InfoRow 0 "name" "" 0 None 0; InfoRow 1 "seq" "" 0 None 0];
          t_rows := [[VText "affiliates"; VInt 9]; [VText "members"; VInt 1]];
          t_autoincrement := false |};
     "sqlite_stat1" :=
       {| t_info := [InfoRow 0 "tbl" "" 0 None 0; InfoRow 1 "idx" "" 0 None 0;
                     InfoRow 2 "stat" "" 0 None 0];
          t_rows := [[VText "members"; VNull; VText "1"];
                     [VText "affiliates"; VNull; VText "4"]]; t_autoincrement := false |} ]}.

(** The scenario's database with a columns file of three lines, and a
    command line for it. *)
Definition disk : gmap string content :=
  {[ "cac.db" := Database registry;
     "columns.txt" := Text ("firstname" +:+ String LF ("id" +:+ String LF "surname")) ]}.

Definition scenario_args : namespace :=
  {| arg_db_path := "cac.db"; arg_table_name := "affiliates"; arg_batch_size := 3;
     arg_backup := true; arg_columns_file := Some "columns.txt" |}.

(** What holds of the result of a computation: one condition for a
    returned value, one for a raised exception, one for a run that ends
    the model's way (out of fuel, or in floating-point arithmetic). *)
Definition post {A} (r : outcome A * conn)
    (Q : A → conn → Prop) (E : exn → conn → Prop) (T : Prop) : Prop :=
  match r with
  | (Ret a, s') => Q a s'
  | (Raise e, s') => E e s'
  | (Timeout, _) | (Unmodelled, _) => T
  end.

Example render_full :
  render (column_def_of (InfoRow 0 "id" "INTEGER" 1 (Some "7") 1))
  = "id INTEGER NOT NULL DEFAULT 7 PRIMARY KEY".
Proof. reflexivity. Qed.

Example render_plain :
  render (column_def_of (InfoRow 1 "surname" "TEXT" 0 None 0)) = "surname TEXT".
Proof. reflexivity. Qed.

Example render_pk_only :
  render (column_def_of (InfoRow 0 "id" "INTEGER" 0 None 1)) = "id INTEGER   PRIMARY KEY".
Proof. reflexivity. Qed.

Example create_stmt_affiliates :
  create_stmt (new_table_name "affiliates")
    (shadow_defs affiliates ["id"; "surname"; "firstname"])
  = "CREATE TABLE affiliates_new (id INTEGER NOT NULL  PRIMARY KEY, surname TEXT NOT NULL, firstname TEXT)".
Proof. vm_compute. reflexivity. Qed.

(** ** Lists *)

Lemma filter_none {A} (P : A → Prop) `{∀ x, Decision (P x)} (l : list A) :
  (∀ x, x ∈ l → ¬ P x) → filter P l = [].
Proof.
  induction l as [|x l IH]; intros Hl; [done|].
  rewrite filter_cons_False by (apply Hl, list_elem_of_here).
  apply IH. intros y Hy. apply Hl. by apply list_elem_of_further.
Qed.

(** ** The column-set reconciler *)

Lemma elem_of_valid_columns keep current c :
  c ∈ valid_columns keep current ↔ c ∈ current ∧ c ∈ keep.
Proof. unfold valid_columns. rewrite list_elem_of_filter. tauto. Qed.

Lemma elem_of_columns_to_drop keep current c :
  c ∈ columns_to_drop keep current ↔ c ∈ current ∧ c ∉ keep.
Proof. unfold columns_to_drop. rewrite list_elem_of_filter. tauto. Qed.

(** C6. The keep set is the intersection of the current columns with the
    requested keep-list (a requested name that is not a column is dropped
    from it without an error), the drop set is the current columns minus
    the keep set, and the two are disjoint. *)
Theorem keep_set_drop_set (current keep : list string) :
  let K : gset string := list_to_set (valid_columns keep current) in
  let D : gset string := list_to_set (columns_to_drop keep current) in
  K = list_to_set current ∩ list_to_set keep
  ∧ D = list_to_set current ∖ K
  ∧ K ## D.
Proof.
  cbn zeta. split_and!.
  - apply set_eq. intros c.
    rewrite elem_of_intersection, !elem_of_list_to_set, elem_of_valid_columns. tauto.
  - apply set_eq. intros c.
    rewrite elem_of_difference, !elem_of_list_to_set,
      elem_of_columns_to_drop, elem_of_valid_columns. tauto.
  - intros c. rewrite !elem_of_list_to_set,
      elem_of_columns_to_drop, elem_of_valid_columns. tauto.
Qed.

(** ** The batching column *)

Lemma primary_key_cols_names rows p :
  p ∈ primary_key_cols rows → p ∈ col_name <$> rows.
Proof.
  unfold primary_key_cols. rewrite !list_elem_of_fmap.
  intros (r & -> & Hr). apply list_elem_of_filter in Hr as [_ Hr]. eauto.
Qed.

Lemma batch_column_head_kept pk valid p :
  head pk = Some p → p ∈ valid → batch_column pk valid = Ret p.
Proof.
  destruct pk as [|q pk]; [done|]. intros [= ->] Hp.
  simpl. by rewrite bool_decide_true.
Qed.

Lemma batch_column_head_dropped pk valid p :
  head pk = Some p → p ∉ valid → batch_column pk valid = index0 valid.
Proof.
  destruct pk as [|q pk]; [done|]. intros [= ->] Hp.
  simpl. by rewrite bool_decide_false.
Qed.

(** Line 127 as it is written. The batching column is the first
    primary-key column of the table, in the order of the table's columns,
    when that column is kept; in every other case it is the first column
    of the keep set, also when a later primary-key column is kept. The
    choice is the first kept primary-key column whenever the first
    primary-key column is kept or no primary-key column is kept. *)
Lemma batch_column_choice (rows : list info_row) (keep : list string) :
  let valid := valid_columns keep (col_name <$> rows) in
  let pk := primary_key_cols rows in
  (∀ p, head pk = Some p → p ∈ keep → batch_column pk valid = Ret p)
  ∧ (∀ p, head pk = Some p → p ∉ keep → batch_column pk valid = index0 valid)
  ∧ (head pk = None → batch_column pk valid = index0 valid)
  ∧ ((∀ p, head pk = Some p → p ∈ keep ∨ ∀ q, q ∈ pk → q ∉ keep) →
     batch_column pk valid = spec_batch_column pk valid).
Proof.
  intros valid pk.
  assert (Hin : ∀ p, p ∈ pk → (p ∈ valid ↔ p ∈ keep)).
  { intros p Hp. subst valid. rewrite elem_of_valid_columns.
    apply primary_key_cols_names in Hp. tauto. }
  clearbody pk valid.
  assert (Hhead : ∀ p, head pk = Some p → p ∈ pk).
  { intros p Hp. destruct pk; simplify_eq/=. apply list_elem_of_here. }
  split_and!.
  - intros p Hh Hk. apply batch_column_head_kept; [done|].
    apply Hin; auto.
  - intros p Hh Hk. apply (batch_column_head_dropped _ _ p); [done|].
    rewrite Hin; auto.
  - by destruct pk.
  - intros Hcase. unfold spec_batch_column.
    destruct pk as [|p pk'] eqn:Epk; [done|].
    destruct (Hcase p eq_refl) as [Hk|Hnone].
    + assert (p ∈ valid) as Hv by (apply Hin; [apply list_elem_of_here|done]).
      rewrite filter_cons_True by done. simpl. by rewrite bool_decide_true.
    + assert (filter (λ q, q ∈ valid) (p :: pk') = []) as ->.
      { apply filter_none. intros q Hq Hqv.
        apply (Hnone q Hq). by apply Hin. }
      simpl. rewrite bool_decide_false; [done|].
      intros Hv. apply (Hnone p); [apply list_elem_of_here|].
      apply Hin; [apply list_elem_of_here|done].
Qed.

(** C8. The claim holds of the comment at line 126 (prefer the primary
    key) and of line 113, which collects every key column, but not of line
    127, which looks at the first key column only. For the key [(a, b)]
    with [a] dropped and [b] kept the script batches on [c], the first
    kept column, not on the kept key column [b]. Here [c] holds text: the
    run with the keep-list [c, b] ends in a [TypeError] and returns
    [False], the table untouched, while the run with the keep-list [b, c],
    which batches on [b], returns [True]. *)
Theorem batch_column_not_first_kept_pk :
  let valid := valid_columns ["c"; "b"] (column_names composite) in
  let pk := primary_key_cols (t_info composite) in
  let r := run quiet true one_second junction "composite" ["c"; "b"] 5000 false 10 in
  let r' := run quiet true one_second junction "composite" ["b"; "c"] 5000 false 10 in
  pk = ["a"; "b"]
  ∧ valid = ["c"; "b"]
  ∧ batch_column pk valid = Ret "c"
  ∧ spec_batch_column pk valid = Ret "b"
  ∧ r.1 = Ret false
  ∧ stdout r.2 = [ErrorOccurred TypeError]
  ∧ committed r.2 !! "composite" = Some composite
  ∧ batch_column pk (valid_columns ["b"; "c"] (column_names composite)) = Ret "b"
  ∧ r'.1 = Ret true
  ∧ t_rows <$> committed r'.2 !! "composite"
    = Some [[VInt 10; VText "x"]; [VInt 20; VText "y"]].
Proof. vm_compute. split_and!; reflexivity. Qed.

Lemma batch_column_choice_witness :
  batch_column (primary_key_cols composite_info)
    (valid_columns ["b"; "a"] (col_name <$> composite_info)) = Ret "a".
Proof.
  apply (proj1 (batch_column_choice composite_info ["b"; "a"]) "a").
  - reflexivity.
  - apply (bool_decide_unpack _). vm_compute. exact I.
Defined.

(** ** Column definitions *)

Lemma substring_all s : String.substring 0 (String.length s) s = s.
Proof. induction s as [|a s IH]; simpl; [done|]. by rewrite IH. Qed.

(** For a column that is not in the primary key or is its first column,
    with a 0/1 not-null flag, the definition built at lines 104-108
    declares what the catalog had. *)
Lemma declared_column_def_of i row :
  col_notnull row = 0 ∨ col_notnull row = 1 →
  col_pk row = 0 ∨ col_pk row = 1 →
  declared i (column_def_of row)
  = InfoRow (Z.of_nat i) (col_name row) (col_type row) (col_notnull row)
      (col_dflt row) (col_pk row).
Proof.
  destruct row as [cid name ty nn dflt pk]. simpl. intros Hnn Hpk.
  unfold declared, column_def_of. simpl. f_equal.
  - destruct Hnn as [-> | ->]; reflexivity.
  - destruct dflt as [d|]; [|done].
    rewrite bool_decide_false by done. f_equal.
    change (String.substring 0 (Nat.sub (String.length d) 0) d = d).
    rewrite Nat.sub_0_r. apply substring_all.
  - destruct Hpk as [-> | ->]; reflexivity.
Qed.

(** C9 fails for the second and later columns of a composite primary key:
    line 108 tests [row[5] == 1], while [pk] holds the position of the
    column inside the key (line 113 tests [row[5] > 0]). Column [b] of
    [composite_info] is part of the primary key and its definition comes
    out without PRIMARY KEY, so the rebuilt table has the key [(a)]. *)
Theorem composite_primary_key_not_rendered :
  let row := InfoRow 1 "b" "INTEGER" 1 None 2 in
  row ∈ composite_info
  ∧ col_name row ∈ primary_key_cols composite_info
  ∧ render (column_def_of row) = "b INTEGER NOT NULL"
  ∧ col_pk (declared 1 (column_def_of row)) = 0
  ∧ col_pk <$> catalog (shadow_defs (Table composite_info [] false) ["a"; "b"]) = [1; 0].
Proof.
  cbn zeta. split_and!.
  - apply (bool_decide_unpack _). vm_compute. exact I.
  - apply (bool_decide_unpack _). vm_compute. exact I.
  - reflexivity.
  - reflexivity.
  - vm_compute. reflexivity.
Qed.

(** ** Results of computations *)

Lemma post_bind {A B} (m : M A) (k : A → M B) s Q E (T : Prop) :
  post (m s) (λ a s', post (k a s') Q E T) E T → post (bind m k s) Q E T.
Proof. unfold bind. by destruct (m s) as [[a|e| |] s']. Qed.

Lemma post_mono {A} (r : outcome A * conn) Q Q' E E' (T T' : Prop) :
  post r Q E T →
  (∀ a s, Q a s → Q' a s) → (∀ e s, E e s → E' e s) → (T → T') →
  post r Q' E' T'.
Proof. destruct r as [[a|e| |] s]; simpl; auto. Qed.

(** ** Batches *)

Lemma copied_0 T idxs i bs lo : copied T idxs i bs 0 lo = [].
Proof. done. Qed.

Lemma copied_S T idxs i bs n lo :
  copied T idxs i bs (S n) lo
  = batch_select T idxs i lo (lo + bs - 1) ++ copied T idxs i bs n (lo + bs).
Proof. done. Qed.

Lemma loop_stmts_S new cols t c bs n lo :
  loop_stmts new cols t c bs (S n) lo
  = [SBegin; SInsertSelect new cols t c lo (lo + bs - 1); SCommit]
    ++ loop_stmts new cols t c bs n (lo + bs).
Proof. done. Qed.

Lemma select_range_batch_select T cols c idxs i lo hi :
  mapM (column_index T) cols = Some idxs →
  column_index T c = Some i →
  select_range T cols c lo hi = Some (batch_select T idxs i lo hi).
Proof. intros Hidxs Hi. unfold select_range. rewrite Hidxs, Hi. done. Qed.

Lemma overflows_next bs lo mx :
  lo ≤ mx → overflows bs (lo + bs) mx → overflows bs lo mx.
Proof.
  intros Hle (j & Hj & Hov). exists (S j).
  replace (lo + Z.of_nat (S j) * bs) with (lo + bs + Z.of_nat j * bs) by lia.
  done.
Qed.

Lemma overflows_here bs lo mx :
  lo ≤ mx → ¬ (int64 lo ∧ int64 (lo + bs - 1)) → overflows bs lo mx.
Proof.
  intros Hle Hov. exists 0%nat.
  replace (lo + Z.of_nat 0 * bs) with lo by lia. done.
Qed.

(** ** The batch loop *)

Section Loop.

Context (oracle : nat → bool).
Context (d0 : db) (T : table) (new_table table_name : string).
Context (info : list info_row) (auto : bool) (cols : list string) (idxs : list nat).
Context (c : string) (i : nat) (batch_size total_rows mx : Z).

Hypothesis Htable : d0 !! table_name = Some T.
Hypothesis Hnew : new_table ≠ table_name.
Hypothesis Hidxs : mapM (column_index T) cols = Some idxs.
Hypothesis Hi : column_index T c = Some i.
Hypothesis Hlen : length cols = length info.

Let shadow (rows : list (list value)) : db :=
  <[new_table := {| t_info := info; t_rows := rows; t_autoincrement := auto |}]> d0.

Lemma shadow_lookup_table rows : shadow rows !! table_name = Some T.
Proof. unfold shadow. by rewrite lookup_insert_ne. Qed.

Lemma shadow_lookup_new rows :
  shadow rows !! new_table
  = Some {| t_info := info; t_rows := rows; t_autoincrement := auto |}.
Proof. unfold shadow. by rewrite lookup_insert_eq. Qed.

Lemma shadow_insert rows rows' :
  <[new_table := {| t_info := info; t_rows := rows'; t_autoincrement := auto |}]>
    (shadow rows)
  = shadow rows'.
Proof. unfold shadow. by rewrite insert_insert_eq. Qed.

(** The invariant of the loop: between two iterations no transaction is
    open and the file holds the original tables plus the shadow table with
    the rows of the batches committed so far. *)
Lemma batch_loop_spec fuel : ∀ lo acc processed s,
  pending s = None →
  committed s = shadow acc →
  post (batch_loop oracle fuel new_table table_name c cols batch_size total_rows
          (VInt lo) (VInt mx) processed s)
    (λ p s', ∃ n,
        pending s' = None
        ∧ committed s' = shadow (acc ++ copied T idxs i batch_size n lo)
        ∧ p = processed + Z.of_nat (length (copied T idxs i batch_size n lo))
        ∧ trace s' = trace s ++ loop_stmts new_table cols table_name c batch_size n lo
        ∧ mx < lo + Z.of_nat n * batch_size
        ∧ (∀ k, (k < n)%nat → lo + Z.of_nat k * batch_size ≤ mx))
    (λ e s', ∃ n,
        committed s' = shadow (acc ++ copied T idxs i batch_size n lo)
        ∧ (∀ k, (k < n)%nat → lo + Z.of_nat k * batch_size ≤ mx)
        ∧ ((∃ k, oracle k = true) ∨ overflows batch_size lo mx))
    (lo + Z.of_nat fuel * batch_size ≤ mx).
Proof.
  induction fuel as [|fuel IH]; intros lo acc processed [cm pd tr out]; simpl;
    intros -> ->.
  - destruct (Z.leb_spec lo mx) as [Hle|Hgt]; simpl.
    + lia.
    + exists 0%nat. rewrite copied_0, app_nil_r. simpl.
      split_and!; try done; try lia. by rewrite app_nil_r.
  - destruct (Z.leb_spec lo mx) as [Hle|Hgt]; simpl.
    2:{ exists 0%nat. rewrite copied_0, app_nil_r. simpl.
        split_and!; try done; try lia. by rewrite app_nil_r. }
    unfold bind at 1. unfold begin_transaction, bind, engine_call. simpl.
    destruct (oracle (length tr)) eqn:Ho1; simpl.
    { exists 0%nat. rewrite copied_0, app_nil_r. split_and!; eauto. lia. }
    unfold insert_select.
    destruct (int64 lo && int64 (lo + batch_size - 1)) eqn:Hov; simpl.
    2:{ exists 0%nat. rewrite copied_0, app_nil_r. split_and!; [done|lia|].
        right. apply overflows_here; [done|].
        rewrite <- andb_True, Hov. simpl. tauto. }
    unfold bind, engine_call, get_db, visible. simpl.
    rewrite length_app. simpl.
    destruct (oracle (length tr + 1)) eqn:Ho2; simpl.
    { exists 0%nat. rewrite copied_0, app_nil_r. split_and!; eauto. lia. }
    rewrite shadow_lookup_table, shadow_lookup_new.
    rewrite (select_range_batch_select _ _ _ idxs i) by done. simpl.
    rewrite bool_decide_true by done. unfold put_db_dml, ret. simpl.
    rewrite shadow_insert.
    unfold commit, bind, engine_call. simpl. rewrite !length_app. simpl.
    destruct (oracle (length tr + 1 + 1)) eqn:Ho3; simpl.
    { exists 0%nat. rewrite copied_0, app_nil_r. split_and!; eauto. lia. }
    unfold print. simpl.
    set (rows := batch_select T idxs i lo (lo + batch_size - 1)).
    replace (if 0 <=? Z.of_nat (length rows) then Z.of_nat (length rows) else 0)
      with (Z.of_nat (length rows)) by (destruct (Z.leb_spec 0 (Z.of_nat (length rows))); lia).
    replace (lo + batch_size - 1 + 1) with (lo + batch_size) by lia.
    unfold visible. simpl.
    assert (Hk : ∀ n k, (k < S n)%nat →
              (∀ k', (k' < n)%nat → lo + batch_size + Z.of_nat k' * batch_size ≤ mx) →
              lo + Z.of_nat k * batch_size ≤ mx).
    { intros n [|k] Hlt Hall; [lia|].
      specialize (Hall k ltac:(lia)). lia. }
    eapply post_mono; [apply (IH (lo + batch_size) (acc ++ rows)); done|..]; simpl.
    + intros p s' (n & Hp & Hc & -> & Htr & Hmx & Hall). exists (S n).
      rewrite copied_S, loop_stmts_S. fold rows.
      rewrite Hc, Htr, !length_app, <- !(assoc_L (++)). simpl.
      split_and!; try done; try lia. eauto.
    + intros e s' (n & Hc & Hall & Hcause). exists (S n).
      rewrite copied_S. fold rows. rewrite Hc, <- !(assoc_L (++)).
      split_and!; [done|eauto|].
      destruct Hcause as [?|?]; [by left|right]. by apply overflows_next.
    + lia.
Qed.

End Loop.

(** With a REAL in [max_id] the loop runs as with the last integer that is
    not above it. *)
Lemma Qle_bool_floor (lo : Z) (q : real) :
  QArith_base.Qle_bool (QArith_base.inject_Z lo) q = (lo <=? Qround.Qfloor q).
Proof.
  apply eq_true_iff_eq. rewrite QArith_base.Qle_bool_iff, Z.leb_le. split.
  - intros H%Qround.Qfloor_resp_le. by rewrite Qround.Qfloor_Z in H.
  - intros H. eapply QArith_base.Qle_trans; [|apply Qround.Qfloor_le].
    by rewrite <- QArith_base.Zle_Qle.
Qed.

Lemma batch_loop_real_max oracle fuel new_table table_name c cols batch_size total_rows q :
  ∀ lo processed s,
    batch_loop oracle fuel new_table table_name c cols batch_size total_rows
      (VInt lo) (VReal q) processed s
    = batch_loop oracle fuel new_table table_name c cols batch_size total_rows
        (VInt lo) (VInt (Qround.Qfloor q)) processed s.
Proof.
  induction fuel as [|fuel IH]; intros lo processed s; simpl;
    rewrite Qle_bool_floor; [done|].
  destruct (lo <=? Qround.Qfloor q); [|done].
  unfold bind.
  destruct (begin_transaction oracle s) as [[[]|e| |] s1]; try done.
  destruct (insert_select _ _ _ _ _ _ _ s1) as [[rowcount|e| |] s2]; try done.
  destruct (commit oracle s2) as [[[]|e| |] s3]; try done.
  simpl. apply IH.
Qed.

(** ** The shadow table's catalog *)

Lemma table_info_dict_snoc rows r :
  table_info_dict (rows ++ [r]) = <[col_name r := r]> (table_info_dict rows).
Proof. unfold table_info_dict. by rewrite foldl_app. Qed.

Lemma table_info_dict_lookup rows c r :
  table_info_dict rows !! c = Some r → col_name r = c.
Proof.
  revert r. induction rows as [|x rows IH] using rev_ind; intros r.
  - unfold table_info_dict. simpl. by rewrite lookup_empty.
  - rewrite table_info_dict_snoc. destruct (decide (col_name x = c)) as [<-|Hne].
    + rewrite lookup_insert_eq. by intros [= ->].
    + rewrite lookup_insert_ne by done. apply IH.
Qed.

Lemma table_info_dict_is_Some rows c :
  c ∈ col_name <$> rows → is_Some (table_info_dict rows !! c).
Proof.
  induction rows as [|x rows IH] using rev_ind.
  - simpl. by intros ?%elem_of_nil.
  - rewrite fmap_app, elem_of_app, table_info_dict_snoc. simpl.
    destruct (decide (col_name x = c)) as [<-|Hne].
    + rewrite lookup_insert_eq. eauto.
    + rewrite lookup_insert_ne by done. rewrite list_elem_of_singleton.
      intros [?|?]; [auto|congruence].
Qed.

Lemma column_defs_names rows valid :
  (∀ c, c ∈ valid → c ∈ col_name <$> rows) →
  cd_col_name <$> column_defs (table_info_dict rows) valid = valid.
Proof.
  induction valid as [|c valid IH]; intros Hsub; [done|].
  unfold column_defs. simpl.
  destruct (table_info_dict_is_Some rows c) as [r Hr].
  { apply Hsub, list_elem_of_here. }
  rewrite Hr. simpl. apply table_info_dict_lookup in Hr as ->.
  f_equal. apply IH. intros c' Hc'. apply Hsub. by apply list_elem_of_further.
Qed.

Lemma shadow_defs_names T keep :
  cd_col_name <$> shadow_defs T keep = valid_columns keep (column_names T).
Proof.
  apply column_defs_names. intros c Hc.
  by apply elem_of_valid_columns in Hc as [Hc _].
Qed.

Lemma catalog_names defs : col_name <$> catalog defs = cd_col_name <$> defs.
Proof.
  unfold catalog. rewrite fmap_imap.
  induction defs as [|d defs IH] using rev_ind; [done|].
  rewrite imap_app, fmap_app, IH. done.
Qed.

Lemma length_catalog defs : length (catalog defs) = length defs.
Proof. apply length_imap. Qed.

Lemma column_index_is_Some T c :
  c ∈ column_names T → is_Some (column_index T c).
Proof.
  unfold column_names, column_index. intros (r & -> & Hr)%list_elem_of_fmap.
  destruct (list_find_elem_of (λ r', col_name r' = col_name r) (t_info T) r)
    as [[j r'] Hfind]; [done..|].
  rewrite Hfind. eauto.
Qed.

Lemma column_indexes_valid T keep :
  is_Some (mapM (column_index T) (valid_columns keep (column_names T))).
Proof.
  apply mapM_is_Some, Forall_forall. intros c Hc. simpl.
  apply column_index_is_Some. by apply elem_of_valid_columns in Hc as [Hc _].
Qed.

Lemma batch_column_elem_of pk valid c :
  batch_column pk valid = Ret c → c ∈ valid.
Proof.
  assert (Hidx : index0 valid = Ret c → c ∈ valid).
  { destruct valid; simpl; [done|]. intros [= ->]. apply list_elem_of_here. }
  destruct pk as [|p pk]; simpl; [done|].
  case_bool_decide; [|done]. by intros [= <-].
Qed.

Lemma batch_column_is_Ret pk valid :
  valid ≠ [] → ∃ c, batch_column pk valid = Ret c.
Proof.
  intros Hv. destruct valid as [|v valid]; [done|].
  destruct pk as [|p pk]; simpl; [eauto|]. case_bool_decide; eauto.
Qed.

Lemma new_table_name_ne t : new_table_name t ≠ t.
Proof.
  unfold new_table_name. induction t as [|a t IH]; simpl; [done|].
  intros [= H]. by apply IH.
Qed.

(** ** The tables SQLite keeps itself *)

Lemma lookup_forget auto name (d : db) k :
  forget auto name d !! k = forget_in auto name k <$> d !! k.
Proof. unfold forget. rewrite map_lookup_imap. by destruct (d !! k). Qed.

Lemma lookup_renamed old_name new_name (d : db) k :
  renamed old_name new_name d !! k = rename_in old_name new_name k <$> d !! k.
Proof. unfold renamed. rewrite map_lookup_imap. by destruct (d !! k). Qed.

Lemma forget_in_plain auto name k S : plain k → forget_in auto name k S = S.
Proof.
  intros [H1 H2]. unfold forget_in.
  by rewrite bool_decide_false, bool_decide_false.
Qed.

Lemma rename_in_plain old_name new_name k S :
  k ≠ "sqlite_sequence" → rename_in old_name new_name k S = S.
Proof. intros H. unfold rename_in. by rewrite bool_decide_false. Qed.

Ltac peel t H :=
  repeat (destruct t as [|? t]; [discriminate H|]; injection H as _ H);
  by destruct t.

(** No name of the engine ends in [_new]. *)
Lemma new_table_name_plain t : plain (new_table_name t).
Proof.
  unfold plain, new_table_name, stat_tables. split.
  - intros H. peel t H.
  - rewrite !elem_of_cons, elem_of_nil.
    intros [H|[H|[H|[H|[]]]]]; peel t H.
Qed.

(** ** MIN and MAX *)

Lemma Qle_bool_total (p q : real) :
  QArith_base.Qle_bool p q = true ∨ QArith_base.Qle_bool q p = true.
Proof.
  unfold QArith_base.Qle_bool.
  destruct (Z.leb_spec (QArith_base.Qnum p * Z.pos (QArith_base.Qden q))
                       (QArith_base.Qnum q * Z.pos (QArith_base.Qden p))); [by left|].
  right. apply Z.leb_le. lia.
Qed.

Lemma sql_leb_total a b : sql_leb a b = true ∨ sql_leb b a = true.
Proof.
  destruct a as [|x|p|x], b as [|y|q|y]; simpl; auto using Qle_bool_total.
  - destruct (Z.leb_spec x y), (Z.leb_spec y x); auto; lia.
  - apply String.leb_total.
Qed.

Lemma sql_min_cons v vs : sql_min (v :: vs) = min_step v (sql_min vs).
Proof. done. Qed.

Lemma sql_max_cons v vs : sql_max (v :: vs) = max_step v (sql_max vs).
Proof. done. Qed.

Lemma sql_min_null vs v : sql_min vs = VNull → v ∈ vs → v = VNull.
Proof.
  induction vs as [|w vs IH]; [by intros _ ?%elem_of_nil|].
  rewrite sql_min_cons, elem_of_cons. unfold min_step. intros Hm [->|Hv].
  - by repeat case_match.
  - apply IH; [|done]. by repeat case_match.
Qed.

Lemma sql_max_null vs v : sql_max vs = VNull → v ∈ vs → v = VNull.
Proof.
  induction vs as [|w vs IH]; [by intros _ ?%elem_of_nil|].
  rewrite sql_max_cons, elem_of_cons. unfold max_step. intros Hm [->|Hv].
  - by repeat case_match.
  - apply IH; [|done]. by repeat case_match.
Qed.

Lemma sql_min_elem_of vs : sql_min vs = VNull ∨ sql_min vs ∈ vs.
Proof.
  induction vs as [|w vs IH]; [by left|].
  rewrite sql_min_cons. unfold min_step.
  destruct IH as [->|IH].
  - destruct w; [by left|right; apply list_elem_of_here..].
  - right. repeat case_match;
      first [apply list_elem_of_here | by apply list_elem_of_further].
Qed.

Lemma sql_max_elem_of vs : sql_max vs = VNull ∨ sql_max vs ∈ vs.
Proof.
  induction vs as [|w vs IH]; [by left|].
  rewrite sql_max_cons. unfold max_step.
  destruct IH as [->|IH].
  - destruct w; [by left|right; apply list_elem_of_here..].
  - right. repeat case_match;
      first [apply list_elem_of_here | by apply list_elem_of_further].
Qed.

Lemma sql_leb_refl a : sql_leb a a = true.
Proof. by destruct (sql_leb_total a a). Qed.

Lemma sql_min_max_null vs : sql_min vs = VNull ↔ sql_max vs = VNull.
Proof.
  split; intros H.
  - destruct (sql_max_elem_of vs) as [?|Hin]; [done|].
    by apply (sql_min_null _ _ H).
  - destruct (sql_min_elem_of vs) as [?|Hin]; [done|].
    by apply (sql_max_null _ _ H).
Qed.

(** MIN is never above MAX. *)
Lemma sql_min_le_max vs : sql_leb (sql_min vs) (sql_max vs) = true.
Proof.
  induction vs as [|w vs IH]; [done|].
  rewrite sql_min_cons, sql_max_cons.
  destruct (decide (w = VNull)) as [->|Hw]; [done|].
  destruct (decide (sql_min vs = VNull)) as [Hm|Hm].
  { pose proof Hm as HM%sql_min_max_null. rewrite Hm, HM.
    destruct w; [done|apply sql_leb_refl..]. }
  assert (sql_max vs ≠ VNull) as HM by (by rewrite <- sql_min_max_null).
  set (m := sql_min vs) in *. set (M := sql_max vs) in *.
  assert (Hmin : min_step w m = if sql_leb w m then w else m)
    by (by destruct w, m).
  assert (Hmax : max_step w M = if sql_leb M w then w else M)
    by (by destruct w, M).
  rewrite Hmin, Hmax.
  destruct (sql_leb w m) eqn:E1, (sql_leb M w) eqn:E2.
  - apply sql_leb_refl.
  - destruct (sql_leb_total M w); congruence.
  - destruct (sql_leb_total w m); congruence.
  - done.
Qed.

Lemma sql_min_max_text vs a b :
  sql_min vs = VText a → sql_max vs = VText b → String.leb a b = true.
Proof. intros Hm HM. pose proof (sql_min_le_max vs) as H. by rewrite Hm, HM in H. Qed.




(** ** Engine calls *)

Section Engine.

Context (oracle : nat → bool).

Lemma create_table_spec new_table defs s :
  pending s = None →
  post (create_table oracle new_table defs s)
    (λ _ s',
        committed s !! new_table = None
        ∧ defs ≠ []
        ∧ NoDup (cd_col_name <$> defs)
        ∧ pending s' = None
        ∧ committed s' = <[new_table := {| t_info := catalog defs; t_rows := [];
                                           t_autoincrement := false |}]> (committed s))
    (λ e s',
        committed s' = committed s
        ∧ ((∃ k, oracle k = true)
           ∨ is_Some (committed s !! new_table)
           ∨ defs = []
           ∨ ¬ NoDup (cd_col_name <$> defs)))
    False.
Proof.
  destruct s as [cm pd tr out]. simpl. intros ->.
  unfold create_table, bind, engine_call, get_db, visible. simpl.
  destruct (oracle (length tr)) eqn:Ho; simpl; [eauto|].
  case_bool_decide as Hfree; simpl; [eauto|].
  apply eq_None_not_Some in Hfree.
  case_bool_decide as Hdefs; simpl; [eauto 6|].
  case_bool_decide as Hdup; simpl; [done|]. eauto 8.
Qed.

Lemma select_min_max_spec c table_name T i s :
  visible s !! table_name = Some T →
  column_index T c = Some i →
  post (select_min_max oracle c table_name s)
    (λ r s',
        r = (sql_min (cell i <$> t_rows T), sql_max (cell i <$> t_rows T))
        ∧ pending s' = pending s
        ∧ committed s' = committed s)
    (λ e s', committed s' = committed s ∧ ∃ k, oracle k = true)
    False.
Proof.
  destruct s as [cm pd tr out]. intros Ht Hi.
  unfold select_min_max, bind, engine_call, get_db. simpl.
  destruct (oracle (length tr)) eqn:Ho; simpl; [eauto|].
  unfold visible in *. simpl in *. rewrite Ht, Hi. done.
Qed.

Lemma pragma_foreign_keys_spec on s :
  post (pragma_foreign_keys oracle on s)
    (λ _ s', pending s' = pending s ∧ committed s' = committed s ∧ stdout s' = stdout s)
    (λ e s', pending s' = pending s ∧ committed s' = committed s ∧ stdout s' = stdout s
             ∧ ∃ k, oracle k = true)
    False.
Proof.
  unfold pragma_foreign_keys, engine_call.
  destruct (oracle (length (trace s))) eqn:Ho; simpl; eauto.
Qed.

Lemma table_exists_spec table_name s :
  post (table_exists oracle table_name s)
    (λ b s', b = bool_decide (is_Some (visible s !! table_name))
             ∧ pending s' = pending s ∧ committed s' = committed s)
    (λ e s', pending s' = pending s ∧ committed s' = committed s ∧ ∃ k, oracle k = true)
    False.
Proof.
  unfold table_exists, bind, engine_call, get_db.
  destruct (oracle (length (trace s))) eqn:Ho; simpl; eauto.
Qed.

Lemma pragma_table_info_spec table_name T s :
  visible s !! table_name = Some T →
  post (pragma_table_info oracle table_name s)
    (λ rows s', rows = t_info T ∧ pending s' = pending s ∧ committed s' = committed s)
    (λ e s', pending s' = pending s ∧ committed s' = committed s ∧ ∃ k, oracle k = true)
    False.
Proof.
  intros Ht. unfold pragma_table_info, bind, engine_call, get_db.
  destruct (oracle (length (trace s))) eqn:Ho; simpl; [eauto|].
  unfold visible in *. simpl. by rewrite Ht.
Qed.

Lemma get_current_columns_spec table_name T s :
  visible s !! table_name = Some T →
  post (get_current_columns oracle table_name s)
    (λ cols s', cols = column_names T ∧ pending s' = pending s ∧ committed s' = committed s)
    (λ e s', pending s' = pending s ∧ committed s' = committed s ∧ ∃ k, oracle k = true)
    False.
Proof.
  intros Ht. unfold get_current_columns. apply post_bind.
  eapply post_mono; [by apply pragma_table_info_spec|..]; simpl; [|done..].
  by intros rows s' (-> & ? & ?).
Qed.

Lemma count_rows_spec table_name T s :
  visible s !! table_name = Some T →
  post (count_rows oracle table_name s)
    (λ n s', n = Z.of_nat (length (t_rows T))
             ∧ pending s' = pending s ∧ committed s' = committed s)
    (λ e s', pending s' = pending s ∧ committed s' = committed s ∧ ∃ k, oracle k = true)
    False.
Proof.
  intros Ht. unfold count_rows, bind, engine_call, get_db.
  destruct (oracle (length (trace s))) eqn:Ho; simpl; [eauto|].
  unfold visible in *. simpl. by rewrite Ht.
Qed.

End Engine.

(** ** The body of the [try] *)

Section Migrate.

Context (oracle : nat → bool) (total_time : real).
Context (d0 : db) (T : table) (table_name : string) (keep : list string).
Context (batch_size total_rows : Z) (dropped : nat) (fuel : nat).

Hypothesis Htable : d0 !! table_name = Some T.

Let valid := valid_columns keep (column_names T).
Let defs := shadow_defs T keep.
Let pk := primary_key_cols (t_info T).
Let new_table := new_table_name table_name.

(** Lines 177-191: the final transaction. *)
Lemma swap_spec rows (processed : Z) s :
  pending s = None →
  d0 !! new_table = None →
  committed s = <[new_table := {| t_info := catalog defs; t_rows := rows;
                                  t_autoincrement := false |}]> d0 →
  post (bind (begin_transaction oracle) (λ _,
        bind (drop_table oracle table_name) (λ _,
        bind (rename_table oracle new_table table_name) (λ _,
        bind (commit oracle) (λ _,
        ret processed)))) s)
    (λ p s',
        p = processed
        ∧ pending s' = None
        ∧ committed s' = after_swap d0 table_name {| t_info := catalog defs; t_rows := rows;
                                                     t_autoincrement := false |}
        ∧ stdout s' = stdout s)
    (λ e s',
        committed s' = <[new_table := {| t_info := catalog defs; t_rows := rows;
                                         t_autoincrement := false |}]> d0
        ∧ ∃ k, oracle k = true)
    False.
Proof using Htable.
  destruct s as [cm pd tr out]. simpl. intros -> Hfree ->.
  pose proof (new_table_name_ne table_name) as Hne. fold new_table in Hne.
  pose proof (new_table_name_plain table_name) as Hplain. fold new_table in Hplain.
  unfold bind, begin_transaction, drop_table, rename_table, commit, bind,
    engine_call, get_db, put_db, visible, ret. simpl.
  destruct (oracle (length tr)) eqn:Ho1; simpl; [eauto|].
  rewrite !length_app. simpl.
  destruct (oracle (length tr + 1)) eqn:Ho2; simpl; [eauto|].
  rewrite lookup_insert_ne by done. rewrite Htable. simpl.
  rewrite !length_app. simpl.
  destruct (oracle (length tr + 1 + 1)) eqn:Ho3; simpl; [eauto|].
  rewrite !lookup_forget, lookup_delete_ne, lookup_insert_eq, lookup_delete_eq by done.
  simpl. rewrite forget_in_plain by done.
  rewrite !length_app. simpl.
  destruct (oracle (length tr + 1 + 1 + 1)) eqn:Ho4; simpl; [eauto|].
  split_and!; [done..| |done].
  unfold after_swap. fold new_table. rewrite Htable.
  apply map_eq. intros k.
  destruct (decide (k = table_name)) as [->|Hk1].
  { by rewrite !lookup_insert_eq. }
  rewrite !(lookup_insert_ne _ table_name) by done.
  destruct (decide (k = new_table)) as [->|Hk2].
  { rewrite lookup_delete_eq, lookup_renamed, lookup_forget, lookup_delete_ne, Hfree by done.
    done. }
  rewrite lookup_delete_ne, !lookup_renamed, !lookup_forget by done.
  by rewrite !lookup_delete_ne, lookup_insert_ne.
Qed.

(** Lines 137-173: MIN and MAX, then the loop when there is a value. *)
Lemma copy_spec c i idxs (bounds : value * value) s :
  column_index T c = Some i →
  mapM (column_index T) valid = Some idxs →
  bounds = (sql_min (cell i <$> t_rows T), sql_max (cell i <$> t_rows T)) →
  pending s = None →
  committed s = <[new_table := {| t_info := catalog defs; t_rows := [];
                                  t_autoincrement := false |}]> d0 →
  post (match bounds with
        | (VNull, _) | (_, VNull) => ret 0
        | (min_id, max_id) =>
            batch_loop oracle fuel new_table table_name c valid batch_size total_rows
              min_id max_id 0
        end s)
    (λ p s', ∃ rows,
        pending s' = None
        ∧ committed s' = <[new_table := {| t_info := catalog defs; t_rows := rows;
                                           t_autoincrement := false |}]> d0
        ∧ copy_result T idxs i batch_size rows
        ∧ p = Z.of_nat (length rows))
    (λ e s', ∃ rows,
        committed s' = <[new_table := {| t_info := catalog defs; t_rows := rows;
                                         t_autoincrement := false |}]> d0
        ∧ copy_prefix T idxs i batch_size rows
        ∧ ((∃ k, oracle k = true)
           ∨ (∃ x, sql_max (cell i <$> t_rows T) = VText x)
           ∨ ∃ mn mx, sql_min (cell i <$> t_rows T) = VInt mn
               ∧ upper_bound (sql_max (cell i <$> t_rows T)) = Some mx
               ∧ overflows batch_size mn mx))
    ((∃ q, sql_min (cell i <$> t_rows T) = VReal q)
     ∨ ∃ mn mx,
         sql_min (cell i <$> t_rows T) = VInt mn
         ∧ upper_bound (sql_max (cell i <$> t_rows T)) = Some mx
         ∧ mn + Z.of_nat fuel * batch_size ≤ mx).
Proof using Htable.
  intros Hi Hidxs -> Hp Hc.
  pose proof (new_table_name_ne table_name) as Hne. fold new_table in Hne.
  assert (Hlen : length valid = length (catalog defs)).
  { unfold defs, valid.
    by rewrite length_catalog, <- (shadow_defs_names T keep), length_fmap. }
  pose proof (sql_min_le_max (cell i <$> t_rows T)) as Hle.
  pose proof (sql_min_max_null (cell i <$> t_rows T)) as Hnull.
  assert (Hloop : ∀ mn mx,
            sql_min (cell i <$> t_rows T) = VInt mn →
            upper_bound (sql_max (cell i <$> t_rows T)) = Some mx →
            post (batch_loop oracle fuel new_table table_name c valid batch_size
                    total_rows (VInt mn) (VInt mx) 0 s)
              (λ p s', ∃ rows,
                  pending s' = None
                  ∧ committed s'
                    = <[new_table := {| t_info := catalog defs; t_rows := rows;
                                        t_autoincrement := false |}]> d0
                  ∧ copy_result T idxs i batch_size rows
                  ∧ p = Z.of_nat (length rows))
              (λ e s', ∃ rows,
                  committed s'
                  = <[new_table := {| t_info := catalog defs; t_rows := rows;
                                      t_autoincrement := false |}]> d0
                  ∧ copy_prefix T idxs i batch_size rows
                  ∧ ((∃ k, oracle k = true)
                     ∨ (∃ x, sql_max (cell i <$> t_rows T) = VText x)
                     ∨ ∃ mn mx, sql_min (cell i <$> t_rows T) = VInt mn
                         ∧ upper_bound (sql_max (cell i <$> t_rows T)) = Some mx
                         ∧ overflows batch_size mn mx))
              ((∃ q, sql_min (cell i <$> t_rows T) = VReal q)
               ∨ ∃ mn mx, sql_min (cell i <$> t_rows T) = VInt mn
                   ∧ upper_bound (sql_max (cell i <$> t_rows T)) = Some mx
                   ∧ mn + Z.of_nat fuel * batch_size ≤ mx)).
  { intros mn mx Emin Emax.
    eapply post_mono;
      [apply (batch_loop_spec oracle d0 T new_table table_name (catalog defs) false valid idxs
                c i batch_size total_rows mx Htable Hne Hidxs Hi Hlen fuel mn [] 0 s Hp Hc)|..];
      simpl.
    - intros p s' (n & Hp' & Hc' & -> & _ & Hmx & Hall).
      eexists. split_and!; [done..| |lia]. right. eauto 10.
    - intros e s' (n & Hc' & Hall & Hcause).
      eexists. split_and!; [done| |].
      + right. eauto 10.
      + destruct Hcause as [?|?]; [by left|]. right. right. eauto.
    - right. eauto. }
  destruct (sql_min (cell i <$> t_rows T)) as [|mn|p|a] eqn:Emin,
           (sql_max (cell i <$> t_rows T)) as [|mx|q|b] eqn:Emax;
    try (by destruct Hnull as [H1 H2]; first [specialize (H1 eq_refl)|specialize (H2 eq_refl)]);
    try done.
  - exists []. split_and!; [done..| |done]. by left.
  - by apply Hloop.
  - rewrite batch_loop_real_max. by apply Hloop.
  - destruct fuel; simpl; (exists []; split_and!; [done|by left|]; right; left; eauto).
  - simpl in Hle. destruct fuel; simpl; rewrite Hle; simpl; left; eauto.
  - simpl in Hle. destruct fuel; simpl; rewrite Hle; simpl; left; eauto.
  - destruct fuel; simpl; (exists []; split_and!; [done|by left|]; right; left; eauto).
  - simpl in Hle.
    destruct fuel; simpl; rewrite Hle; simpl;
      (exists []; split_and!; [done|by left|]; right; left; eauto).
Qed.


Lemma rebuild_spec s :
  pending s = None →
  committed s = d0 →
  post (rebuild oracle fuel table_name valid defs pk batch_size total_rows s)
    (λ p s', ∃ rows,
        swapped d0 T table_name keep batch_size rows s'
        ∧ p = Z.of_nat (length rows))
    (λ e s',
        contained d0 T table_name keep batch_size (committed s')
        ∧ migrate_fault oracle d0 T table_name valid pk batch_size)
    (beyond_model T keep batch_size fuel).
Proof using Htable.
  clear dropped total_time.
  intros Hp Hc.
  assert (Hnames : cd_col_name <$> defs = valid) by apply shadow_defs_names.
  destruct (column_indexes_valid T keep) as [idxs Hidxs]. fold valid in Hidxs.
  pose proof (new_table_name_ne table_name) as Hne. fold new_table in Hne.
  unfold rebuild, swapped, contained, beyond_model.
  fold new_table valid defs pk.
  apply post_bind.
  eapply post_mono; [by apply create_table_spec|..]; simpl; [| |done].
  2:{ intros e s' (-> & Hcause). rewrite Hc, Hnames in *. split; [by left|].
      unfold migrate_fault. fold new_table.
      destruct Hcause as [?|[?|[Hd|?]]]; [tauto|tauto| |tauto].
      right. right. left. by rewrite <- Hnames, Hd. }
  intros _ s1 (Hfree & Hdefs & Hdup & Hp1 & Hc1). rewrite Hc, Hnames in *.
  assert (valid ≠ []) as Hvalid by (by rewrite <- Hnames; destruct defs).
  destruct (batch_column_is_Ret pk valid Hvalid) as [c Hbc].
  pose proof (batch_column_elem_of _ _ _ Hbc) as Hcin.
  destruct (column_index_is_Some T c) as [i Hi].
  { by apply elem_of_valid_columns in Hcin as [? _]. }
  apply post_bind. unfold lift at 1. rewrite Hbc. simpl.
  apply post_bind.
  eapply post_mono; [apply (select_min_max_spec oracle c table_name T i)|..]; simpl;
    [by unfold visible; rewrite Hp1, Hc1; simpl; rewrite lookup_insert_ne|done| |
     | done].
  2:{ intros e s' (-> & Hcause). split.
      - right. exists c, i, idxs, []. split_and!; [done..|by left].
      - by left. }
  intros bounds s2 (Hb & Hp2 & Hc2). rewrite Hp1 in Hp2. rewrite Hc1 in Hc2.
  apply post_bind.
  eapply post_mono; [by apply (copy_spec c i idxs)|..]; simpl.
  - intros p s3 (rows & Hp3 & Hc3 & Hres & ->).
    eapply post_mono; [by apply (swap_spec rows)|..]; simpl.
    + intros p s4 (-> & Hp4 & Hc4 & Hout). exists rows. split; [|done].
      exists c, i, idxs. done.
    + intros e s4 (Hc4 & Hcause). split; [|by left].
      right. exists c, i, idxs, rows. split_and!; [done..|].
      destruct Hres as [[_ ->]|(mn & mx & n & ? & ? & ? & ? & ?)]; [by left|].
      right. eauto 10.
    + done.
  - intros e s3 (rows & Hc3 & Hpre & Hcause). split.
    + right. exists c, i, idxs, rows. done.
    + destruct Hcause as [?|Hcause]; [by left|].
      do 4 right. exists c, i. done.
  - intros H. exists c, i. done.
Qed.

Lemma swapped_ext d T' t k bs rows s s' :
  swapped d T' t k bs rows s →
  pending s' = None → committed s' = committed s →
  swapped d T' t k bs rows s'.
Proof.
  intros (c & i & idxs & ? & ? & ? & ? & ? & ? & ? & ?) Hp Hc.
  exists c, i, idxs. rewrite Hc. done.
Qed.

Lemma swapped_migrated d T' t k bs n rows s :
  swapped d T' t k bs rows s →
  last (stdout s) = Some (Summary n (Z.of_nat (length rows))) →
  migrated d T' t k bs n s.
Proof.
  intros (c & i & idxs & ? & ? & ? & ? & ? & ? & ? & ?) Ho.
  exists c, i, idxs, rows. done.
Qed.

(** Lines 117-196. An exception of the body comes from the rebuild, with
    the table still in place, or from line 196, after the final commit. *)
Lemma migrate_spec s :
  pending s = None →
  committed s = d0 →
  post (migrate oracle total_time fuel table_name valid defs pk batch_size total_rows dropped s)
    (λ _ s', migrated d0 T table_name keep batch_size dropped s'
             ∧ is_zero total_time = false)
    (λ e s',
        (contained d0 T table_name keep batch_size (committed s')
         ∧ migrate_fault oracle d0 T table_name valid pk batch_size)
        ∨ (is_zero total_time = true ∧ e = ZeroDivisionError
           ∧ (∃ rows, swapped d0 T table_name keep batch_size rows s')
           ∧ last (stdout s') = Some (Dropped dropped)))
    (beyond_model T keep batch_size fuel).
Proof.
  intros Hp Hc. unfold migrate. apply post_bind.
  eapply post_mono; [by apply rebuild_spec|..]; simpl; [|by left|done].
  intros p s1 (rows & Hs & ->).
  unfold report, bind, print. simpl.
  destruct (is_zero total_time) eqn:Ez; simpl.
  - right. split_and!; [done..| |by rewrite last_snoc].
    exists rows. eapply swapped_ext; [exact Hs|..]; [|done].
    by destruct Hs as (? & ? & ? & ? & ? & ? & ? & ? & ? & ? & ?).
  - split; [|done]. eapply swapped_migrated; [|by simpl; rewrite last_snoc].
    eapply swapped_ext; [exact Hs|..]; [|done].
    by destruct Hs as (? & ? & ? & ? & ? & ? & ? & ? & ? & ? & ?).
Qed.

(** Lines 116-203: an exception in the body ends in the [except] clause,
    which rolls the open transaction back and returns [False]. *)
Lemma try_migrate_spec s :
  pending s = None →
  committed s = d0 →
  post (try_migrate oracle total_time fuel table_name valid defs pk batch_size total_rows
          dropped s)
    (λ b s',
        pending s' = None
        ∧ if b then migrated d0 T table_name keep batch_size dropped s'
                    ∧ is_zero total_time = false
          else (contained d0 T table_name keep batch_size (committed s')
                ∧ migrate_fault oracle d0 T table_name valid pk batch_size
                ∧ ∃ e, last (stdout s') = Some (ErrorOccurred e))
               ∨ (is_zero total_time = true
                  ∧ (∃ rows, swapped d0 T table_name keep batch_size rows s')
                  ∧ last (stdout s') = Some (ErrorOccurred ZeroDivisionError)))
    (λ _ _, False)
    (beyond_model T keep batch_size fuel).
Proof.
  intros Hp Hc. pose proof (migrate_spec s Hp Hc) as H.
  unfold try_migrate, try_except, bind.
  destruct (migrate _ _ _ _ _ _ _ _ _ _ s) as [[[]|e| |] s1]; simpl in *; [| |done..].
  - split; [|done]. by destruct H as [(c & i & idxs & rows & ? & ? & ? & ? & ? & ? & ?) _].
  - split; [done|]. destruct H as [[? ?]|(? & -> & [rows Hs] & ?)].
    + left. split_and!; [done..|]. exists e. by rewrite last_snoc.
    + right. split_and!; [done| |by rewrite last_snoc].
      exists rows. by eapply swapped_ext.
Qed.

End Migrate.


(** ** The whole script *)

Lemma migrated_ext d0 T t keep bs n s s' :
  migrated d0 T t keep bs n s →
  pending s' = None → committed s' = committed s → stdout s' = stdout s →
  migrated d0 T t keep bs n s'.
Proof.
  intros (c & i & idxs & rows & ? & ? & ? & ? & ? & ? & ? & ? & ?) Hp Hc Ho.
  exists c, i, idxs, rows. rewrite Hc, Ho. done.
Qed.

Section Run.

Context (oracle : nat → bool) (copy_ok : bool) (total_time : real).
Context (file : db) (T : table) (table_name : string) (keep : list string).
Context (batch_size : Z) (create_backup_file : bool) (fuel : nat).

Hypothesis Htable : file !! table_name = Some T.

Let valid := valid_columns keep (column_names T).
Let to_drop := columns_to_drop keep (column_names T).
Let pk := primary_key_cols (t_info T).

(** Every way the script can end, for every behaviour of the engine and
    of the clock. *)
Lemma run_spec :
  post (run oracle copy_ok total_time file table_name keep batch_size create_backup_file fuel)
    (λ b s',
        pending s' = None
        ∧ if b then
            (to_drop = [] ∧ committed s' = file)
            ∨ (to_drop ≠ []
               ∧ migrated file T table_name keep batch_size (length to_drop) s')
          else
            (create_backup_file = true ∧ copy_ok = false ∧ committed s' = file)
            ∨ (to_drop ≠ []
               ∧ contained file T table_name keep batch_size (committed s')
               ∧ migrate_fault oracle file T table_name valid pk batch_size
               ∧ ∃ e, last (stdout s') = Some (ErrorOccurred e))
            ∨ (to_drop ≠ []
               ∧ is_zero total_time = true
               ∧ (∃ rows, swapped file T table_name keep batch_size rows s')
               ∧ last (stdout s') = Some (ErrorOccurred ZeroDivisionError)))
    (λ e s',
        (∃ k, oracle k = true)
        ∧ (committed s' = file
           ∨ (to_drop ≠ []
              ∧ migrated file T table_name keep batch_size (length to_drop) s')))
    (beyond_model T keep batch_size fuel).
Proof.
  unfold run, drop_unused_columns.
  set (s0 := connect file).
  assert (Hp0 : pending s0 = None) by done.
  assert (Hc0 : committed s0 = file) by done.
  clearbody s0.
  apply post_bind.
  assert (Hbk : post ((if create_backup_file then create_backup copy_ok else ret true) s0)
                  (λ b s', s' = s0 ∧ (b = false → create_backup_file = true ∧ copy_ok = false))
                  (λ _ _, False) False).
  { destruct create_backup_file; simpl; [|done]. unfold create_backup, ret. simpl.
    split; [done|]. by intros ->. }
  eapply post_mono; [exact Hbk|..]; simpl; [|done..].
  intros b s' [-> Hb]. destruct b; simpl.
  2:{ destruct (Hb eq_refl) as [-> ->]. unfold bind, print, ret. simpl.
      split; [done|]. left. done. }
  clear Hb Hbk.
  apply post_bind.
  eapply post_mono; [apply pragma_foreign_keys_spec|..]; simpl; [| |done].
  2:{ intros e s' (? & ? & ? & ?). split; [done|]. left. congruence. }
  intros _ s1 (Hp1 & Hc1 & _). rewrite Hp0 in Hp1. rewrite Hc0 in Hc1.
  assert (Hv1 : visible s1 = file) by (by unfold visible; rewrite Hp1, Hc1).
  apply post_bind.
  eapply post_mono; [apply table_exists_spec|..]; simpl; [| |done].
  2:{ intros e s' (? & ? & ?). split; [done|]. left. congruence. }
  intros found s2 (-> & Hp2 & Hc2). rewrite Hp1 in Hp2. rewrite Hc1 in Hc2.
  rewrite Hv1, Htable, bool_decide_true by eauto. simpl.
  assert (Hv2 : visible s2 !! table_name = Some T)
    by (by unfold visible; rewrite Hp2, Hc2).
  apply post_bind.
  eapply post_mono; [by apply (get_current_columns_spec oracle table_name T)|..];
    simpl; [| |done].
  2:{ intros e s' (? & ? & ?). split; [done|]. left. congruence. }
  intros cols s3 (-> & Hp3 & Hc3). rewrite Hp2 in Hp3. rewrite Hc2 in Hc3.
  fold valid to_drop.
  case_bool_decide as Hdrop.
  { unfold bind, print, close, rollback, ret. simpl. split; [done|]. left. done. }
  assert (Hv3 : visible s3 !! table_name = Some T)
    by (by unfold visible; rewrite Hp3, Hc3).
  apply post_bind.
  eapply post_mono; [by apply (count_rows_spec oracle table_name T)|..];
    simpl; [| |done].
  2:{ intros e s' (? & ? & ?). split; [done|]. left. congruence. }
  intros total s4 (-> & Hp4 & Hc4). rewrite Hp3 in Hp4. rewrite Hc3 in Hc4.
  assert (Hv4 : visible s4 !! table_name = Some T)
    by (by unfold visible; rewrite Hp4, Hc4).
  apply post_bind.
  eapply post_mono; [by apply (pragma_table_info_spec oracle table_name T)|..];
    simpl; [| |done].
  2:{ intros e s' (? & ? & ?). split; [done|]. left. congruence. }
  intros rows s5 (-> & Hp5 & Hc5). rewrite Hp4 in Hp5. rewrite Hc4 in Hc5.
  assert (Hv5 : visible s5 !! table_name = Some T)
    by (by unfold visible; rewrite Hp5, Hc5).
  apply post_bind.
  eapply post_mono; [by apply (pragma_table_info_spec oracle table_name T)|..];
    simpl; [| |done].
  2:{ intros e s' (? & ? & ?). split; [done|]. left. congruence. }
  intros rows s6 (-> & Hp6 & Hc6). rewrite Hp5 in Hp6. rewrite Hc5 in Hc6.
  fold pk. change (column_defs (table_info_dict (t_info T)) valid)
    with (shadow_defs T keep).
  apply post_bind.
  eapply post_mono;
    [by apply (try_migrate_spec oracle total_time file T table_name keep batch_size
                 (Z.of_nat (length (t_rows T))) (length to_drop) fuel Htable s6)|..];
    simpl; [|done..].
  intros [] s7 (Hp7 & H7); simpl.
  2:{ unfold ret. simpl. split; [done|]. right.
      destruct H7 as [?|?]; [by left|by right]. }
  destruct H7 as [H7 _].
  apply post_bind.
  eapply post_mono; [apply pragma_foreign_keys_spec|..]; simpl; [| |done].
  - intros _ s8 (Hp8 & Hc8 & Ho8). unfold bind, close, rollback, ret. simpl.
    split; [done|]. right. split; [done|].
    eapply migrated_ext; [exact H7|simpl; congruence..].
  - intros e s8 (Hp8 & Hc8 & Ho8 & Hk). split; [done|]. right. split; [done|].
    eapply migrated_ext; [exact H7|congruence..].
Qed.

End Run.

(** ** The batches partition the integers *)

Lemma filter_ext_in {A} (P Q : A → Prop) `{∀ x, Decision (P x)} `{∀ x, Decision (Q x)}
    (l : list A) :
  (∀ x, x ∈ l → (P x ↔ Q x)) → filter P l = filter Q l.
Proof.
  induction l as [|x l IH]; intros Hl; [done|].
  assert (filter P l = filter Q l) as IH'.
  { apply IH. intros y Hy. apply Hl. by apply list_elem_of_further. }
  specialize (Hl x (list_elem_of_here _ _)).
  rewrite !filter_cons. destruct (decide (P x)), (decide (Q x)); try tauto.
  by rewrite IH'.
Qed.





Lemma int64_spec n : int64 n ↔ - 2 ^ 63 ≤ n < 2 ^ 63.
Proof.
  unfold int64. by rewrite andb_True, !Is_true_true, Z.leb_le, Z.ltb_lt.
Qed.




Lemma elem_of_cells T i v :
  v ∈ cell i <$> t_rows T ↔ ∃ row, row ∈ t_rows T ∧ cell i row = v.
Proof.
  rewrite list_elem_of_fmap. split.
  - intros (row & -> & ?). eauto.
  - intros (row & ? & <-). eauto.
Qed.

Lemma no_real_cells T i : no_real T i → ∀ q, VReal q ∉ cell i <$> t_rows T.
Proof. intros Hreal q (row & Hrow & Hcell)%elem_of_cells. by destruct (Hreal row q). Qed.

Lemma no_real_upper_bound T i mx :
  no_real T i →
  upper_bound (sql_max (cell i <$> t_rows T)) = Some mx →
  sql_max (cell i <$> t_rows T) = VInt mx.
Proof.
  intros Hreal Hmx.
  destruct (sql_max (cell i <$> t_rows T)) as [|n|q|x] eqn:E; simplify_eq/=; [done|].
  destruct (sql_max_elem_of (cell i <$> t_rows T)) as [?|Hin]; [congruence|].
  rewrite E in Hin. by destruct (no_real_cells T i Hreal q).
Qed.




(** ** Runs without a fault *)

Section FaultFree.

Context (oracle : nat → bool) (copy_ok : bool) (total_time : real).
Context (file : db) (T : table) (table_name : string) (keep : list string).
Context (batch_size : Z) (create_backup_file : bool) (fuel : nat).
Context (c : string) (i : nat).

Let valid := valid_columns keep (column_names T).
Let to_drop := columns_to_drop keep (column_names T).
Let pk := primary_key_cols (t_info T).

Hypothesis Hquiet : ∀ k, oracle k = false.
Hypothesis Hbackup : create_backup_file = true → copy_ok = true.
Hypothesis Htable : file !! table_name = Some T.
Hypothesis Hfree : file !! new_table_name table_name = None.
Hypothesis Hdrop : to_drop ≠ [].
Hypothesis Hdup : NoDup valid.
Hypothesis Hc : batch_column pk valid = Ret c.
Hypothesis Hi : column_index T c = Some i.
Hypothesis Hvalues : ∀ row, row ∈ t_rows T →
  cell i row = VNull
  ∨ ∃ n, cell i row = VInt n ∧ int64 n ∧ int64 (n + batch_size - 1).
Hypothesis Hsize : 1 ≤ batch_size.
Hypothesis Hfuel : ∀ r1 r2 n1 n2,
  r1 ∈ t_rows T → r2 ∈ t_rows T → cell i r1 = VInt n1 → cell i r2 = VInt n2 →
  n2 - n1 < Z.of_nat fuel.

Lemma fault_free_no_real : no_real T i.
Proof. intros row q Hrow Hq. destruct (Hvalues row Hrow) as [?|(n & ? & _)]; congruence. Qed.

(** MIN and MAX of the batching column are values of rows. *)
Lemma fault_free_bounds mn mx :
  sql_min (cell i <$> t_rows T) = VInt mn →
  upper_bound (sql_max (cell i <$> t_rows T)) = Some mx →
  ∃ r1 r2, r1 ∈ t_rows T ∧ r2 ∈ t_rows T
           ∧ cell i r1 = VInt mn ∧ cell i r2 = VInt mx.
Proof.
  intros Hmin Hmax. apply no_real_upper_bound in Hmax; [|apply fault_free_no_real].
  destruct (sql_min_elem_of (cell i <$> t_rows T)) as [?|Hin1]; [congruence|].
  destruct (sql_max_elem_of (cell i <$> t_rows T)) as [?|Hin2]; [congruence|].
  rewrite Hmin in Hin1. rewrite Hmax in Hin2.
  apply elem_of_cells in Hin1 as (r1 & Hr1 & Hcell1).
  apply elem_of_cells in Hin2 as (r2 & Hr2 & Hcell2).
  by exists r1, r2.
Qed.

Lemma no_migrate_fault :
  ¬ migrate_fault oracle file T table_name valid pk batch_size.
Proof.
  intros [(k & Hk)|[Hsome|[Hnil|[Hnd|(c' & i' & Hc' & Hi' & Hbad)]]]].
  - by rewrite Hquiet in Hk.
  - rewrite Hfree in Hsome. by destruct Hsome.
  - apply batch_column_elem_of in Hc. rewrite Hnil in Hc. by apply elem_of_nil in Hc.
  - done.
  - rewrite Hc in Hc'. injection Hc' as <-. rewrite Hi in Hi'. injection Hi' as <-.
    simpl in Hbad. destruct Hbad as [(x & Hx)|(mn & mx & Hmin & Hmax & j & Hj & Hov)].
    + destruct (sql_max_elem_of (cell i <$> t_rows T)) as [?|Hin]; [congruence|].
      rewrite Hx in Hin. apply elem_of_cells in Hin as (row & Hrow & Hcell).
      destruct (Hvalues row Hrow) as [?|(n & ? & _)]; congruence.
    + apply Hov.
      destruct (fault_free_bounds mn mx Hmin Hmax) as (r1 & r2 & Hr1 & Hr2 & E1 & E2).
      destruct (Hvalues r1 Hr1) as [?|(n1 & E1' & Hn1 & _)]; [congruence|].
      destruct (Hvalues r2 Hr2) as [?|(n2 & E2' & Hn2 & Hn2')]; [congruence|].
      assert (n1 = mn) as -> by congruence. assert (n2 = mx) as -> by congruence.
      rewrite !int64_spec in *. nia.
Qed.

Lemma not_beyond_model : ¬ beyond_model T keep batch_size fuel.
Proof.
  intros (c' & i' & Hc' & Hi' & Hbad). fold valid pk in Hc'.
  rewrite Hc in Hc'. injection Hc' as <-. rewrite Hi in Hi'. injection Hi' as <-.
  simpl in Hbad. destruct Hbad as [(q & Hq)|(mn & mx & Hmin & Hmax & Hle)].
  - destruct (sql_min_elem_of (cell i <$> t_rows T)) as [?|Hin]; [congruence|].
    rewrite Hq in Hin. by destruct (no_real_cells T i fault_free_no_real q).
  - destruct (fault_free_bounds mn mx Hmin Hmax) as (r1 & r2 & Hr1 & Hr2 & E1 & E2).
    pose proof (Hfuel r1 r2 mn mx Hr1 Hr2 E1 E2). nia.
Qed.

(** With an engine that rejects nothing, a free shadow name, a keep-list
    without repetition, integer or NULL batching values whose batch bounds
    fit in 64 bits, a batch size of at least 1 and enough fuel, the script
    gets through the final commit. What it returns then depends on the
    clock. *)
Lemma run_fault_free_ends :
  ∃ b s',
    run oracle copy_ok total_time file table_name keep batch_size create_backup_file fuel
    = (Ret b, s')
    ∧ if b then migrated file T table_name keep batch_size (length to_drop) s'
      else is_zero total_time = true
           ∧ (∃ rows, swapped file T table_name keep batch_size rows s')
           ∧ last (stdout s') = Some (ErrorOccurred ZeroDivisionError).
Proof.
  pose proof (run_spec oracle copy_ok total_time file T table_name keep batch_size
                create_backup_file fuel Htable) as H.
  fold valid to_drop pk in H.
  destruct (run _ _ _ _ _ _ _ _ _) as [[[]|e| |] s']; simpl in H.
  - destruct H as [_ [[? _]|[_ H]]]; [done|]. by exists true, s'.
  - destruct H as [_ [(Hb & Hk & _)|[(_ & _ & Hfault & _)|(_ & Hz & Hs & Hout)]]].
    + rewrite Hbackup in Hk; done.
    + by destruct no_migrate_fault.
    + by exists false, s'.
  - destruct H as [(k & Hk) _]. by rewrite Hquiet in Hk.
  - by destruct not_beyond_model.
  - by destruct not_beyond_model.
Qed.

End FaultFree.

(** A run that rebuilds the table and returns [True] has got past line
    196: its clock has advanced. *)
Lemma run_true_clock oracle copy_ok total_time (file : db) T table_name keep batch_size
    backup fuel s' :
  file !! table_name = Some T →
  columns_to_drop keep (column_names T) ≠ [] →
  run oracle copy_ok total_time file table_name keep batch_size backup fuel = (Ret true, s') →
  is_zero total_time = false.
Proof.
  intros Htable Hdrop. unfold run, drop_unused_columns, connect, create_backup, table_exists,
    get_current_columns, count_rows, pragma_table_info, pragma_foreign_keys, bind,
    engine_call, get_db, visible, print, close, rollback, ret.
  destruct backup, copy_ok; simpl; try done.
  all: destruct (oracle 0%nat); simpl; [done|].
  all: destruct (oracle 1%nat); simpl; [done|].
  all: rewrite Htable; simpl.
  all: destruct (oracle 2%nat); simpl; [done|].
  all: rewrite Htable; simpl.
  all: fold (column_names T).
  all: rewrite bool_decide_false by done; simpl.
  all: destruct (oracle 3%nat); simpl; [done|].
  all: rewrite Htable; simpl.
  all: destruct (oracle 4%nat); simpl; [done|].
  all: rewrite ?Htable; simpl.
  all: destruct (oracle 5%nat); simpl; [done|].
  all: rewrite ?Htable; simpl.
  all: unfold try_migrate, try_except, migrate, report, bind, on_error, bind, print, close,
         rollback, ret, raise.
  all: destruct (rebuild _ _ _ _ _ _ _ _ _) as [[p|e| |] s7]; simpl; try done.
  all: by destruct (is_zero total_time).
Qed.


(** ** Properties of a run *)

Lemma lookup_after_swap (d0 : db) t N : after_swap d0 t N !! t = Some N.
Proof. unfold after_swap. by rewrite lookup_insert_eq. Qed.

Lemma migrated_lookup d0 T t keep bs n s' :
  migrated d0 T t keep bs n s' →
  ∃ c i idxs rows,
    batch_column (primary_key_cols (t_info T)) (valid_columns keep (column_names T)) = Ret c
    ∧ column_index T c = Some i
    ∧ mapM (column_index T) (valid_columns keep (column_names T)) = Some idxs
    ∧ committed s'
      = after_swap d0 t {| t_info := catalog (shadow_defs T keep); t_rows := rows;
                           t_autoincrement := false |}
    ∧ copy_result T idxs i bs rows
    ∧ last (stdout s') = Some (Summary n (Z.of_nat (length rows))).
Proof.
  intros (c & i & idxs & rows & ? & ? & ? & ? & ? & ? & ? & Hres & ?).
  by exists c, i, idxs, rows.
Qed.

(** C1, as the code has it. After a run that returns [True] and had a column
    to drop, the table's columns are the requested keep-list filtered to the
    columns the table had, in the order of the keep-list. A run with
    nothing to drop also returns [True]; it leaves the file as it was, so the
    columns stay in the table's own order (as a set they are the keep
    set). *)
Theorem columns_after_successful_run
    oracle copy_ok total_time (file : db) T table_name keep batch_size backup fuel s' :
  file !! table_name = Some T →
  run oracle copy_ok total_time file table_name keep batch_size backup fuel = (Ret true, s') →
  let valid := valid_columns keep (column_names T) in
  let to_drop := columns_to_drop keep (column_names T) in
  (to_drop ≠ [] →
   ∃ T', committed s' !! table_name = Some T' ∧ column_names T' = valid)
  ∧ (to_drop = [] →
     committed s' = file ∧ ∀ c, c ∈ column_names T ↔ c ∈ valid).
Proof.
  intros Htable Hrun valid to_drop.
  pose proof (run_spec oracle copy_ok total_time file T table_name keep batch_size backup fuel
                Htable) as H.
  rewrite Hrun in H. simpl in H. destruct H as [_ H]. fold to_drop in H.
  split.
  - intros Hdrop. destruct H as [[? _]|[_ H]]; [done|].
    apply migrated_lookup in H as (c & i & idxs & rows & _ & _ & _ & Hc & _).
    eexists. rewrite Hc, lookup_after_swap. split; [done|].
    unfold column_names. simpl. by rewrite catalog_names, shadow_defs_names.
  - intros Hdrop. destruct H as [[_ ?]|[? _]]; [|done]. split; [done|].
    intros c. unfold valid. rewrite elem_of_valid_columns. split; [|tauto].
    intros Hc. split; [done|].
    destruct (decide (c ∈ keep)) as [|Hn]; [done|].
    assert (c ∈ to_drop) as Hin by (by apply elem_of_columns_to_drop).
    rewrite Hdrop in Hin. by apply elem_of_nil in Hin.
Qed.

Lemma columns_after_successful_run_witness :
  ∃ T', committed (run quiet true one_second registry "affiliates"
                     ["firstname"; "id"; "surname"; "email"] 3 false 10).2
          !! "affiliates" = Some T'
        ∧ column_names T' = ["firstname"; "id"; "surname"].
Proof.
  apply (columns_after_successful_run quiet true one_second registry affiliates "affiliates"
           ["firstname"; "id"; "surname"; "email"] 3 false 10).
  - reflexivity.
  - vm_compute. reflexivity.
  - vm_compute. discriminate.
Defined.

(** C1 as stated fails when every column is kept: the run succeeds without
    touching the table, and the columns stay in the table's order instead
    of the order of the keep-list. *)
Lemma keep_list_order_not_applied_without_drop :
  ∃ s' T',
    run quiet true one_second pairs "pair" ["b"; "a"] 5000 false 10 = (Ret true, s')
    ∧ committed s' !! "pair" = Some T'
    ∧ valid_columns ["b"; "a"] (column_names pair) = ["b"; "a"]
    ∧ column_names T' = ["a"; "b"]
    ∧ column_names T' ≠ valid_columns ["b"; "a"] (column_names pair).
Proof.
  eexists _, pair. split_and!.
  - vm_compute. reflexivity.
  - vm_compute. reflexivity.
  - vm_compute. reflexivity.
  - reflexivity.
  - vm_compute. discriminate.
Qed.


Lemma filter_all {A} (P : A → Prop) `{∀ x, Decision (P x)} (l : list A) :
  (∀ x, x ∈ l → P x) → filter P l = l.
Proof.
  induction l as [|x l IH]; intros Hl; [done|].
  rewrite filter_cons_True by (apply Hl, list_elem_of_here).
  f_equal. apply IH. intros y Hy. apply Hl. by apply list_elem_of_further.
Qed.



(** What the run of the witness leaves: two of the three rows. *)
Example ledger_after_run :
  t_rows <$> committed (run quiet true one_second books "ledger" ["ref"; "amount"] 2 false 10).2
               !! "ledger"
  = Some [[VInt 1; VInt 75]; [VInt 3; VInt 100]].
Proof. vm_compute. reflexivity. Qed.





(** What the run of the witness leaves in the table, in the order of
    storage. *)
Example affiliates_rows_after_run :
  t_rows <$> committed (run quiet true one_second registry "affiliates"
                          ["id"; "surname"; "firstname"] 3 false 10).2 !! "affiliates"
  = Some [[VInt 1; VText "Okoro"; VText "Ada"];
          [VInt 4; VText "Eze"; VNull];
          [VInt 5; VText "Ojo"; VText "Tola"];
          [VInt 9; VText "Bello"; VText "Musa"]].
Proof. vm_compute. reflexivity. Qed.




(** C3 fails when the batching column holds a REAL between two integers.
    In [readings] the column holds 1, 1.5 and 3, so MIN and MAX are the
    integers 1 and 3. With batch size 1 the batches select the values 1, 2
    and 3 and the row with 1.5 is never copied; with batch size 2 the
    first batch selects the values from 1 to 2 and copies it. Both runs
    return [True], and they leave different rows. *)
Theorem batch_size_changes_copied_rows :
  let r1 := run quiet true one_second station "readings" ["level"; "site"] 1 false 10 in
  let r2 := run quiet true one_second station "readings" ["level"; "site"] 2 false 10 in
  r1.1 = Ret true
  ∧ r2.1 = Ret true
  ∧ t_rows <$> committed r1.2 !! "readings"
    = Some [[VInt 1; VText "north"]; [VInt 3; VText "south"]]
  ∧ t_rows <$> committed r2.2 !! "readings"
    = Some [[VInt 1; VText "north"]; [VReal (QArith_base.Qmake 3 2); VText "east"];
            [VInt 3; VText "south"]]
  ∧ last (stdout r1.2) = Some (Summary 1 2)
  ∧ last (stdout r2.2) = Some (Summary 1 3)
  ∧ ¬ same_content (committed r1.2) (committed r2.2).
Proof.
  intros r1 r2.
  assert (H1 : t_rows <$> committed r1.2 !! "readings"
               = Some [[VInt 1; VText "north"]; [VInt 3; VText "south"]])
    by (vm_compute; reflexivity).
  assert (H2 : t_rows <$> committed r2.2 !! "readings"
               = Some [[VInt 1; VText "north"];
                       [VReal (QArith_base.Qmake 3 2); VText "east"];
                       [VInt 3; VText "south"]])
    by (vm_compute; reflexivity).
  split; [vm_compute; reflexivity|]. split; [vm_compute; reflexivity|].
  split; [exact H1|]. split; [exact H2|].
  split; [vm_compute; reflexivity|]. split; [vm_compute; reflexivity|].
  intros Hsame. specialize (Hsame "readings").
  destruct (committed r1.2 !! "readings") as [T1|]; [|done].
  destruct (committed r2.2 !! "readings") as [T2|]; [|done].
  simpl in H1, H2. destruct Hsame as [_ Hperm].
  apply Permutation_length in Hperm.
  injection H1 as H1. injection H2 as H2. rewrite H1, H2 in Hperm. done.
Qed.

(** On [ledger], whose batching column holds integers only, batch sizes 1
    and 100 store the same rows, in different orders. *)
Example ledger_rows_by_batch_size :
  t_rows <$> committed (run quiet true one_second books "ledger" ["ref"; "amount"] 1 false 10).2
               !! "ledger"
  = Some [[VInt 1; VInt 75]; [VInt 3; VInt 100]]
  ∧ t_rows <$> committed (run quiet true one_second books "ledger" ["ref"; "amount"] 100
                            false 10).2 !! "ledger"
    = Some [[VInt 3; VInt 100]; [VInt 1; VInt 75]].
Proof. split; vm_compute; reflexivity. Qed.

(** C7. When no requested column exists in the table, and the table has a
    column to drop, the run never returns [True], always ends inside the
    model, and leaves the file as it was: no table without columns is
    created. With
    an engine that rejects nothing the run returns [False] after printing
    the error. *)
Theorem empty_keep_set_fails
    oracle copy_ok total_time (file : db) T table_name keep batch_size backup fuel :
  file !! table_name = Some T →
  valid_columns keep (column_names T) = [] →
  columns_to_drop keep (column_names T) ≠ [] →
  let r := run oracle copy_ok total_time file table_name keep batch_size backup fuel in
  r.1 ≠ Ret true
  ∧ r.1 ≠ Timeout
  ∧ r.1 ≠ Unmodelled
  ∧ committed r.2 = file
  ∧ ((∀ k, oracle k = false) → (backup = true → copy_ok = true) →
     r.1 = Ret false ∧ ∃ e, last (stdout r.2) = Some (ErrorOccurred e)).
Proof.
  intros Htable Hvalid Hdrop r.
  pose proof (run_spec oracle copy_ok total_time file T table_name keep batch_size backup fuel
                Htable) as H.
  fold r in H.
  assert (Hno : ∀ c, batch_column (primary_key_cols (t_info T))
                       (valid_columns keep (column_names T)) ≠ Ret c).
  { intros c Hc%batch_column_elem_of. rewrite Hvalid in Hc. by apply elem_of_nil in Hc. }
  assert (Hcont : ∀ d', contained file T table_name keep batch_size d' → d' = file).
  { intros d' [?|(c & ? & ? & ? & Hc & _)]; [done|]. by destruct (Hno c). }
  destruct r as [[[]|e| |] s']; simpl in *.
  - destruct H as [_ [[? _]|[_ (c & ? & ? & ? & Hc & _)]]]; [done|]. by destruct (Hno c).
  - destruct H as [_ [(Hb & Hck & Hfile)|[(_ & Hc & _ & Herr)
                                         |(_ & _ & [rows (c & ? & ? & Hc & _)] & _)]]].
    + split_and!; [done..|]. intros _ Hbk. rewrite Hbk in Hck; done.
    + split_and!; [done|done|done|by apply Hcont|done].
    + by destruct (Hno c).
  - destruct H as [(k & Hk) [?|[_ (c & ? & ? & ? & Hc & _)]]]; [|by destruct (Hno c)].
    split_and!; [done..|]. intros Hq. by rewrite Hq in Hk.
  - destruct H as (c & ? & Hc & _). by destruct (Hno c).
  - destruct H as (c & ? & Hc & _). by destruct (Hno c).
Qed.

Lemma empty_keep_set_fails_witness :
  let r := run quiet true one_second registry "affiliates" ["email"; "phone"] 5000 false 10 in
  r.1 ≠ Ret true
  ∧ r.1 ≠ Timeout
  ∧ r.1 ≠ Unmodelled
  ∧ committed r.2 = registry
  ∧ ((∀ k, quiet k = false) → (false = true → true = true) →
     r.1 = Ret false ∧ ∃ e, last (stdout r.2) = Some (ErrorOccurred e)).
Proof.
  apply (empty_keep_set_fails quiet true one_second registry affiliates "affiliates"
           ["email"; "phone"] 5000 false 10).
  - reflexivity.
  - reflexivity.
  - vm_compute. discriminate.
Defined.

(** The error of the witness is the engine's rejection of a CREATE TABLE
    without columns. *)
Example empty_keep_set_error :
  let r := run quiet true one_second registry "affiliates" ["email"; "phone"] 5000 false 10 in
  r.1 = Ret false
  ∧ stdout r.2 = [ErrorOccurred DatabaseError]
  ∧ trace r.2 !! 6%nat = Some (SCreateTable "affiliates_new" [])
  ∧ length (trace r.2) = 7%nat.
Proof. vm_compute. done. Qed.

(** ** Failure containment *)

Lemma contained_lookup d0 T table_name keep batch_size d' :
  d0 !! table_name = Some T →
  contained d0 T table_name keep batch_size d' →
  d' !! table_name = Some T.
Proof.
  intros Htable [->|(c & i & idxs & rows & _ & _ & _ & _ & -> & _)]; [done|].
  rewrite lookup_insert_ne; [done|]. apply new_table_name_ne.
Qed.

(** An exception of the rebuild is an exception of the body of the [try],
    which the [except] clause turns into [False]. *)
Lemma try_migrate_rebuild_raises oracle total_time fuel t valid defs pk bs total dropped s e s1 :
  rebuild oracle fuel t valid defs pk bs total s = (Raise e, s1) →
  try_migrate oracle total_time fuel t valid defs pk bs total dropped s
  = (Ret false,
     Conn (committed s1) None (trace s1) (stdout s1 ++ [ErrorOccurred e])).
Proof.
  intros Hraise. unfold try_migrate, try_except, migrate, bind. by rewrite Hraise.
Qed.

(** C4. When the shadow-table build, the batch copy or the final swap
    raises (lines 117-191), the script returns [False] from the [except]
    clause; the clause only closes the open transaction and prints the
    error, it issues no statement. What was committed stays: the original
    table is there as it was, and the shadow table, when it was created,
    holds the rows of the batches committed before the exception. The
    same holds of the file after every run of the script that returns
    [False], but for the runs that fail after the swap: when the clock has
    not advanced, line 196 raises once the final transaction is committed,
    and the table has been replaced. *)
Theorem exception_rolls_back_open_transaction_only
    (d0 : db) T table_name keep batch_size :
  let valid := valid_columns keep (column_names T) in
  let defs := shadow_defs T keep in
  let pk := primary_key_cols (t_info T) in
  d0 !! table_name = Some T →
  (∀ oracle total_time total_rows dropped fuel s e s1,
     pending s = None →
     committed s = d0 →
     rebuild oracle fuel table_name valid defs pk batch_size total_rows s = (Raise e, s1) →
     ∃ s',
       try_migrate oracle total_time fuel table_name valid defs pk batch_size total_rows
         dropped s
       = (Ret false, s')
       ∧ pending s' = None
       ∧ committed s' = committed s1
       ∧ trace s' = trace s1
       ∧ stdout s' = stdout s1 ++ [ErrorOccurred e]
       ∧ committed s' !! table_name = Some T
       ∧ contained d0 T table_name keep batch_size (committed s'))
  ∧ (∀ oracle copy_ok total_time backup fuel s',
       run oracle copy_ok total_time d0 table_name keep batch_size backup fuel
       = (Ret false, s') →
       pending s' = None
       ∧ ((committed s' !! table_name = Some T
           ∧ contained d0 T table_name keep batch_size (committed s'))
          ∨ (is_zero total_time = true
             ∧ (∃ rows, swapped d0 T table_name keep batch_size rows s')
             ∧ last (stdout s') = Some (ErrorOccurred ZeroDivisionError)))).
Proof.
  intros valid defs pk Htable. split.
  - intros oracle total_time total_rows dropped fuel s e s1 Hp Hc Hraise.
    pose proof (rebuild_spec oracle d0 T table_name keep batch_size total_rows
                  fuel Htable s Hp Hc) as H.
    fold valid defs pk in H. rewrite Hraise in H. simpl in H. destruct H as [Hcont _].
    erewrite try_migrate_rebuild_raises by exact Hraise.
    eexists. split; [reflexivity|]. simpl. split_and!; try done.
    by eapply contained_lookup.
  - intros oracle copy_ok total_time backup fuel s' Hrun.
    pose proof (run_spec oracle copy_ok total_time d0 T table_name keep batch_size backup fuel
                  Htable) as H.
    rewrite Hrun in H. simpl in H.
    destruct H as [Hp [(_ & _ & Hc)|[(_ & Hcont & _)|(_ & Hz & Hs & Hout)]]].
    + rewrite Hc. split; [done|]. left. split; [done|]. by left.
    + split; [done|]. left. split; [|done]. by eapply contained_lookup.
    + split; [done|]. by right.
Qed.

Lemma exception_rolls_back_open_transaction_only_witness :
  let valid := valid_columns ["id"; "surname"; "firstname"] (column_names affiliates) in
  let defs := shadow_defs affiliates ["id"; "surname"; "firstname"] in
  let pk := primary_key_cols (t_info affiliates) in
  let s1 := (rebuild (failing_at 6) 10 "affiliates" valid defs pk 3 4 (connect registry)).2 in
  ∃ s',
    try_migrate (failing_at 6) one_second 10 "affiliates" valid defs pk 3 4 2
      (connect registry)
    = (Ret false, s')
    ∧ pending s' = None
    ∧ committed s' = committed s1
    ∧ trace s' = trace s1
    ∧ stdout s' = stdout s1 ++ [ErrorOccurred DatabaseError]
    ∧ committed s' !! "affiliates" = Some affiliates
    ∧ contained registry affiliates "affiliates" ["id"; "surname"; "firstname"] 3
        (committed s').
Proof.
  destruct (exception_rolls_back_open_transaction_only registry affiliates
              "affiliates" ["id"; "surname"; "firstname"] 3) as [Htry _].
  - reflexivity.
  - apply (Htry (failing_at 6) one_second 4 2%nat 10%nat (connect registry) DatabaseError).
    + reflexivity.
    + reflexivity.
    + vm_compute. reflexivity.
Defined.

(** In the run of the witness the second batch is rejected: the first
    batch stays in the shadow table and the original table is whole. *)
Example second_batch_rejected :
  let r := run (failing_at 12) true one_second registry "affiliates"
             ["id"; "surname"; "firstname"] 3 false 10 in
  r.1 = Ret false
  ∧ t_rows <$> committed r.2 !! "affiliates_new" = Some [[VInt 1; VText "Okoro"; VText "Ada"]]
  ∧ committed r.2 !! "affiliates" = Some affiliates
  ∧ pending r.2 = None
  ∧ last (trace r.2)
    = Some (SInsertSelect "affiliates_new" ["id"; "surname"; "firstname"]
              "affiliates" "id" 4 6).
Proof. vm_compute. done. Qed.

(** ** Termination of the batch loop *)

Section Termination.

Context (oracle : nat → bool).

Lemma begin_transaction_returns s :
  post (begin_transaction oracle s) (λ _ _, True) (λ _ _, True) False.
Proof.
  unfold begin_transaction, bind, engine_call.
  destruct (oracle _); simpl; [done|]. by destruct (pending s).
Qed.

Lemma commit_returns s :
  post (commit oracle s) (λ _ _, True) (λ _ _, True) False.
Proof. unfold commit, bind, engine_call. by destruct (oracle _). Qed.

Lemma insert_select_returns new_table cols table_name c lo hi s :
  post (insert_select oracle new_table cols table_name c lo hi s)
    (λ _ _, True) (λ _ _, True) False.
Proof.
  unfold insert_select, bind, engine_call, get_db, put_db_dml, ret, raise.
  destruct (negb _); simpl; [done|].
  destruct (oracle _); simpl; [done|].
  repeat case_match; done.
Qed.

(** Each iteration moves the lower bound up by the batch size, so with a
    batch size of at least 1 the fuel is never used up once it exceeds the
    distance to MAX. *)
Lemma batch_loop_no_timeout new_table table_name c cols batch_size total_rows mx fuel :
  1 ≤ batch_size →
  ∀ lo processed s,
    mx - lo < Z.of_nat fuel →
    post (batch_loop oracle fuel new_table table_name c cols batch_size total_rows
            (VInt lo) (VInt mx) processed s)
      (λ _ _, True) (λ _ _, True) False.
Proof.
  intros Hbs. induction fuel as [|fuel' IH]; intros lo processed s Hfuel; simpl.
  - destruct (Z.leb_spec lo mx); simpl; [lia|done].
  - destruct (Z.leb_spec lo mx); simpl; [|done].
    apply post_bind.
    eapply post_mono; [apply begin_transaction_returns|..]; simpl; [|done..].
    intros _ s1 _. apply post_bind.
    eapply post_mono; [apply insert_select_returns|..]; simpl; [|done..].
    intros rowcount s2 _. apply post_bind.
    eapply post_mono; [apply commit_returns|..]; simpl; [|done..].
    intros _ s3 _. apply post_bind. unfold print at 1. simpl.
    apply IH. lia.
Qed.

End Termination.

Lemma batches_lookup bs n lo k :
  (k < n)%nat →
  batches bs n lo !! k = Some (lo + Z.of_nat k * bs, lo + Z.of_nat k * bs + bs - 1).
Proof.
  revert lo k. induction n as [|n IH]; intros lo k Hk; [lia|].
  destruct k as [|k]; simpl.
  - do 2 f_equal; lia.
  - rewrite IH by lia. do 2 f_equal; lia.
Qed.

Lemma iterations_unique bs lo mx n :
  1 ≤ bs → lo ≤ mx →
  mx < lo + Z.of_nat n * bs →
  (∀ k, (k < n)%nat → lo + Z.of_nat k * bs ≤ mx) →
  n = Z.to_nat ((mx - lo) / bs + 1).
Proof.
  intros Hbs Hle Hmx Hall.
  assert (0 < n)%nat as Hn by (destruct n; lia).
  pose proof (Hall (n - 1)%nat ltac:(lia)) as Hlast.
  assert ((mx - lo) / bs = Z.of_nat n - 1) as ->; [|lia].
  symmetry. apply (Z.div_unique_pos _ _ _ (mx - lo - bs * (Z.of_nat n - 1))); nia.
Qed.

(** C5. For integers MIN <= MAX and a batch size of at least 1 the loop
    ends inside the model, in every state and whatever the engine does, as
    soon as the fuel exceeds MAX - MIN. Whenever it ends without an exception it has run
    exactly (MAX - MIN) / batch_size + 1 iterations, whatever rows the
    table holds: iteration [k] selects the values from MIN + k * batch_size
    to MIN + k * batch_size + batch_size - 1, its lower bound is at most
    MAX, and the first lower bound past MAX ends the loop. The number of
    rows a batch inserts, zero included, only adds to the count of
    processed rows. With an engine that rejects nothing and bounds inside
    64 bits the loop does end without an exception. *)
Theorem batch_loop_terminates (lo mx batch_size : Z) (fuel : nat) :
  lo ≤ mx →
  1 ≤ batch_size →
  mx - lo < Z.of_nat fuel →
  let n := Z.to_nat ((mx - lo) / batch_size + 1) in
  (∀ oracle new_table table_name c cols total_rows processed s,
     let r := batch_loop oracle fuel new_table table_name c cols batch_size total_rows
                (VInt lo) (VInt mx) processed s in
     r.1 ≠ Timeout ∧ r.1 ≠ Unmodelled)
  ∧ (∀ k, (k < n)%nat →
       batches batch_size n lo !! k
       = Some (lo + Z.of_nat k * batch_size, lo + Z.of_nat k * batch_size + batch_size - 1)
       ∧ lo + Z.of_nat k * batch_size ≤ mx)
  ∧ mx < lo + Z.of_nat n * batch_size
  ∧ (∀ oracle (d0 : db) T new_table table_name info auto cols idxs c i total_rows
       processed acc s,
       d0 !! table_name = Some T →
       new_table ≠ table_name →
       mapM (column_index T) cols = Some idxs →
       column_index T c = Some i →
       length cols = length info →
       pending s = None →
       committed s
       = <[new_table := {| t_info := info; t_rows := acc; t_autoincrement := auto |}]> d0 →
       (∀ p s',
          batch_loop oracle fuel new_table table_name c cols batch_size total_rows
            (VInt lo) (VInt mx) processed s = (Ret p, s') →
          p = processed + Z.of_nat (length (copied T idxs i batch_size n lo))
          ∧ trace s' = trace s ++ loop_stmts new_table cols table_name c batch_size n lo
          ∧ pending s' = None
          ∧ committed s'
            = <[new_table := {| t_info := info;
                                t_rows := acc ++ copied T idxs i batch_size n lo;
                                t_autoincrement := auto |}]> d0)
       ∧ ((∀ k, oracle k = false) → int64 lo → int64 (mx + batch_size - 1) →
          ∃ p s',
            batch_loop oracle fuel new_table table_name c cols batch_size total_rows
              (VInt lo) (VInt mx) processed s = (Ret p, s'))).
Proof.
  intros Hle Hbs Hfuel n.
  assert (Hn : 0 ≤ (mx - lo) / batch_size) by (apply Z.div_pos; lia).
  assert (Hdiv : batch_size * ((mx - lo) / batch_size) ≤ mx - lo
                 < batch_size * ((mx - lo) / batch_size) + batch_size).
  { pose proof (Z.mul_div_le (mx - lo) batch_size ltac:(lia)).
    pose proof (Z.mul_succ_div_gt (mx - lo) batch_size ltac:(lia)). lia. }
  split_and!.
  - intros oracle new_table table_name c cols total_rows processed s.
    pose proof (batch_loop_no_timeout oracle new_table table_name c cols batch_size
                  total_rows mx fuel Hbs lo processed s Hfuel) as H.
    by destruct (batch_loop _ _ _ _ _ _ _ _ _ _ _ s) as [[p|e| |] s'].
  - intros k Hk. split; [by apply batches_lookup|]. subst n. nia.
  - subst n. nia.
  - intros oracle d0 T new_table table_name info auto cols idxs c i total_rows processed
      acc s Htable Hne Hidxs Hi Hlen Hp Hc.
    pose proof (batch_loop_spec oracle d0 T new_table table_name info auto cols idxs c i
                  batch_size total_rows mx Htable Hne Hidxs Hi Hlen fuel lo acc processed
                  s Hp Hc) as H.
    destruct (batch_loop _ _ _ _ _ _ _ _ _ _ _ s) as [[p|e| |] s']; simpl in H.
    + split; [|by eauto]. intros ? ? [= <- <-].
      destruct H as (n' & Hp' & Hc' & -> & Htr & Hmx & Hall).
      by assert (n' = n) as -> by (by apply iterations_unique).
    + split; [done|]. intros Hquiet Hlo Hhi. exfalso.
      destruct H as (n' & _ & Hall & [(k & Hk)|(j & Hj & Hov)]).
      * by rewrite Hquiet in Hk.
      * destruct Hov. rewrite !int64_spec in *. nia.
    + nia.
    + nia.
Qed.

Lemma batch_loop_terminates_witness :
  let defs := shadow_defs affiliates ["id"; "surname"] in
  let s := (create_table quiet "affiliates_new" defs (connect registry)).2 in
  (let r := batch_loop (failing_at 4) 10 "affiliates_new" "affiliates" "id"
              ["id"; "surname"] 2 4 (VInt 1) (VInt 9) 0 (connect registry) in
   r.1 ≠ Timeout ∧ r.1 ≠ Unmodelled)
  ∧ ∃ p s',
      batch_loop quiet 10 "affiliates_new" "affiliates" "id" ["id"; "surname"] 2 4
        (VInt 1) (VInt 9) 0 s = (Ret p, s')
      ∧ p = 0 + Z.of_nat (length (copied affiliates [0; 1]%nat 0 2 5 1))
      ∧ trace s'
        = trace s ++ loop_stmts "affiliates_new" ["id"; "surname"] "affiliates" "id" 2 5 1
      ∧ pending s' = None
      ∧ committed s'
        = <["affiliates_new" := {| t_info := catalog defs;
                                   t_rows := [] ++ copied affiliates [0; 1]%nat 0 2 5 1;
                                   t_autoincrement := false |}]>
            registry.
Proof.
  intros defs s.
  destruct (batch_loop_terminates 1 9 2 10) as (Hend & _ & _ & Hrun); [lia..|].
  split; [apply Hend|].
  destruct (Hrun quiet registry affiliates "affiliates_new" "affiliates" (catalog defs)
              false ["id"; "surname"] [0; 1]%nat "id" 0%nat 4 0 [] s) as [Hpart Htotal].
  - reflexivity.
  - discriminate.
  - reflexivity.
  - reflexivity.
  - reflexivity.
  - reflexivity.
  - vm_compute. reflexivity.
  - destruct Htotal as (p & s' & Hloop).
    + reflexivity.
    + vm_compute. exact I.
    + vm_compute. exact I.
    + exists p, s'. split; [exact Hloop|]. exact (Hpart p s' Hloop).
Defined.

(** The scenario's table has no value between 6 and 8: the batch from 7 to
    9 still runs, and the one before it inserts a single row. *)
Example gaps_do_not_end_the_loop :
  let s := (create_table quiet "affiliates_new"
              (shadow_defs affiliates ["id"; "surname"]) (connect registry)).2 in
  let r := batch_loop quiet 10 "affiliates_new" "affiliates" "id" ["id"; "surname"]
             2 4 (VInt 1) (VInt 9) 0 s in
  r.1 = Ret 4
  ∧ stdout r.2 = [Progress 1 4; Progress 2 4; Progress 3 4; Progress 3 4; Progress 4 4]
  ∧ drop 1 (trace r.2)
    = loop_stmts "affiliates_new" ["id"; "surname"] "affiliates" "id" 2 5 1.
Proof. vm_compute. done. Qed.

(** ** The columns file *)

Example read_columns_to_keep_example :
  read_columns_to_keep
    ("id" +:+ String CR (String LF ("  surname  " +:+ String LF (String LF "first name"))))
  = ["id"; "surname"; "first name"].
Proof. vm_compute. reflexivity. Qed.

Lemma lstrip_length s : (String.length (lstrip s) ≤ String.length s)%nat.
Proof. induction s as [|a s IH]; simpl; [done|]. destruct (py_isspace a); simpl; lia. Qed.

Lemma rstrip_length s : (String.length (rstrip s) ≤ String.length s)%nat.
Proof.
  induction s as [|a s IH]; simpl; [done|].
  destruct (rstrip s); simpl in *; [destruct (py_isspace a); simpl; lia|lia].
Qed.

Lemma lstrip_fixed s :
  lstrip s = s ↔ match s with String a _ => py_isspace a = false | EmptyString => True end.
Proof.
  destruct s as [|a s]; simpl; [done|].
  destruct (py_isspace a) eqn:E; [|done]. split; [|done].
  intros H. pose proof (lstrip_length s) as Hl. rewrite H in Hl. simpl in Hl. lia.
Qed.

Lemma lstrip_lstrip s : lstrip (lstrip s) = lstrip s.
Proof.
  induction s as [|a s IH]; simpl; [done|].
  destruct (py_isspace a) eqn:E; [done|]. simpl. by rewrite E.
Qed.

Lemma rstrip_rstrip s : rstrip (rstrip s) = rstrip s.
Proof.
  induction s as [|a s IH]; simpl; [done|].
  destruct (rstrip s) as [|b r] eqn:E.
  - destruct (py_isspace a) eqn:Ea; simpl; [done|]. by rewrite Ea.
  - simpl in *. by rewrite IH.
Qed.

Lemma lstrip_rstrip s : lstrip s = s → lstrip (rstrip s) = rstrip s.
Proof.
  rewrite !lstrip_fixed. destruct s as [|a s]; simpl; [done|]. intros Ea.
  destruct (rstrip s); simpl; by rewrite Ea.
Qed.

Lemma strip_strip s : strip (strip s) = strip s.
Proof.
  unfold strip. rewrite lstrip_rstrip by apply lstrip_lstrip. apply rstrip_rstrip.
Qed.

Lemma strip_fixed s : strip s = s → lstrip s = s ∧ rstrip s = s.
Proof.
  unfold strip. intros H.
  assert (lstrip s = s) as Hl.
  { pose proof (lstrip_length s) as H1. pose proof (rstrip_length (lstrip s)) as H2.
    rewrite H in H2. apply lstrip_fixed. destruct s as [|a s]; [done|].
    simpl in *. destruct (py_isspace a); [|done].
    pose proof (lstrip_length s). lia. }
  by rewrite Hl in H.
Qed.

Lemma rstrip_app_space s w :
  py_isspace w = true → rstrip (s +:+ String w EmptyString) = rstrip s.
Proof.
  intros Hw. induction s as [|a s IH]; simpl; [by rewrite Hw|]. by rewrite IH.
Qed.

Lemma lstrip_app s s' : s ≠ EmptyString → lstrip s = s → lstrip (s +:+ s') = s +:+ s'.
Proof. rewrite !lstrip_fixed. destruct s as [|a s]; simpl; done. Qed.

Lemma strip_line n w :
  n ≠ EmptyString → strip n = n → py_isspace w = true →
  strip (n +:+ String w EmptyString) = n.
Proof.
  intros Hn [Hl Hr]%strip_fixed Hw. unfold strip.
  rewrite lstrip_app by done. by rewrite rstrip_app_space.
Qed.

(** X1. Whatever the columns file holds, every name read from it is
    non-empty and has no whitespace at either end: blank lines and lines
    of whitespace give no name, and the line break is not part of a
    name. *)
Theorem read_columns_to_keep_entries (text : string) :
  Forall (λ c, c ≠ EmptyString ∧ strip c = c) (read_columns_to_keep text).
Proof.
  unfold read_columns_to_keep. apply Forall_fmap, Forall_forall.
  intros line [Hline _]%list_elem_of_filter. simpl. split; [done|apply strip_strip].
Qed.

Lemma universal_newlines_app n s :
  newline_free n = true → universal_newlines (n +:+ s) = n +:+ universal_newlines s.
Proof.
  induction n as [|a n IH]; simpl; [done|].
  intros [[Ha1 Ha2]%andb_prop Hn]%andb_prop.
  apply negb_true_iff in Ha2. rewrite Ha2. by rewrite IH.
Qed.

Lemma universal_newlines_fixed n :
  newline_free n = true → universal_newlines n = n.
Proof.
  induction n as [|a n IH]; simpl; [done|].
  intros [[Ha1 Ha2]%andb_prop Hn]%andb_prop.
  apply negb_true_iff in Ha2. rewrite Ha2. by rewrite IH.
Qed.

Lemma readlines_line n s :
  newline_free n = true →
  readlines (n +:+ String LF s) = (n +:+ String LF EmptyString) :: readlines s.
Proof.
  induction n as [|a n IH]; simpl; [done|].
  intros [[Ha1 Ha2]%andb_prop Hn]%andb_prop.
  apply negb_true_iff in Ha1. rewrite Ha1. by rewrite IH.
Qed.

Lemma readlines_last n :
  newline_free n = true → n ≠ EmptyString → readlines n = [n].
Proof.
  induction n as [|a n IH]; simpl; [done|].
  intros [[Ha1 Ha2]%andb_prop Hn]%andb_prop _.
  apply negb_true_iff in Ha1. rewrite Ha1.
  destruct n as [|b n]; [done|]. by rewrite IH.
Qed.

Lemma read_columns_to_keep_last n :
  column_name_ok n → read_columns_to_keep n = [n].
Proof.
  intros (Hn & Hs & Hf). unfold read_columns_to_keep.
  rewrite universal_newlines_fixed, readlines_last by done.
  rewrite filter_cons_True by (by rewrite Hs). simpl. by rewrite Hs.
Qed.

Lemma read_columns_to_keep_lf n s :
  column_name_ok n →
  read_columns_to_keep (n +:+ String LF s) = n :: read_columns_to_keep s.
Proof.
  intros (Hn & Hs & Hf). unfold read_columns_to_keep.
  rewrite universal_newlines_app by done. simpl.
  rewrite readlines_line by done.
  rewrite filter_cons_True by (by rewrite strip_line). simpl.
  by rewrite strip_line.
Qed.

Lemma read_columns_to_keep_crlf n s :
  column_name_ok n →
  read_columns_to_keep (n +:+ String CR (String LF s)) = n :: read_columns_to_keep s.
Proof.
  intros (Hn & Hs & Hf). unfold read_columns_to_keep.
  rewrite universal_newlines_app by done. simpl.
  rewrite readlines_line by done.
  rewrite filter_cons_True by (by rewrite strip_line). simpl.
  by rewrite strip_line.
Qed.

Lemma string_app_assoc (a b c : string) : (a +:+ b) +:+ c = a +:+ (b +:+ c).
Proof.
  induction a as [|x a IH]; [done|].
  change (String x ((a +:+ b) +:+ c) = String x (a +:+ (b +:+ c))). by rewrite IH.
Qed.

Lemma read_columns_to_keep_lf_lines (names : list string) :
  Forall column_name_ok names →
  read_columns_to_keep (join (String LF EmptyString) names) = names.
Proof.
  induction 1 as [|n names Hn Hnames IH]; [done|].
  destruct names as [|m names]; [by apply read_columns_to_keep_last|].
  change (join ?sep (n :: m :: names)) with (n +:+ sep +:+ join sep (m :: names)).
  change (n +:+ String LF EmptyString +:+ ?s) with (n +:+ String LF s).
  by rewrite read_columns_to_keep_lf, IH.
Qed.

Lemma read_columns_to_keep_lf_ended (names : list string) :
  Forall column_name_ok names →
  read_columns_to_keep (join (String LF EmptyString) names +:+ String LF EmptyString)
  = names.
Proof.
  induction 1 as [|n names Hn Hnames IH]; [done|].
  destruct names as [|m names]; [by simpl; rewrite read_columns_to_keep_lf|].
  change (join ?sep (n :: m :: names)) with (n +:+ sep +:+ join sep (m :: names)).
  rewrite !string_app_assoc.
  change (n +:+ String LF EmptyString +:+ ?s) with (n +:+ String LF s).
  by rewrite read_columns_to_keep_lf, IH.
Qed.

Lemma read_columns_to_keep_crlf_lines (names : list string) :
  Forall column_name_ok names →
  read_columns_to_keep (join (String CR (String LF EmptyString)) names) = names.
Proof.
  induction 1 as [|n names Hn Hnames IH]; [done|].
  destruct names as [|m names]; [by apply read_columns_to_keep_last|].
  change (join ?sep (n :: m :: names)) with (n +:+ sep +:+ join sep (m :: names)).
  change (n +:+ String CR (String LF EmptyString) +:+ ?s)
    with (n +:+ String CR (String LF s)).
  by rewrite read_columns_to_keep_crlf, IH.
Qed.

(** X2. A columns file that lists names one per line reads back as that
    list, in order and with repetitions: with [\n] between the lines, with
    a [\n] after the last line as well, and with [\r\n] between the lines.
    A name may contain blanks; it must not be empty, start or end with
    whitespace, or contain a line break. *)
Theorem read_columns_to_keep_join (names : list string) :
  Forall column_name_ok names →
  read_columns_to_keep (join (String LF EmptyString) names) = names
  ∧ read_columns_to_keep (join (String LF EmptyString) names +:+ String LF EmptyString)
    = names
  ∧ read_columns_to_keep (join (String CR (String LF EmptyString)) names) = names.
Proof.
  intros Hnames. split_and!.
  - by apply read_columns_to_keep_lf_lines.
  - by apply read_columns_to_keep_lf_ended.
  - by apply read_columns_to_keep_crlf_lines.
Qed.

Lemma read_columns_to_keep_join_witness :
  read_columns_to_keep (join (String LF EmptyString) ["id"; "first name"; "id"])
  = ["id"; "first name"; "id"]
  ∧ read_columns_to_keep
      (join (String LF EmptyString) ["id"; "first name"; "id"] +:+ String LF EmptyString)
    = ["id"; "first name"; "id"]
  ∧ read_columns_to_keep (join (String CR (String LF EmptyString)) ["id"; "first name"; "id"])
    = ["id"; "first name"; "id"].
Proof.
  apply (read_columns_to_keep_join ["id"; "first name"; "id"]).
  repeat constructor; discriminate.
Defined.

(** ** The script before the [try] *)

Lemma run_before_try oracle copy_ok total_time file table_name keep batch_size backup fuel :
  run oracle copy_ok total_time file table_name keep batch_size backup fuel
  = before_try oracle copy_ok file table_name keep backup (λ T s,
      finish oracle
        (migrate oracle total_time fuel table_name (valid_columns keep (column_names T))
           (shadow_defs T keep) (primary_key_cols (t_info T)) batch_size
           (Z.of_nat (length (t_rows T)))
           (length (columns_to_drop keep (column_names T))) s)).
Proof.
  unfold run, before_try, drop_unused_columns, connect, create_backup, table_exists,
    get_current_columns, count_rows, pragma_table_info, pragma_foreign_keys, bind,
    engine_call, get_db, visible, print, close, rollback, ret.
  destruct backup, copy_ok; simpl; try done.
  all: destruct (oracle 0%nat); simpl; [done|].
  all: destruct (oracle 1%nat); simpl; [done|].
  all: destruct (file !! table_name) as [T|] eqn:Htable; simpl; [|done].
  all: destruct (oracle 2%nat); simpl; [done|].
  all: rewrite Htable; simpl.
  all: fold (column_names T).
  all: case_bool_decide as Hdrop; simpl; [done|].
  all: destruct (oracle 3%nat); simpl; [done|].
  all: rewrite Htable; simpl.
  all: destruct (oracle 4%nat); simpl; [done|].
  all: rewrite ?Htable; simpl.
  all: destruct (oracle 5%nat); simpl; [done|].
  all: rewrite ?Htable; simpl.
  all: unfold try_migrate, try_except, bind, finish, on_error, bind, pragma_foreign_keys,
         engine_call, print, close, rollback, ret.
  all: fold (shadow_defs T keep).
  all: destruct (migrate _ _ _ _ _ _ _ _ _ _ _) as [[[]|e| |] s7]; simpl; try done.
  all: by destruct (oracle _).
Qed.


Lemma bind_Raise_eq {A B} (m : M A) (k : A → M B) s e s1 :
  m s = (Raise e, s1) → bind m k s = (Raise e, s1).
Proof. intros H. unfold bind. by rewrite H. Qed.




Lemma bind_Ret_inv {A B} (m : M A) (k : A → M B) s b s' :
  bind m k s = (Ret b, s') → ∃ a s1, m s = (Ret a, s1) ∧ k a s1 = (Ret b, s').
Proof. unfold bind. destruct (m s) as [[a|e| |] s1]; [eauto|done..]. Qed.

Lemma columns_to_drop_valid keep current :
  columns_to_drop keep (valid_columns keep current) = [].
Proof. apply filter_none. intros c [_ Hc]%elem_of_valid_columns. tauto. Qed.

Lemma valid_columns_valid keep current :
  valid_columns (valid_columns keep current) current = valid_columns keep current.
Proof. apply filter_all. by intros c [Hc _]%elem_of_valid_columns. Qed.

Lemma columns_to_drop_of_valid keep current :
  columns_to_drop (valid_columns keep current) current = columns_to_drop keep current.
Proof. apply filter_ext_in. intros c Hc. rewrite elem_of_valid_columns. tauto. Qed.

(** X3. When the table is not in the database the run never returns [True],
    always ends, changes nothing and issues at most the two statements up
    to the look-up in [sqlite_master]; when the engine accepts those two it
    returns [False] after reporting the missing table. *)
Theorem missing_table_reported oracle copy_ok total_time (file : db) table_name keep batch_size
    backup fuel :
  file !! table_name = None →
  let r := run oracle copy_ok total_time file table_name keep batch_size backup fuel in
  r.1 ≠ Ret true
  ∧ r.1 ≠ Timeout
  ∧ r.1 ≠ Unmodelled
  ∧ committed r.2 = file
  ∧ (length (trace r.2) ≤ 2)%nat
  ∧ ((backup = true → copy_ok = true) → oracle 0%nat = false → oracle 1%nat = false →
     r = (Ret false,
          Conn file None [SPragmaForeignKeys false; SSelectTable table_name]
            [TableMissing])).
Proof.
  intros Htable r. subst r. rewrite run_before_try. unfold before_try. rewrite Htable.
  destruct backup, copy_ok; simpl.
  all: try (split_and!; [done|done|done|done|lia|]; by intros H; discriminate (H eq_refl)).
  all: destruct (oracle 0%nat); simpl; [split_and!; [done|done|done|done|lia|done]|].
  all: destruct (oracle 1%nat); simpl; [split_and!; [done|done|done|done|lia|done]|].
  all: split_and!; [done|done|done|done|lia|done].
Qed.

Lemma missing_table_reported_witness :
  let r := run quiet true one_second registry "members" ["id"] 5000 false 10 in
  r.1 ≠ Ret true
  ∧ r.1 ≠ Timeout
  ∧ r.1 ≠ Unmodelled
  ∧ committed r.2 = registry
  ∧ (length (trace r.2) ≤ 2)%nat
  ∧ ((false = true → true = true) → quiet 0%nat = false → quiet 1%nat = false →
     r = (Ret false,
          Conn registry None [SPragmaForeignKeys false; SSelectTable "members"]
            [TableMissing])).
Proof.
  apply (missing_table_reported quiet true one_second registry "members" ["id"] 5000 false 10).
  reflexivity.
Defined.

(** X4. Names of the keep-list that are not columns of the table have no
    effect: the run is the run with the keep-list filtered to the columns
    of the table, in its result, in the file it leaves, in the statements
    it issues and in its output. *)
Theorem unknown_names_ignored oracle copy_ok total_time (file : db) T table_name keep batch_size
    backup fuel :
  file !! table_name = Some T →
  run oracle copy_ok total_time file table_name keep batch_size backup fuel
  = run oracle copy_ok total_time file table_name (valid_columns keep (column_names T)) batch_size
      backup fuel.
Proof.
  intros Htable. rewrite !run_before_try. unfold before_try. rewrite Htable.
  unfold shadow_defs. by rewrite valid_columns_valid, columns_to_drop_of_valid.
Qed.

Lemma unknown_names_ignored_witness :
  run quiet true one_second registry "affiliates" ["firstname"; "email"; "id"] 3 false 10
  = run quiet true one_second registry "affiliates"
      (valid_columns ["firstname"; "email"; "id"] (column_names affiliates)) 3 false 10.
Proof.
  apply (unknown_names_ignored quiet true one_second registry affiliates "affiliates"
           ["firstname"; "email"; "id"] 3 false 10).
  reflexivity.
Defined.

(** X5. After a run that returned [True], a second run on the file it left,
    with the same keep-list, finds nothing to drop: whatever its batch
    size, fuel and engine it leaves the file as it is, ends, and issues at
    most the three statements that read the catalog; when the engine
    accepts those it returns [True]. *)
Theorem second_run_changes_nothing
    o1 ck1 tm1 (file : db) T table_name keep bs1 b1 f1 s1 o2 ck2 tm2 bs2 b2 f2 :
  file !! table_name = Some T →
  run o1 ck1 tm1 file table_name keep bs1 b1 f1 = (Ret true, s1) →
  let r2 := run o2 ck2 tm2 (committed s1) table_name keep bs2 b2 f2 in
  committed r2.2 = committed s1
  ∧ r2.1 ≠ Timeout
  ∧ r2.1 ≠ Unmodelled
  ∧ (length (trace r2.2) ≤ 3)%nat
  ∧ ((b2 = true → ck2 = true) →
     o2 0%nat = false → o2 1%nat = false → o2 2%nat = false →
     r2.1 = Ret true ∧ stdout r2.2 = [NoColumnsToDrop]).
Proof.
  intros Htable Hrun r2.
  assert (∃ T', committed s1 !! table_name = Some T'
                ∧ columns_to_drop keep (column_names T') = []) as (T' & Htable' & Hdrop').
  { pose proof (run_spec o1 ck1 tm1 file T table_name keep bs1 b1 f1 Htable) as H.
    rewrite Hrun in H. simpl in H. destruct H as [_ [[Hd ->]|[_ H]]]; [by exists T|].
    apply migrated_lookup in H as (c & i & idxs & rows & _ & _ & _ & -> & _).
    eexists. rewrite lookup_after_swap. split; [done|].
    unfold column_names. simpl. rewrite catalog_names, shadow_defs_names.
    apply columns_to_drop_valid. }
  subst r2. rewrite run_before_try. unfold before_try.
  rewrite Htable', bool_decide_true by done.
  destruct b2, ck2; simpl.
  all: try (split_and!; [done|done|done|lia|]; by intros H; discriminate (H eq_refl)).
  all: destruct (o2 0%nat); simpl; [split_and!; [done|done|done|lia|done]|].
  all: destruct (o2 1%nat); simpl; [split_and!; [done|done|done|lia|done]|].
  all: destruct (o2 2%nat); simpl; [split_and!; [done|done|done|lia|done]|].
  all: split_and!; [done|done|done|lia|done].
Qed.

Lemma second_run_changes_nothing_witness :
  let s1 := (run quiet true one_second registry "affiliates" ["id"; "surname"; "firstname"] 3
               false 10).2 in
  let r2 := run quiet true one_second (committed s1) "affiliates" ["id"; "surname"; "firstname"]
              5000 false 10 in
  committed r2.2 = committed s1
  ∧ r2.1 ≠ Timeout
  ∧ r2.1 ≠ Unmodelled
  ∧ (length (trace r2.2) ≤ 3)%nat
  ∧ ((false = true → true = true) →
     quiet 0%nat = false → quiet 1%nat = false → quiet 2%nat = false →
     r2.1 = Ret true ∧ stdout r2.2 = [NoColumnsToDrop]).
Proof.
  apply (second_run_changes_nothing quiet true one_second registry affiliates "affiliates"
           ["id"; "surname"; "firstname"] 3 false 10 _ quiet true one_second 5000 false 10).
  - reflexivity.
  - vm_compute. reflexivity.
Defined.

(** X6. The only exception that leaves [drop_unused_columns] is a database
    error raised by a statement outside the [try]: a rejected statement
    before it, or the rejected PRAGMA after it. *)
Theorem only_database_errors_escape oracle copy_ok total_time (file : db) table_name keep batch_size
    backup fuel :
  match (run oracle copy_ok total_time file table_name keep batch_size backup fuel).1 with
  | Raise e => e = DatabaseError ∧ ∃ k, oracle k = true
  | _ => True
  end.
Proof.
  rewrite run_before_try. unfold before_try.
  destruct (backup && negb copy_ok); simpl; [done|].
  destruct (oracle 0%nat) eqn:H0; simpl; [by eauto|].
  destruct (oracle 1%nat) eqn:H1; simpl; [by eauto|].
  destruct (file !! table_name) as [T|]; simpl; [|done].
  destruct (oracle 2%nat) eqn:H2; simpl; [by eauto|].
  case_bool_decide; simpl; [done|].
  destruct (oracle 3%nat) eqn:H3; simpl; [by eauto|].
  destruct (oracle 4%nat) eqn:H4; simpl; [by eauto|].
  destruct (oracle 5%nat) eqn:H5; simpl; [by eauto|].
  destruct (migrate _ _ _ _ _ _ _ _ _ _ _) as [[[]|e| |] s7]; simpl; try done.
  unfold bind, pragma_foreign_keys, engine_call.
  destruct (oracle (length (trace s7))) eqn:H7; simpl; eauto.
Qed.

(** ** A rejected CREATE TABLE *)

Lemma migrate_create_rejected oracle total_time fuel t valid defs pk bs total dropped s :
  pending s = None →
  is_Some (committed s !! new_table_name t) ∨ defs = [] ∨ ¬ NoDup (cd_col_name <$> defs) →
  migrate oracle total_time fuel t valid defs pk bs total dropped s
  = (Raise DatabaseError,
     Conn (committed s) None (trace s ++ [SCreateTable (new_table_name t) defs]) (stdout s)).
Proof.
  destruct s as [cm pd tr out]. simpl. intros -> Hcause.
  unfold migrate. apply bind_Raise_eq. unfold rebuild. apply bind_Raise_eq.
  unfold create_table, bind, engine_call, get_db, visible. simpl.
  destruct (oracle (length tr)); simpl; [done|].
  repeat case_bool_decide; try done. tauto.
Qed.

Lemma run_create_rejected oracle copy_ok total_time (file : db) T table_name keep batch_size
    backup fuel :
  file !! table_name = Some T →
  columns_to_drop keep (column_names T) ≠ [] →
  is_Some (file !! new_table_name table_name)
  ∨ ¬ NoDup (valid_columns keep (column_names T)) →
  let r := run oracle copy_ok total_time file table_name keep batch_size backup fuel in
  r.1 ≠ Ret true
  ∧ r.1 ≠ Timeout
  ∧ r.1 ≠ Unmodelled
  ∧ committed r.2 = file
  ∧ ((backup = true → copy_ok = true) → (∀ k, oracle k = false) →
     r = (Ret false,
          Conn file None
            (prelude table_name
             ++ [SCreateTable (new_table_name table_name) (shadow_defs T keep)])
            [ErrorOccurred DatabaseError])).
Proof.
  intros Htable Hdrop Hcause r. subst r.
  rewrite run_before_try. unfold before_try.
  rewrite Htable, bool_decide_false by done.
  rewrite migrate_create_rejected; [|done|].
  2:{ simpl. rewrite shadow_defs_names. tauto. }
  destruct backup, copy_ok; simpl.
  all: try (split_and!; [done..|]; by intros H; discriminate (H eq_refl)).
  all: destruct (oracle 0%nat) eqn:H0; simpl;
         [split_and!; [done..|]; intros _ Hq; by rewrite Hq in H0|].
  all: destruct (oracle 1%nat) eqn:H1; simpl;
         [split_and!; [done..|]; intros _ Hq; by rewrite Hq in H1|].
  all: destruct (oracle 2%nat) eqn:H2; simpl;
         [split_and!; [done..|]; intros _ Hq; by rewrite Hq in H2|].
  all: destruct (oracle 3%nat) eqn:H3; simpl;
         [split_and!; [done..|]; intros _ Hq; by rewrite Hq in H3|].
  all: destruct (oracle 4%nat) eqn:H4; simpl;
         [split_and!; [done..|]; intros _ Hq; by rewrite Hq in H4|].
  all: destruct (oracle 5%nat) eqn:H5; simpl;
         [split_and!; [done..|]; intros _ Hq; by rewrite Hq in H5|].
  all: done.
Qed.

(** X7. When a table with the shadow name [<table>_new] is already in the
    file and the table has a column to drop, the run never returns [True],
    always ends and leaves the file as it is, the table of that name
    included; with an engine that rejects nothing it returns [False] right
    after the CREATE TABLE, which is its last statement. *)
Theorem taken_shadow_name_fails oracle copy_ok total_time (file : db) T table_name keep batch_size
    backup fuel :
  file !! table_name = Some T →
  columns_to_drop keep (column_names T) ≠ [] →
  is_Some (file !! new_table_name table_name) →
  let r := run oracle copy_ok total_time file table_name keep batch_size backup fuel in
  r.1 ≠ Ret true
  ∧ r.1 ≠ Timeout
  ∧ r.1 ≠ Unmodelled
  ∧ committed r.2 = file
  ∧ ((backup = true → copy_ok = true) → (∀ k, oracle k = false) →
     r = (Ret false,
          Conn file None
            (prelude table_name
             ++ [SCreateTable (new_table_name table_name) (shadow_defs T keep)])
            [ErrorOccurred DatabaseError])).
Proof. intros Htable Hdrop Hnew. apply run_create_rejected; auto. Qed.

Lemma taken_shadow_name_fails_witness :
  let r := run quiet true one_second interrupted "affiliates" ["id"; "surname"] 5000 false 10 in
  r.1 ≠ Ret true
  ∧ r.1 ≠ Timeout
  ∧ r.1 ≠ Unmodelled
  ∧ committed r.2 = interrupted
  ∧ ((false = true → true = true) → (∀ k, quiet k = false) →
     r = (Ret false,
          Conn interrupted None
            (prelude "affiliates"
             ++ [SCreateTable (new_table_name "affiliates")
                   (shadow_defs affiliates ["id"; "surname"])])
            [ErrorOccurred DatabaseError])).
Proof.
  apply (taken_shadow_name_fails quiet true one_second interrupted affiliates "affiliates"
           ["id"; "surname"] 5000 false 10).
  - reflexivity.
  - vm_compute. discriminate.
  - exists pair. reflexivity.
Defined.

(** X8. When the keep-list names a column of the table twice and the table
    has a column to drop, the CREATE TABLE of the shadow table is
    rejected: the run never returns [True], always ends and leaves the
    file as it is. *)
Theorem repeated_keep_name_fails oracle copy_ok total_time (file : db) T table_name keep batch_size
    backup fuel :
  file !! table_name = Some T →
  columns_to_drop keep (column_names T) ≠ [] →
  ¬ NoDup (valid_columns keep (column_names T)) →
  let r := run oracle copy_ok total_time file table_name keep batch_size backup fuel in
  r.1 ≠ Ret true
  ∧ r.1 ≠ Timeout
  ∧ r.1 ≠ Unmodelled
  ∧ committed r.2 = file
  ∧ ((backup = true → copy_ok = true) → (∀ k, oracle k = false) →
     r = (Ret false,
          Conn file None
            (prelude table_name
             ++ [SCreateTable (new_table_name table_name) (shadow_defs T keep)])
            [ErrorOccurred DatabaseError])).
Proof. intros Htable Hdrop Hdup. apply run_create_rejected; auto. Qed.

Lemma repeated_keep_name_fails_witness :
  let r := run quiet true one_second registry "affiliates" ["id"; "surname"; "id"] 5000 false 10 in
  r.1 ≠ Ret true
  ∧ r.1 ≠ Timeout
  ∧ r.1 ≠ Unmodelled
  ∧ committed r.2 = registry
  ∧ ((false = true → true = true) → (∀ k, quiet k = false) →
     r = (Ret false,
          Conn registry None
            (prelude "affiliates"
             ++ [SCreateTable (new_table_name "affiliates")
                   (shadow_defs affiliates ["id"; "surname"; "id"])])
            [ErrorOccurred DatabaseError])).
Proof.
  apply (repeated_keep_name_fails quiet true one_second registry affiliates "affiliates"
           ["id"; "surname"; "id"] 5000 false 10).
  - reflexivity.
  - vm_compute. discriminate.
  - apply (bool_decide_unpack _). vm_compute. exact I.
Defined.

(** X9. The [except] clause does not remove the shadow table. When a run
    returned [False], changed the file and left the original table in
    place, the shadow table is in the file it left, and no later run on
    that file that has a column to drop returns [True], whatever its
    keep-list, batch size and engine: each ends and leaves the file as the
    failed run left it. *)
Theorem failed_run_blocks_next_run
    o1 ck1 tm1 (file : db) T table_name keep1 bs1 b1 f1 s1
    o2 ck2 tm2 keep2 bs2 b2 f2 :
  file !! table_name = Some T →
  run o1 ck1 tm1 file table_name keep1 bs1 b1 f1 = (Ret false, s1) →
  committed s1 ≠ file →
  committed s1 !! table_name = Some T →
  columns_to_drop keep2 (column_names T) ≠ [] →
  let r2 := run o2 ck2 tm2 (committed s1) table_name keep2 bs2 b2 f2 in
  is_Some (committed s1 !! new_table_name table_name)
  ∧ r2.1 ≠ Ret true
  ∧ r2.1 ≠ Timeout
  ∧ r2.1 ≠ Unmodelled
  ∧ committed r2.2 = committed s1.
Proof.
  intros Htable Hrun Hchanged Htable' Hdrop r2.
  pose proof (run_spec o1 ck1 tm1 file T table_name keep1 bs1 b1 f1 Htable) as H.
  rewrite Hrun in H. simpl in H.
  destruct H as [_ [(_ & _ & ?)|[(_ & Hcont & _)|(Hdrop1 & _ & [rows Hs] & _)]]]; [done| |].
  2:{ destruct Hs as (c & i & idxs & _ & _ & _ & _ & _ & _ & Hc & _).
      rewrite Hc, lookup_after_swap in Htable'. injection Htable' as HT.
      destruct Hdrop1.
      assert (Hnames : column_names T = valid_columns keep1 (column_names T)).
      { rewrite <- HT at 1. unfold column_names at 1. simpl.
        by rewrite catalog_names, shadow_defs_names. }
      rewrite Hnames. apply columns_to_drop_valid. }
  assert (Hnew : is_Some (committed s1 !! new_table_name table_name)).
  { destruct Hcont as [?|(c & i & idxs & rows & _ & _ & _ & _ & -> & _)]; [done|].
    rewrite lookup_insert_eq. eauto. }
  split; [done|].
  destruct (run_create_rejected o2 ck2 tm2 (committed s1) T table_name keep2 bs2 b2 f2)
    as (? & ? & ? & ? & _); auto.
Qed.

Lemma failed_run_blocks_next_run_witness :
  let s1 := (run (failing_at 12) true one_second registry "affiliates"
               ["id"; "surname"; "firstname"] 3 false 10).2 in
  let r2 := run quiet true one_second (committed s1) "affiliates" ["id"; "surname"] 5000 false 10 in
  is_Some (committed s1 !! new_table_name "affiliates")
  ∧ r2.1 ≠ Ret true
  ∧ r2.1 ≠ Timeout
  ∧ r2.1 ≠ Unmodelled
  ∧ committed r2.2 = committed s1.
Proof.
  apply (failed_run_blocks_next_run (failing_at 12) true one_second registry affiliates "affiliates"
           ["id"; "surname"; "firstname"] 3 false 10 _ quiet true one_second ["id"; "surname"] 5000
           false 10).
  - reflexivity.
  - vm_compute. reflexivity.
  - intros Heq. apply (f_equal (λ d : db, d !! "affiliates_new")) in Heq.
    vm_compute in Heq. discriminate.
  - vm_compute. reflexivity.
  - vm_compute. discriminate.
Defined.


(** ** Values the loop cannot batch on *)











(** ** An integer outside 64 bits *)

Lemma overflows_first bs lo mx :
  1 ≤ bs → overflows bs lo mx →
  lo ≤ mx ∧ (int64 lo ∧ int64 (lo + bs - 1) → overflows bs (lo + bs) mx).
Proof.
  intros Hbs (j & Hj & Hov). split; [nia|]. intros Hok.
  destruct j as [|j].
  - destruct Hov. by replace (lo + Z.of_nat 0 * bs) with lo by lia.
  - exists j. by replace (lo + bs + Z.of_nat j * bs) with (lo + Z.of_nat (S j) * bs) by lia.
Qed.

(** The loop does not end normally when one of its batches has a bound
    outside 64 bits. *)
Lemma batch_loop_overflows oracle fuel new_table table_name c cols batch_size total_rows mx :
  1 ≤ batch_size →
  ∀ lo processed s p s',
    overflows batch_size lo mx →
    batch_loop oracle fuel new_table table_name c cols batch_size total_rows
      (VInt lo) (VInt mx) processed s ≠ (Ret p, s').
Proof.
  intros Hbs. induction fuel as [|fuel IH]; intros lo processed s p s' Hov; simpl.
  - destruct (overflows_first _ _ _ Hbs Hov) as [Hle _].
    by destruct (Z.leb_spec lo mx); [|lia].
  - destruct (overflows_first _ _ _ Hbs Hov) as [Hle Hnext].
    destruct (Z.leb_spec lo mx); [|lia].
    intros (_ & s1 & _ & H1)%bind_Ret_inv.
    apply bind_Ret_inv in H1 as (rowcount & s2 & Hins & H2).
    apply bind_Ret_inv in H2 as (_ & s3 & _ & H3).
    apply bind_Ret_inv in H3 as (_ & s4 & _ & H4).
    replace (lo + batch_size - 1 + 1) with (lo + batch_size) in H4 by lia.
    apply IH in H4; [done|]. apply Hnext.
    unfold insert_select in Hins.
    destruct (int64 lo && int64 (lo + batch_size - 1)) eqn:E; [|done].
    by apply andb_prop_elim, Is_true_true.
Qed.

(** X12. When a batch whose lower bound is not above MAX has a bound outside
    64 bits, no run with a batch size of at least 1 returns [True]: binding
    that bound raises [OverflowError]. A table whose batching column
    reaches the largest 64-bit integer is migrated only when the last
    batch ends on it. *)
Theorem overflowing_batch_bound_fails oracle copy_ok total_time (file : db) T table_name keep
    batch_size backup fuel c i mn mx :
  let valid := valid_columns keep (column_names T) in
  let vs := cell i <$> t_rows T in
  file !! table_name = Some T →
  columns_to_drop keep (column_names T) ≠ [] →
  batch_column (primary_key_cols (t_info T)) valid = Ret c →
  column_index T c = Some i →
  sql_min vs = VInt mn →
  upper_bound (sql_max vs) = Some mx →
  1 ≤ batch_size →
  overflows batch_size mn mx →
  (run oracle copy_ok total_time file table_name keep batch_size backup fuel).1 ≠ Ret true.
Proof.
  intros valid vs Htable Hdrop Hc Hi Hmin Hmax Hbs Hov.
  rewrite run_before_try. unfold before_try.
  rewrite Htable, bool_decide_false by done.
  destruct (backup && negb copy_ok); simpl; [done|].
  destruct (oracle 0%nat); simpl; [done|].
  destruct (oracle 1%nat); simpl; [done|].
  destruct (oracle 2%nat); simpl; [done|].
  destruct (oracle 3%nat); simpl; [done|].
  destruct (oracle 4%nat); simpl; [done|].
  destruct (oracle 5%nat); simpl; [done|].
  set (s6 := Conn _ _ _ _).
  destruct (migrate _ _ _ _ _ _ _ _ _ _ _) as [[[]|e| |] s7] eqn:Hm; simpl; try done.
  intros _. unfold migrate in Hm. fold valid in Hm.
  apply bind_Ret_inv in Hm as (p0 & s0 & Hm & _). unfold rebuild in Hm.
  apply bind_Ret_inv in Hm as ([] & s1 & Hcreate & Hm).
  pose proof (create_table_spec oracle (new_table_name table_name) (shadow_defs T keep) s6
                eq_refl) as Hs1.
  rewrite Hcreate in Hs1. simpl in Hs1. destruct Hs1 as (_ & _ & _ & Hp1 & Hc1).
  rewrite Hc in Hm. apply bind_Ret_inv in Hm as (c' & s1' & [= Ec Es] & Hm). subst c' s1'.
  apply bind_Ret_inv in Hm as (bounds & s2 & Hsel & Hm).
  pose proof (select_min_max_spec oracle c table_name T i s1) as Hs2.
  rewrite Hsel in Hs2. simpl in Hs2. destruct Hs2 as (-> & _ & _); [|done|].
  { unfold visible. rewrite Hp1, Hc1. simpl. rewrite lookup_insert_ne; [done|].
    apply new_table_name_ne. }
  apply bind_Ret_inv in Hm as (p & s3 & Hloop & _).
  fold vs in Hloop. rewrite Hmin in Hloop.
  destruct (sql_max vs) as [|y|q|y]; simplify_eq/=.
  - by apply batch_loop_overflows in Hloop.
  - rewrite batch_loop_real_max in Hloop. by apply batch_loop_overflows in Hloop.
Qed.

Lemma overflowing_batch_bound_fails_witness :
  (run quiet true one_second counters "tally" ["id"; "hits"] 5000 false 10).1 ≠ Ret true.
Proof.
  apply (overflowing_batch_bound_fails quiet true one_second counters tally "tally" ["id"; "hits"]
           5000 false 10 "id" 0%nat 9223372036854775806 9223372036854775807).
  - reflexivity.
  - vm_compute. discriminate.
  - reflexivity.
  - reflexivity.
  - reflexivity.
  - reflexivity.
  - lia.
  - exists 0%nat. split; [lia|]. vm_compute. tauto.
Defined.

(** The run of the witness: the first batch already has an upper bound
    outside 64 bits. *)
Example tally_run :
  let r := run quiet true one_second counters "tally" ["id"; "hits"] 5000 false 10 in
  r.1 = Ret false
  ∧ stdout r.2 = [ErrorOccurred OverflowError]
  ∧ committed r.2 !! "tally" = Some tally
  ∧ t_rows <$> committed r.2 !! "tally_new" = Some [].
Proof. vm_compute. done. Qed.

(** ** The exceptions of the body of the [try] *)

Section Exceptions.

Context (oracle : nat → bool).

Lemma engine_call_raises q s :
  post (engine_call oracle q s) (λ _ _, True) (λ e _, e = DatabaseError) False.
Proof. unfold engine_call. by destruct (oracle _). Qed.

Lemma create_table_raises new_table defs s :
  post (create_table oracle new_table defs s)
    (λ _ _, defs ≠ []) (λ e _, e = DatabaseError) False.
Proof.
  unfold create_table, bind, engine_call, get_db, put_db, raise.
  destruct (oracle _); simpl; [done|]. by repeat case_bool_decide.
Qed.

Lemma select_min_max_raises c table_name s :
  post (select_min_max oracle c table_name s)
    (λ _ _, True) (λ e _, e = DatabaseError) False.
Proof.
  unfold select_min_max, bind, engine_call, get_db, raise, ret.
  destruct (oracle _); simpl; [done|]. by repeat case_match.
Qed.

Lemma begin_transaction_raises s :
  post (begin_transaction oracle s) (λ _ _, True) (λ e _, e = DatabaseError) False.
Proof.
  unfold begin_transaction, bind, engine_call.
  destruct (oracle _); simpl; [done|]. by destruct (pending s).
Qed.

Lemma commit_raises s :
  post (commit oracle s) (λ _ _, True) (λ e _, e = DatabaseError) False.
Proof. unfold commit, bind, engine_call. by destruct (oracle _). Qed.

Lemma insert_select_raises new_table cols table_name c lo hi s :
  post (insert_select oracle new_table cols table_name c lo hi s)
    (λ _ _, True) (λ e _, e = DatabaseError ∨ e = OverflowError) False.
Proof.
  unfold insert_select, bind, engine_call, get_db, put_db_dml, ret, raise.
  destruct (negb _); simpl; [by right|].
  destruct (oracle _); simpl; [by left|].
  repeat case_match; simpl; auto.
Qed.

Lemma drop_table_raises table_name s :
  post (drop_table oracle table_name s) (λ _ _, True) (λ e _, e = DatabaseError) False.
Proof.
  unfold drop_table, bind, engine_call, get_db, put_db, raise.
  destruct (oracle _); simpl; [done|]. by case_match.
Qed.

Lemma rename_table_raises new_table table_name s :
  post (rename_table oracle new_table table_name s)
    (λ _ _, True) (λ e _, e = DatabaseError) False.
Proof.
  unfold rename_table, bind, engine_call, get_db, put_db, raise.
  destruct (oracle _); simpl; [done|]. by repeat case_match.
Qed.

Lemma batch_loop_raises fuel new_table table_name c cols batch_size total_rows :
  ∀ lo mx processed s,
    post (batch_loop oracle fuel new_table table_name c cols batch_size total_rows
            lo mx processed s)
      (λ _ _, True) (λ e _, e ≠ IndexError) True.
Proof.
  induction fuel as [|fuel IH]; intros lo mx processed s; simpl.
  - repeat case_match; done.
  - destruct lo as [|lo|q|a], mx as [|mx|q'|b]; try done;
      try (by repeat case_match).
    all: case_match; [|done].
    all: apply post_bind.
    all: eapply post_mono; [apply begin_transaction_raises|..]; simpl;
           [|by intros ? ? ->|done].
    all: intros _ s1 _; apply post_bind.
    all: eapply post_mono; [apply insert_select_raises|..]; simpl;
           [|by intros ? ? [-> | ->]|done].
    all: intros rowcount s2 _; apply post_bind.
    all: eapply post_mono; [apply commit_raises|..]; simpl;
           [|by intros ? ? ->|done].
    all: intros _ s3 _; apply post_bind; unfold print at 1; simpl.
    all: apply IH.
Qed.

(** Line 127 cannot raise: when the keep set is empty the CREATE TABLE
    before it has been rejected. *)
Lemma rebuild_raises fuel table_name T keep pk batch_size total_rows s :
  post (rebuild oracle fuel table_name (valid_columns keep (column_names T))
          (shadow_defs T keep) pk batch_size total_rows s)
    (λ _ _, True) (λ e _, e ≠ IndexError) True.
Proof.
  unfold rebuild. apply post_bind.
  eapply post_mono; [apply create_table_raises|..]; simpl; [|by intros ? ? ->|done].
  intros _ s1 Hdefs.
  assert (valid_columns keep (column_names T) ≠ []) as Hvalid.
  { intros Hv. apply Hdefs. pose proof (shadow_defs_names T keep) as Hn.
    rewrite Hv in Hn. by destruct (shadow_defs T keep). }
  destruct (batch_column_is_Ret pk _ Hvalid) as [c Hc].
  apply post_bind. unfold lift at 1. rewrite Hc. simpl.
  apply post_bind.
  eapply post_mono; [apply select_min_max_raises|..]; simpl; [|by intros ? ? ->|done].
  intros [mn mx] s2 _. apply post_bind.
  eapply post_mono with (Q := λ _ _, True) (E := λ e _, e ≠ IndexError) (T := True);
    [|simpl|done|done].
  { destruct mn, mx; first [done|apply batch_loop_raises]. }
  intros p s3 _. apply post_bind.
  eapply post_mono; [apply begin_transaction_raises|..]; simpl; [|by intros ? ? ->|done].
  intros _ s4 _. apply post_bind.
  eapply post_mono; [apply drop_table_raises|..]; simpl; [|by intros ? ? ->|done].
  intros _ s5 _. apply post_bind.
  eapply post_mono; [apply rename_table_raises|..]; simpl; [|by intros ? ? ->|done].
  intros _ s6 _. apply post_bind.
  eapply post_mono; [apply commit_raises|..]; simpl; [|by intros ? ? ->|done].
  done.
Qed.

Lemma migrate_raises total_time fuel table_name T keep pk batch_size total_rows dropped s :
  post (migrate oracle total_time fuel table_name (valid_columns keep (column_names T))
          (shadow_defs T keep) pk batch_size total_rows dropped s)
    (λ _ _, True) (λ e _, e ≠ IndexError) True.
Proof.
  unfold migrate. apply post_bind.
  eapply post_mono; [apply rebuild_raises|..]; simpl; [|done..].
  intros p s1 _. unfold report, bind, print. simpl. by destruct (is_zero total_time).
Qed.

End Exceptions.

(** X13. The fall-back [valid_columns[0]] of line 127 never raises: no run
    ends with an [IndexError], and no run that returns [False] reports
    one. When the keep set is empty the CREATE TABLE before line 127 has
    been rejected. *)
Theorem index_error_never_reported oracle copy_ok total_time (file : db) table_name keep batch_size
    backup fuel :
  let r := run oracle copy_ok total_time file table_name keep batch_size backup fuel in
  r.1 ≠ Raise IndexError
  ∧ (r.1 = Ret false → last (stdout r.2) ≠ Some (ErrorOccurred IndexError)).
Proof.
  intros r. subst r. rewrite run_before_try. unfold before_try.
  destruct (backup && negb copy_ok); simpl; [done|].
  destruct (oracle 0%nat); simpl; [done|].
  destruct (oracle 1%nat); simpl; [done|].
  destruct (file !! table_name) as [T|]; simpl; [|done].
  destruct (oracle 2%nat); simpl; [done|].
  case_bool_decide; simpl; [done|].
  destruct (oracle 3%nat); simpl; [done|].
  destruct (oracle 4%nat); simpl; [done|].
  destruct (oracle 5%nat); simpl; [done|].
  set (s6 := Conn _ _ _ _).
  pose proof (migrate_raises oracle total_time fuel table_name T keep
                (primary_key_cols (t_info T))
                batch_size (Z.of_nat (length (t_rows T)))
                (length (columns_to_drop keep (column_names T))) s6) as Hm.
  destruct (migrate _ _ _ _ _ _ _ _ _ _ _) as [[[]|e| |] s7]; simpl in *; try done.
  - unfold bind, pragma_foreign_keys, engine_call. by destruct (oracle _).
  - split; [done|]. intros _. rewrite last_snoc. congruence.
Qed.

(** ** Tables the script does not name *)

Lemma preserves_bind {A B} I (m : M A) (k : A → M B) :
  preserves I m → (∀ a, preserves I (k a)) → preserves I (bind m k).
Proof.
  intros Hm Hk s Hs. unfold bind. specialize (Hm s Hs).
  destruct (m s) as [[a|e| |] s1]; simpl in *; [by apply Hk|done..].
Qed.

Lemma preserves_ret {A} I (a : A) : preserves I (ret a).
Proof. by intros s. Qed.

Lemma preserves_raise {A} I e : preserves I (@raise A e).
Proof. by intros s. Qed.

Lemma preserves_try_except {A} I (m : M A) h :
  preserves I m → (∀ e, preserves I (h e)) → preserves I (try_except m h).
Proof.
  intros Hm Hh s Hs. unfold try_except. specialize (Hm s Hs).
  destruct (m s) as [[a|e| |] s1]; simpl in *; [done|by apply Hh|done..].
Qed.

Section Untouched.

Context (oracle : nat → bool) (file : db) (k : string).

Let I := untouched file k.

Lemma untouched_visible s : I s → visible s !! k = file !! k.
Proof. intros [Hc Hp]. unfold visible. destruct (pending s) as [d|]; simpl; eauto. Qed.

Lemma untouched_engine_call q : preserves I (engine_call oracle q).
Proof. intros s Hs. unfold engine_call. by destruct (oracle _). Qed.

Lemma untouched_print l : preserves I (print l).
Proof. by intros s Hs. Qed.

Lemma untouched_rollback : preserves I rollback.
Proof. intros s [Hc Hp]. split; [done|]. by intros d. Qed.

Lemma untouched_begin_transaction : preserves I (begin_transaction oracle).
Proof.
  intros s Hs. unfold begin_transaction, bind.
  pose proof (untouched_engine_call SBegin s Hs) as H1.
  destruct (engine_call oracle SBegin s) as [[[]|e| |] s1]; simpl in *; try done.
  destruct (pending s1) eqn:E; simpl; [done|].
  destruct H1 as [Hc Hp]. split; [done|]. simpl. by intros d [= <-].
Qed.

Lemma untouched_commit : preserves I (commit oracle).
Proof.
  intros s Hs. unfold commit, bind.
  pose proof (untouched_engine_call SCommit s Hs) as H1.
  destruct (engine_call oracle SCommit s) as [[[]|e| |] s1]; simpl in *; try done.
  split; simpl; [by apply untouched_visible|done].
Qed.

Lemma untouched_put_db d : d !! k = file !! k → preserves I (put_db d).
Proof.
  intros Hd s [Hc Hp]. unfold put_db. simpl.
  destruct (pending s); (split; simpl; [done|]); by intros ? [= <-].
Qed.

Lemma untouched_put_db_dml d : d !! k = file !! k → preserves I (put_db_dml d).
Proof. intros Hd s [Hc Hp]. split; simpl; [done|]. by intros ? [= <-]. Qed.

(** A statement that reads the database and then acts on what it read. *)
Lemma untouched_statement {A} q (f : db → M A) :
  (∀ d, d !! k = file !! k → preserves I (f d)) →
  preserves I (bind (engine_call oracle q) (λ _, bind get_db f)).
Proof.
  intros Hf. apply preserves_bind; [apply untouched_engine_call|]. intros _ s Hs.
  unfold bind, get_db. simpl. apply Hf; [by apply untouched_visible|done].
Qed.

Lemma untouched_pragma_table_info t : preserves I (pragma_table_info oracle t).
Proof. apply untouched_statement. intros d _. apply preserves_ret. Qed.

Lemma untouched_count_rows t : preserves I (count_rows oracle t).
Proof.
  apply untouched_statement. intros d _.
  destruct (d !! t); [apply preserves_ret|apply preserves_raise].
Qed.

Lemma untouched_create_table new defs :
  k ≠ new → preserves I (create_table oracle new defs).
Proof.
  intros Hk. apply untouched_statement. intros d Hd.
  repeat case_bool_decide; try apply preserves_raise.
  apply untouched_put_db. by rewrite lookup_insert_ne.
Qed.

Lemma untouched_select_min_max c t : preserves I (select_min_max oracle c t).
Proof.
  apply untouched_statement. intros d _.
  repeat case_match; first [apply preserves_ret|apply preserves_raise].
Qed.

Lemma untouched_insert_select new cols t c lo hi :
  k ≠ new → preserves I (insert_select oracle new cols t c lo hi).
Proof.
  intros Hk. unfold insert_select. destruct (negb _); [apply preserves_raise|].
  apply untouched_statement. intros d Hd.
  repeat case_match; try apply preserves_raise.
  apply preserves_bind; [|intros; apply preserves_ret].
  apply untouched_put_db_dml. by rewrite lookup_insert_ne.
Qed.

Lemma untouched_drop_table t : k ≠ t → plain k → preserves I (drop_table oracle t).
Proof.
  intros Hk Hplain. apply untouched_statement. intros d Hd.
  destruct (d !! t) as [Tt|]; [|apply preserves_raise].
  apply untouched_put_db. rewrite lookup_forget, lookup_delete_ne, Hd by done.
  destruct (file !! k); simpl; [|done]. by rewrite forget_in_plain.
Qed.

Lemma untouched_rename_table new t :
  k ≠ t → k ≠ new → plain k → preserves I (rename_table oracle new t).
Proof.
  intros Hk Hk' [Hplain _]. apply untouched_statement. intros d Hd.
  repeat case_match; try apply preserves_raise.
  apply untouched_put_db.
  rewrite lookup_insert_ne, lookup_delete_ne, lookup_renamed, Hd by done.
  destruct (file !! k); simpl; [|done]. by rewrite rename_in_plain.
Qed.

Lemma untouched_batch_loop fuel new t c cols bs total :
  k ≠ new →
  ∀ lo mx p, preserves I (batch_loop oracle fuel new t c cols bs total lo mx p).
Proof.
  intros Hk. induction fuel as [|fuel IH]; intros lo mx p; simpl.
  - repeat case_match; by intros ?.
  - destruct lo as [|lo|q|a], mx as [|mx|q'|b]; try (by intros ?);
      try (by repeat case_match; intros ?).
    all: case_match; [|by intros ?].
    all: apply preserves_bind; [apply untouched_begin_transaction|intros _].
    all: apply preserves_bind; [by apply untouched_insert_select|intros rowcount].
    all: apply preserves_bind; [apply untouched_commit|intros _].
    all: apply preserves_bind; [apply untouched_print|intros _].
    all: apply IH.
Qed.

Lemma untouched_migrate total_time fuel t valid defs pk bs total dropped :
  k ≠ t → k ≠ new_table_name t → plain k →
  preserves I (migrate oracle total_time fuel t valid defs pk bs total dropped).
Proof.
  intros Hk Hk' Hplain. unfold migrate.
  apply preserves_bind.
  2:{ intros p. unfold report.
      apply preserves_bind; [apply untouched_print|intros _].
      destruct (is_zero total_time); [apply preserves_raise|apply untouched_print]. }
  unfold rebuild.
  apply preserves_bind; [by apply untouched_create_table|intros _].
  apply preserves_bind; [by intros s|intros c].
  apply preserves_bind; [apply untouched_select_min_max|intros [mn mx]].
  apply preserves_bind.
  { destruct mn, mx; first [apply preserves_ret|by apply untouched_batch_loop]. }
  intros p.
  apply preserves_bind; [apply untouched_begin_transaction|intros _].
  apply preserves_bind; [by apply untouched_drop_table|intros _].
  apply preserves_bind; [by apply untouched_rename_table|intros _].
  apply preserves_bind; [apply untouched_commit|intros _].
  apply preserves_ret.
Qed.

Lemma untouched_drop_unused_columns copy_ok total_time t keep bs backup fuel :
  k ≠ t → k ≠ new_table_name t → plain k →
  preserves I (drop_unused_columns oracle copy_ok total_time t keep bs backup fuel).
Proof.
  intros Hk Hk' Hplain. unfold drop_unused_columns.
  apply preserves_bind; [by destruct backup; intros ?|intros backed_up].
  destruct backed_up; simpl.
  2:{ apply preserves_bind; [apply untouched_print|intros; apply preserves_ret]. }
  apply preserves_bind; [apply untouched_engine_call|intros _].
  apply preserves_bind.
  { apply untouched_statement. intros d _. apply preserves_ret. }
  intros found. destruct found; simpl.
  2:{ apply preserves_bind; [apply untouched_print|intros _].
      apply preserves_bind; [apply untouched_rollback|intros; apply preserves_ret]. }
  apply preserves_bind.
  { apply preserves_bind; [apply untouched_pragma_table_info|intros; apply preserves_ret]. }
  intros current. case_bool_decide.
  { apply preserves_bind; [apply untouched_print|intros _].
    apply preserves_bind; [apply untouched_rollback|intros; apply preserves_ret]. }
  apply preserves_bind; [apply untouched_count_rows|intros total].
  apply preserves_bind; [apply untouched_pragma_table_info|intros rows].
  apply preserves_bind; [apply untouched_pragma_table_info|intros rows'].
  apply preserves_bind.
  { apply preserves_try_except.
    - apply preserves_bind; [by apply untouched_migrate|intros; apply preserves_ret].
    - intros e. unfold on_error.
      apply preserves_bind; [apply untouched_rollback|intros _].
      apply preserves_bind; [apply untouched_print|intros _].
      apply preserves_bind; [apply untouched_rollback|intros; apply preserves_ret]. }
  intros done. destruct done; simpl; [|apply preserves_ret].
  apply preserves_bind; [apply untouched_engine_call|intros _].
  apply preserves_bind; [apply untouched_rollback|intros; apply preserves_ret].
Qed.

End Untouched.

(** X14. A table of the user other than the migrated table and its
    shadow table is in the file after the run as it was before, however
    the run ends and whatever the engine rejects. The tables SQLite keeps
    itself ([sqlite_sequence] and the statistics tables) are not among
    them: DROP TABLE and ALTER TABLE RENAME change their rows. *)
Theorem other_tables_untouched oracle copy_ok total_time (file : db) table_name keep
    batch_size backup fuel (k : string) :
  k ≠ table_name →
  k ≠ new_table_name table_name →
  plain k →
  committed (run oracle copy_ok total_time file table_name keep batch_size backup fuel).2 !! k
  = file !! k.
Proof.
  intros Hk Hk' Hplain.
  destruct (untouched_drop_unused_columns oracle file k copy_ok total_time table_name keep
              batch_size backup fuel Hk Hk' Hplain (connect file)) as [H _]; [by split|].
  exact H.
Qed.

Lemma other_tables_untouched_witness :
  committed (run (failing_at 12) true one_second (<["audit" := pair]> registry) "affiliates"
               ["id"; "surname"] 3 false 10).2 !! "audit"
  = (<["audit" := pair]> registry) !! "audit".
Proof.
  apply (other_tables_untouched (failing_at 12) true one_second (<["audit" := pair]> registry)
           "affiliates" ["id"; "surname"] 3 false 10 "audit"); [discriminate..|].
  split; [discriminate|]. unfold stat_tables. rewrite !elem_of_cons, elem_of_nil.
  intros [H|[H|[H|[H|[]]]]]; discriminate H.
Defined.

(** What the swap does to the engine's own tables: the rows about the
    migrated table are gone, the rows about other tables stay, and so
    does the table [members]. The rebuilt table has no AUTOINCREMENT
    key. *)
Example engine_rows_after_run :
  let r := run quiet true one_second sequenced "affiliates" ["id"; "surname"] 3 false 10 in
  r.1 = Ret true
  ∧ t_rows <$> committed r.2 !! "sqlite_sequence" = Some [[VText "members"; VInt 1]]
  ∧ t_rows <$> committed r.2 !! "sqlite_stat1" = Some [[VText "members"; VNull; VText "1"]]
  ∧ committed r.2 !! "members" = Some (numbered pair)
  ∧ t_autoincrement <$> committed r.2 !! "affiliates" = Some false.
Proof. vm_compute. done. Qed.

(** A row written by hand into [sqlite_sequence] for a table without an
    AUTOINCREMENT key stays when the table is dropped. *)
Example hand_written_sequence_row_stays :
  let file := <["affiliates" := affiliates]> sequenced in
  let r := run quiet true one_second file "affiliates" ["id"; "surname"] 3 false 10 in
  r.1 = Ret true
  ∧ t_rows <$> committed r.2 !! "sqlite_sequence"
    = Some [[VText "affiliates"; VInt 9]; [VText "members"; VInt 1]]
  ∧ t_rows <$> committed r.2 !! "sqlite_stat1" = Some [[VText "members"; VNull; VText "1"]].
Proof. vm_compute. done. Qed.

(** ** Column metadata *)

Lemma table_info_dict_elem_of rows c r :
  table_info_dict rows !! c = Some r → r ∈ rows.
Proof.
  revert r. induction rows as [|x rows IH] using rev_ind; intros r.
  - unfold table_info_dict. simpl. by rewrite lookup_empty.
  - rewrite table_info_dict_snoc, elem_of_app, list_elem_of_singleton.
    destruct (decide (col_name x = c)) as [<-|Hne].
    + rewrite lookup_insert_eq. intros [= ->]. by right.
    + rewrite lookup_insert_ne by done. intros Hr. left. by apply IH.
Qed.

Lemma column_defs_elem_of rows valid d :
  d ∈ column_defs (table_info_dict rows) valid →
  ∃ row, row ∈ rows ∧ col_name row ∈ valid ∧ d = column_def_of row.
Proof.
  unfold column_defs. intros (c & Hc & Hd)%list_elem_of_omap.
  destruct (table_info_dict rows !! c) as [row|] eqn:E; simplify_eq/=.
  exists row. split_and!; [by eapply table_info_dict_elem_of| |done].
  by apply table_info_dict_lookup in E as ->.
Qed.

(** X15. For a table whose primary key has at most one column, after a
    run that returned [True] and had a column to drop every column of the
    table is a column of the keep-list with the type, the NOT NULL flag,
    the default and the primary-key flag it had, numbered by its new
    position. *)
Theorem single_column_key_metadata_kept oracle copy_ok total_time (file : db) T table_name keep
    batch_size backup fuel s' :
  file !! table_name = Some T →
  columns_to_drop keep (column_names T) ≠ [] →
  (∀ row, row ∈ t_info T →
     (col_notnull row = 0 ∨ col_notnull row = 1) ∧ (col_pk row = 0 ∨ col_pk row = 1)) →
  run oracle copy_ok total_time file table_name keep batch_size backup fuel = (Ret true, s') →
  ∃ T',
    committed s' !! table_name = Some T'
    ∧ ∀ k row', t_info T' !! k = Some row' →
        ∃ row, row ∈ t_info T
               ∧ col_name row ∈ keep
               ∧ row' = InfoRow (Z.of_nat k) (col_name row) (col_type row)
                          (col_notnull row) (col_dflt row) (col_pk row).
Proof.
  intros Htable Hdrop Hflags Hrun.
  pose proof (run_spec oracle copy_ok total_time file T table_name keep batch_size backup fuel
                Htable) as H.
  rewrite Hrun in H. simpl in H. destruct H as [_ [[? _]|[_ H]]]; [done|].
  apply migrated_lookup in H as (c & i & idxs & rows & _ & _ & _ & -> & _).
  eexists. rewrite lookup_after_swap. split; [done|]. simpl.
  intros k row'. unfold catalog. rewrite list_lookup_imap.
  destruct (shadow_defs T keep !! k) as [d|] eqn:Hd; [|done]. simpl. intros [= <-].
  apply list_elem_of_lookup_2 in Hd.
  apply column_defs_elem_of in Hd as (row & Hrow & Hname & ->).
  exists row. split_and!; [done| |].
  - by apply elem_of_valid_columns in Hname as [_ ?].
  - destruct (Hflags row Hrow). by apply declared_column_def_of.
Qed.

Lemma single_column_key_metadata_kept_witness :
  ∃ T',
    committed (run quiet true one_second registry "affiliates" ["notes"; "id"] 3 false 10).2
      !! "affiliates" = Some T'
    ∧ ∀ k row', t_info T' !! k = Some row' →
        ∃ row, row ∈ t_info affiliates
               ∧ col_name row ∈ ["notes"; "id"]
               ∧ row' = InfoRow (Z.of_nat k) (col_name row) (col_type row)
                          (col_notnull row) (col_dflt row) (col_pk row).
Proof.
  apply (single_column_key_metadata_kept quiet true one_second registry affiliates "affiliates"
           ["notes"; "id"] 3 false 10).
  - reflexivity.
  - vm_compute. discriminate.
  - intros row Hrow. apply list_elem_of_In in Hrow. simpl in Hrow.
    destruct Hrow as [<-|[<-|[<-|[<-|[<-|[]]]]]]; simpl; auto.
  - vm_compute. reflexivity.
Defined.

(** The catalog the run of the witness leaves. *)
Example affiliates_catalog_after_run :
  t_info <$> committed (run quiet true one_second registry "affiliates" ["notes"; "id"] 3
                          false 10).2 !! "affiliates"
  = Some [InfoRow 0 "notes" "TEXT" 0 (Some "'none'") 0; InfoRow 1 "id" "INTEGER" 1 None 1].
Proof. vm_compute. reflexivity. Qed.

(** ** The command line *)

Lemma backup_path_ne db_path stamp : backup_path db_path stamp ≠ db_path.
Proof.
  unfold backup_path. induction db_path as [|a p IH]; [done|].
  intros [= H]. by apply IH.
Qed.

(** X16. When [main] ends with status 0 on a columns file that lists names
    one per line, and the table had a column outside that list, the
    database file holds the table with exactly the listed columns that it
    had, in the order of the file; with [--backup] the backup holds the
    database as it was, and no other file is changed. *)
Theorem main_keeps_listed_columns oracle copy_ok total_time default_columns_file stamp fuel
    (args : namespace) (files : gmap string content) (file : db) T names files' :
  files !! arg_db_path args = Some (Database file) →
  files !! columns_file default_columns_file args
  = Some (Text (join (String LF EmptyString) names)) →
  Forall column_name_ok names →
  file !! arg_table_name args = Some T →
  columns_to_drop names (column_names T) ≠ [] →
  main oracle copy_ok total_time default_columns_file stamp fuel args files = (Ret 0, files') →
  ∃ file' T',
    files' !! arg_db_path args = Some (Database file')
    ∧ file' !! arg_table_name args = Some T'
    ∧ column_names T' = valid_columns names (column_names T)
    ∧ (arg_backup args = true →
       files' !! backup_path (arg_db_path args) stamp = Some (Database file))
    ∧ ∀ p, p ≠ arg_db_path args → p ≠ backup_path (arg_db_path args) stamp →
           files' !! p = files !! p.
Proof.
  intros Hdb Hcols Hnames Htable Hdrop. unfold main. rewrite Hdb, Hcols.
  rewrite read_columns_to_keep_lf_lines by done.
  pose proof (run_spec oracle copy_ok total_time file T (arg_table_name args) names
                (arg_batch_size args) (arg_backup args) fuel Htable) as H.
  destruct (run _ _ _ _ _ _ _ _ _) as [[[]|e| |] s'] eqn:Hrun; simpl in *; try done.
  intros [= <-].
  destruct H as [_ [[? _]|[_ H]]]; [done|].
  apply migrated_lookup in H as (c & i & idxs & rows & _ & _ & _ & Hfile & _).
  eexists _, _. rewrite lookup_insert_eq. split_and!; [done| | | |].
  - by rewrite Hfile, lookup_after_swap.
  - unfold column_names. simpl. by rewrite catalog_names, shadow_defs_names.
  - intros Hb. rewrite Hb. simpl.
    assert (copy_ok = true) as ->.
    { destruct copy_ok; [done|]. rewrite Hb, run_before_try in Hrun. done. }
    rewrite lookup_insert_ne by (symmetry; apply backup_path_ne).
    by rewrite lookup_insert_eq.
  - intros p Hp Hp'. rewrite lookup_insert_ne by done.
    destruct (arg_backup args && copy_ok); [|done]. by rewrite lookup_insert_ne.
Qed.

Lemma main_keeps_listed_columns_witness :
  ∃ file' T',
    (main quiet true one_second "fixtures/affiliates_columns.txt" "20240101000000" 10
       scenario_args disk).2 !! "cac.db" = Some (Database file')
    ∧ file' !! "affiliates" = Some T'
    ∧ column_names T'
      = valid_columns ["firstname"; "id"; "surname"] (column_names affiliates)
    ∧ (true = true →
       (main quiet true one_second "fixtures/affiliates_columns.txt" "20240101000000" 10
          scenario_args disk).2 !! backup_path "cac.db" "20240101000000"
       = Some (Database registry))
    ∧ ∀ p, p ≠ "cac.db" → p ≠ backup_path "cac.db" "20240101000000" →
           (main quiet true one_second "fixtures/affiliates_columns.txt" "20240101000000" 10
              scenario_args disk).2 !! p = disk !! p.
Proof.
  apply (main_keeps_listed_columns quiet true one_second "fixtures/affiliates_columns.txt"
           "20240101000000" 10 scenario_args disk registry affiliates
           ["firstname"; "id"; "surname"]).
  - vm_compute. reflexivity.
  - vm_compute. reflexivity.
  - repeat constructor; discriminate.
  - reflexivity.
  - vm_compute. discriminate.
  - vm_compute. reflexivity.
Defined.

(** X17. With [--backup], whatever [main] does to the database file, either
    the file is as it was or the backup holds the database as it was: the
    script changes nothing after a failed copy. *)
Theorem backup_precedes_any_change oracle copy_ok total_time default_columns_file stamp fuel
    (args : namespace) (files : gmap string content) (file : db) :
  arg_backup args = true →
  files !! arg_db_path args = Some (Database file) →
  let files' := (main oracle copy_ok total_time default_columns_file stamp fuel args files).2 in
  files' !! arg_db_path args = Some (Database file)
  ∨ files' !! backup_path (arg_db_path args) stamp = Some (Database file).
Proof.
  intros Hb Hdb files'. subst files'. unfold main. rewrite Hdb, Hb.
  destruct (files !! columns_file default_columns_file args) as [[d|text]|];
    simpl; [by left| |by left].
  destruct copy_ok; simpl.
  - right. rewrite lookup_insert_ne by (symmetry; apply backup_path_ne).
    by rewrite lookup_insert_eq.
  - left. by rewrite lookup_insert_eq.
Qed.

Lemma backup_precedes_any_change_witness :
  let files' := (main quiet true one_second "fixtures/affiliates_columns.txt" "20240101000000" 10
                   scenario_args disk).2 in
  files' !! "cac.db" = Some (Database registry)
  ∨ files' !! backup_path "cac.db" "20240101000000" = Some (Database registry).
Proof.
  apply (backup_precedes_any_change quiet true one_second "fixtures/affiliates_columns.txt"
           "20240101000000" 10 scenario_args disk registry).
  - reflexivity.
  - vm_compute. reflexivity.
Defined.

(** ** A copy that has not ended *)

Lemma bind_model_end {A B} (m : M A) (k : A → M B) s :
  (bind m k s).1 = Timeout ∨ (bind m k s).1 = Unmodelled →
  ((m s).1 = Timeout ∨ (m s).1 = Unmodelled) ∧ (bind m k s).2 = (m s).2
  ∨ ∃ a s1, m s = (Ret a, s1)
            ∧ ((k a s1).1 = Timeout ∨ (k a s1).1 = Unmodelled)
            ∧ (bind m k s).2 = (k a s1).2.
Proof.
  unfold bind. destruct (m s) as [[a|e| |] s1]; simpl; intros H.
  - right. by exists a, s1.
  - by destruct H.
  - left. tauto.
  - left. tauto.
Qed.

Lemma post_model_end {A} (r : outcome A * conn) Q E :
  post r Q E False → ¬ (r.1 = Timeout ∨ r.1 = Unmodelled).
Proof. destruct r as [[a|e| |] s]; simpl; intros H [?|?]; done. Qed.

(** The final transaction (lines 177-191) always ends. *)
Lemma swap_returns oracle table_name new_table (processed_rows : Z) s :
  post (bind (begin_transaction oracle) (λ _,
        bind (drop_table oracle table_name) (λ _,
        bind (rename_table oracle new_table table_name) (λ _,
        bind (commit oracle) (λ _,
        ret processed_rows)))) s)
    (λ _ _, True) (λ _ _, True) False.
Proof.
  apply post_bind.
  eapply post_mono; [apply begin_transaction_raises|..]; simpl; [|done..].
  intros _ s1 _. apply post_bind.
  eapply post_mono; [apply drop_table_raises|..]; simpl; [|done..].
  intros _ s2 _. apply post_bind.
  eapply post_mono; [apply rename_table_raises|..]; simpl; [|done..].
  intros _ s3 _. apply post_bind.
  eapply post_mono; [apply commit_raises|..]; simpl; [|done..].
  done.
Qed.

(** When the rebuild does not end, it has stopped before the final
    transaction: the original table is as it was. *)
Lemma rebuild_stops_before_swap oracle fuel table_name valid defs pk batch_size
    total_rows (file : db) s :
  let r := rebuild oracle fuel table_name valid defs pk batch_size total_rows s in
  untouched file table_name s →
  r.1 = Timeout ∨ r.1 = Unmodelled →
  untouched file table_name r.2.
Proof.
  intros r Hs Hend. subst r. unfold rebuild in *.
  pose proof (new_table_name_ne table_name) as Hne.
  assert (Hk : table_name ≠ new_table_name table_name) by done.
  pose proof (untouched_create_table oracle file table_name (new_table_name table_name)
                defs Hk s Hs) as H1.
  apply bind_model_end in Hend as [[_ ->]|([] & s1 & E1 & Hend & ->)]; [done|].
  rewrite E1 in H1. simpl in H1.
  apply bind_model_end in Hend as [[Hl _]|(c & s1' & El & Hend & ->)].
  { unfold lift in Hl. simpl in Hl. destruct (batch_column pk valid); by destruct Hl. }
  assert (s1' = s1) as -> by (unfold lift in El; congruence).
  pose proof (untouched_select_min_max oracle file table_name c table_name s1 H1) as H2.
  apply bind_model_end in Hend as [[_ ->]|([mn mx] & s2 & E2 & Hend & ->)]; [done|].
  rewrite E2 in H2. simpl in H2.
  apply bind_model_end in Hend as [[_ ->]|(p & s3 & E3 & Hend & ->)].
  - destruct mn, mx; try done;
      by apply (untouched_batch_loop oracle file table_name fuel
                  (new_table_name table_name) table_name c valid batch_size total_rows Hk).
  - by destruct (post_model_end _ _ _ (swap_returns oracle table_name
                   (new_table_name table_name) p s3)).
Qed.

(** The two closing lines always end, so the same holds of the body of
    the [try]. *)
Lemma migrate_stops_before_swap oracle total_time fuel table_name valid defs pk batch_size
    total_rows dropped (file : db) s :
  let r := migrate oracle total_time fuel table_name valid defs pk batch_size total_rows
             dropped s in
  untouched file table_name s →
  r.1 = Timeout ∨ r.1 = Unmodelled →
  untouched file table_name r.2.
Proof.
  intros r Hs Hend. subst r. unfold migrate in *.
  apply bind_model_end in Hend as [[Hend ->]|(p & s1 & _ & Hend & _)].
  - by apply rebuild_stops_before_swap.
  - unfold report, bind, print in Hend. simpl in Hend.
    destruct (is_zero total_time); simpl in Hend; by destruct Hend.
Qed.

(** X19. When a run does not end inside the model (the fuel is used up in
    the loop, or the loop gets to floating-point arithmetic), the original
    table is in the file as it was: the script does not touch it before
    the final transaction, whatever number of batches it has committed. *)
Theorem unfinished_copy_keeps_table oracle copy_ok total_time (file : db) T table_name keep
    batch_size backup fuel :
  file !! table_name = Some T →
  let r := run oracle copy_ok total_time file table_name keep batch_size backup fuel in
  r.1 = Timeout ∨ r.1 = Unmodelled →
  committed r.2 !! table_name = Some T.
Proof.
  intros Htable r. subst r. rewrite run_before_try. unfold before_try. rewrite Htable.
  destruct (backup && negb copy_ok); simpl; [by intros [?|?]|].
  destruct (oracle 0%nat); simpl; [by intros [?|?]|].
  destruct (oracle 1%nat); simpl; [by intros [?|?]|].
  destruct (oracle 2%nat); simpl; [by intros [?|?]|].
  case_bool_decide; simpl; [by intros [?|?]|].
  destruct (oracle 3%nat); simpl; [by intros [?|?]|].
  destruct (oracle 4%nat); simpl; [by intros [?|?]|].
  destruct (oracle 5%nat); simpl; [by intros [?|?]|].
  set (s6 := Conn _ _ _ _).
  pose proof (migrate_stops_before_swap oracle total_time fuel table_name
                (valid_columns keep (column_names T)) (shadow_defs T keep)
                (primary_key_cols (t_info T)) batch_size (Z.of_nat (length (t_rows T)))
                (length (columns_to_drop keep (column_names T))) file s6) as Hm.
  simpl in Hm.
  destruct (migrate _ _ _ _ _ _ _ _ _ _ _) as [[[]|e| |] s7]; simpl in *.
  - unfold bind, pragma_foreign_keys, engine_call.
    destruct (oracle _); simpl; by intros [?|?].
  - by intros [?|?].
  - intros _. destruct Hm as [Hm _]; [by split|by left|]. by rewrite Hm.
  - intros _. destruct Hm as [Hm _]; [by split|by right|]. by rewrite Hm.
Qed.

Lemma unfinished_copy_keeps_table_witness :
  committed (run quiet true one_second registry "affiliates" ["id"; "surname"] 3 false 1).2
    !! "affiliates" = Some affiliates.
Proof.
  apply (unfinished_copy_keeps_table quiet true one_second registry affiliates "affiliates"
           ["id"; "surname"] 3 false 1).
  - reflexivity.
  - left. vm_compute. reflexivity.
Defined.

(** The run of the witness stops after one batch. *)
Example unfinished_copy :
  let r := run quiet true one_second registry "affiliates" ["id"; "surname"] 3 false 1 in
  r.1 = Timeout
  ∧ t_rows <$> committed r.2 !! "affiliates_new" = Some [[VInt 1; VText "Okoro"]]
  ∧ committed r.2 !! "affiliates" = Some affiliates.
Proof. vm_compute. done. Qed.

(** ** The clock *)

Lemma after_swap_shadow_gone (d0 : db) t N :
  d0 !! new_table_name t = None → after_swap d0 t N !! new_table_name t = None.
Proof.
  intros Hfree. unfold after_swap.
  assert (t ≠ new_table_name t) as Hne by (intros H; by apply (new_table_name_ne t)).
  rewrite lookup_insert_ne, lookup_renamed, lookup_forget, lookup_delete_ne by done.
  by rewrite Hfree.
Qed.

(** X20. Line 196 divides by the elapsed time without the guard line 167
    has. When the clock reads the same at lines 133 and 194, no run that
    has a column to drop returns [True]. With an engine that rejects
    nothing, a free shadow name, a keep-list without repetition, integer
    or NULL batching values whose batch bounds fit in 64 bits, a batch size
    of at least 1 and enough fuel, the run commits the swap and then
    returns [False] after reporting a [ZeroDivisionError]: the table has
    been rebuilt with the kept columns and the shadow table is gone,
    although the script reports failure. *)
Theorem standstill_clock_fails_after_swap oracle copy_ok total_time (file : db) T table_name
    keep batch_size backup fuel c i :
  let valid := valid_columns keep (column_names T) in
  let to_drop := columns_to_drop keep (column_names T) in
  is_zero total_time = true →
  file !! table_name = Some T →
  to_drop ≠ [] →
  let r := run oracle copy_ok total_time file table_name keep batch_size backup fuel in
  r.1 ≠ Ret true
  ∧ ((∀ k, oracle k = false) →
     (backup = true → copy_ok = true) →
     file !! new_table_name table_name = None →
     NoDup valid →
     batch_column (primary_key_cols (t_info T)) valid = Ret c →
     column_index T c = Some i →
     (∀ row, row ∈ t_rows T →
        cell i row = VNull
        ∨ ∃ n, cell i row = VInt n ∧ int64 n ∧ int64 (n + batch_size - 1)) →
     1 ≤ batch_size →
     (∀ r1 r2 n1 n2,
        r1 ∈ t_rows T → r2 ∈ t_rows T → cell i r1 = VInt n1 → cell i r2 = VInt n2 →
        n2 - n1 < Z.of_nat fuel) →
     r.1 = Ret false
     ∧ last (stdout r.2) = Some (ErrorOccurred ZeroDivisionError)
     ∧ pending r.2 = None
     ∧ committed r.2 !! new_table_name table_name = None
     ∧ ∃ T', committed r.2 !! table_name = Some T'
             ∧ column_names T' = valid
             ∧ T' ≠ T).
Proof.
  intros valid to_drop Hz Htable Hdrop r. split.
  - destruct r as [o s'] eqn:Hr. simpl. intros ->.
    pose proof (run_true_clock _ _ _ _ _ _ _ _ _ _ _ Htable Hdrop Hr). congruence.
  - intros Hquiet Hbackup Hfree Hdup Hc Hi Hvalues Hsize Hfuel.
    destruct (run_fault_free_ends oracle copy_ok total_time file T table_name keep batch_size
                backup fuel c i) as (b & s' & Hrun & H); try done.
    subst r. rewrite Hrun. simpl. destruct b.
    { pose proof (run_true_clock _ _ _ _ _ _ _ _ _ _ _ Htable Hdrop Hrun). congruence. }
    destruct H as (_ & [rows (c' & i' & idxs & _ & _ & _ & _ & _ & Hp & Hcm & _)] & Hout).
    split_and!; [done..| |].
    + rewrite Hcm. by apply after_swap_shadow_gone.
    + eexists. rewrite Hcm, lookup_after_swap. split; [done|].
      assert (Hnames : column_names
                         {| t_info := catalog (shadow_defs T keep); t_rows := rows;
                            t_autoincrement := false |} = valid).
      { unfold column_names. simpl. by rewrite catalog_names, shadow_defs_names. }
      split; [done|]. intros HT. apply Hdrop. unfold to_drop.
      rewrite <- HT, Hnames. apply columns_to_drop_valid.
Qed.

Lemma standstill_clock_fails_after_swap_witness :
  let r := run quiet true no_time registry "affiliates" ["id"; "surname"; "firstname"] 3
             false 10 in
  r.1 = Ret false
  ∧ last (stdout r.2) = Some (ErrorOccurred ZeroDivisionError)
  ∧ pending r.2 = None
  ∧ committed r.2 !! new_table_name "affiliates" = None
  ∧ ∃ T', committed r.2 !! "affiliates" = Some T'
          ∧ column_names T'
            = valid_columns ["id"; "surname"; "firstname"] (column_names affiliates)
          ∧ T' ≠ affiliates.
Proof.
  apply (standstill_clock_fails_after_swap quiet true no_time registry affiliates "affiliates"
           ["id"; "surname"; "firstname"] 3 false 10 "id" 0%nat).
  - reflexivity.
  - reflexivity.
  - vm_compute. discriminate.
  - reflexivity.
  - discriminate.
  - reflexivity.
  - apply (bool_decide_unpack _). vm_compute. exact I.
  - reflexivity.
  - reflexivity.
  - intros row Hrow. apply list_elem_of_In in Hrow. simpl in Hrow. right.
    destruct Hrow as [<-|[<-|[<-|[<-|[]]]]]; eexists; (split; [reflexivity|]);
      split; vm_compute; exact I.
  - lia.
  - intros r1 r2 n1 n2 H1 H2. apply list_elem_of_In in H1, H2. simpl in H1, H2.
    destruct H1 as [<-|[<-|[<-|[<-|[]]]]], H2 as [<-|[<-|[<-|[<-|[]]]]];
      intros [= <-] [= <-]; lia.
Defined.

(** The run of the witness: the rows are in the table, the last two lines
    of the output are the line of line 195 and the error. *)
Example standstill_run :
  let r := run quiet true no_time registry "affiliates" ["id"; "surname"; "firstname"] 3
             false 10 in
  r.1 = Ret false
  ∧ stdout r.2 = [Progress 1 4; Progress 3 4; Progress 4 4; Dropped 2;
                  ErrorOccurred ZeroDivisionError]
  ∧ t_rows <$> committed r.2 !! "affiliates"
    = Some [[VInt 1; VText "Okoro"; VText "Ada"];
            [VInt 4; VText "Eze"; VNull];
            [VInt 5; VText "Ojo"; VText "Tola"];
            [VInt 9; VText "Bello"; VText "Musa"]]
  ∧ committed r.2 !! "affiliates_new" = None.
Proof. vm_compute. done. Qed.

(** The same run with a clock that has advanced. *)
Example advancing_run :
  let r := run quiet true one_second registry "affiliates" ["id"; "surname"; "firstname"] 3
             false 10 in
  r.1 = Ret true
  ∧ stdout r.2 = [Progress 1 4; Progress 3 4; Progress 4 4; Dropped 2; Summary 2 4].
Proof. vm_compute. done. Qed.
